(** * GEM pretraining model (model_zoo/gem_model.py): encoder and multi-task head

    A shallow embedding of [GeoGNNBlock], [GeoGNNModel] and [GeoPredModel].
    Tensors carry real-valued data; exceptions are an explicit error result;
    the order in which the head calls the encoder, the task losses and the
    coefficient vector is recorded in a ghost trace. Primitives of the tensor
    framework and of the sibling modules [networks.*] and [weighted_nt_xent]
    are the fields of one interface, [Framework]. Stochastic layers (dropout)
    are read at a fixed mask, so a layer is a function of its input. *)

From Stdlib Require Import List String ZArith Bool Lia.
From Stdlib Require Import Reals Lra.
Import ListNotations.

Set Implicit Arguments.

Local Open Scope string_scope.
Local Open Scope list_scope.
Local Open Scope R_scope.

(** ** Exceptions and the error monad *)

Inductive exn : Type :=
| KeyError (key : string)
| AttributeError (attr : string)
| IndexError (what : string)
| TypeError (what : string)
| FrameworkError (what : string).

Inductive result (A : Type) : Type :=
| Ok (a : A)
| Err (e : exn).

Arguments Ok {A} a.
Arguments Err {A} e.

Class Monad (m : Type -> Type) : Type := {
  ret : forall {A}, A -> m A;
  bind : forall {A B}, m A -> (A -> m B) -> m B
}.

Notation "x <- m ;; k" := (bind m (fun x => k))
  (right associativity, at level 61, m at next level).
Notation "' p <- m ;; k" := (bind m (fun v => match v with p => k end))
  (right associativity, at level 61, p pattern, m at next level).
Notation "m ;;; k" := (bind m (fun _ => k))
  (right associativity, at level 61).

#[export] Instance result_monad : Monad result := {
  ret := fun A a => Ok a;
  bind := fun A B m f => match m with Ok a => f a | Err e => Err e end
}.

(** ** Python containers *)

(** A [dict] keeps insertion order, as Python's does: iteration over
    [sub_losses] is what numbers the coefficients. *)
Definition dict (V : Type) : Type := list (string * V).

Fixpoint dict_find {V} (d : dict V) (k : string) : option V :=
  match d with
  | [] => None
  | (k', v) :: rest => if String.eqb k k' then Some v else dict_find rest k
  end.

(** [d[k]] *)
Definition dict_get {V} (d : dict V) (k : string) : result V :=
  match dict_find d k with
  | Some v => Ok v
  | None => Err (KeyError k)
  end.

(** [d[k] = v]: overwrite in place, or append a new key. *)
Fixpoint dict_set {V} (d : dict V) (k : string) (v : V) : dict V :=
  match d with
  | [] => [(k, v)]
  | (k', v') :: rest =>
      if String.eqb k k' then (k', v) :: rest else (k', v') :: dict_set rest k v
  end.

Definition dict_keys {V} (d : dict V) : list string := map fst d.

(** [x in l] on a list of tags. *)
Definition py_in (x : string) (l : list string) : bool :=
  existsb (String.eqb x) l.

(** [range(n)] *)
Definition range (n : Z) : list nat := seq 0 (Z.to_nat n).

(** [xs[i]] and [xs[-1]] *)
Definition list_get {A} (xs : list A) (i : nat) (what : string) : result A :=
  match nth_error xs i with
  | Some x => Ok x
  | None => Err (IndexError what)
  end.

Definition list_last {A} (xs : list A) (what : string) : result A :=
  match rev xs with
  | x :: _ => Ok x
  | [] => Err (IndexError what)
  end.

(** Obtain an attribute that [__init__] sets only under a condition. *)
Definition attr {A} (name : string) (o : option A) : result A :=
  match o with
  | Some a => Ok a
  | None => Err (AttributeError name)
  end.

Fixpoint foldM {A B} (f : A -> B -> result A) (a : A) (xs : list B) : result A :=
  match xs with
  | [] => Ok a
  | x :: rest => a' <- f a x ;; foldM f a' rest
  end.

(** ** Tensors, graphs, configuration values *)

Inductive dtype : Type := float32 | int64.

Record Tensor : Type := mkTensor {
  t_dtype : dtype;
  t_shape : list Z;
  t_data : list R
}.

(** Size of the last axis. *)
Definition width (t : Tensor) : Z := last (t_shape t) 0%Z.

Record Graph : Type := mkGraph {
  num_nodes : nat;
  edges : list (nat * nat);
  node_feat : dict Tensor;
  edge_feat : dict Tensor
}.

Inductive Value : Type :=
| VInt (z : Z)
| VFloat (r : R)
| VStr (s : string)
| VList (l : list string).

Definition as_int (k : string) (v : Value) : result Z :=
  match v with VInt z => Ok z | _ => Err (TypeError k) end.
Definition as_float (k : string) (v : Value) : result R :=
  match v with VFloat r => Ok r | VInt z => Ok (IZR z) | _ => Err (TypeError k) end.
Definition as_str (k : string) (v : Value) : result string :=
  match v with VStr s => Ok s | _ => Err (TypeError k) end.
Definition as_list (k : string) (v : Value) : result (list string) :=
  match v with VList l => Ok l | _ => Err (TypeError k) end.

(** [model_config[k]] read at the type its consumer needs. *)
Definition cfg_int (c : dict Value) (k : string) : result Z :=
  v <- dict_get c k ;; as_int k v.
Definition cfg_float (c : dict Value) (k : string) : result R :=
  v <- dict_get c k ;; as_float k v.
Definition cfg_str (c : dict Value) (k : string) : result string :=
  v <- dict_get c k ;; as_str k v.
Definition cfg_list (c : dict Value) (k : string) : result (list string) :=
  v <- dict_get c k ;; as_list k v.

(** [model_config.get(k, default)] *)
Definition cfg_get {A} (conv : string -> Value -> result A)
    (c : dict Value) (k : string) (default : A) : result A :=
  match dict_find c k with
  | Some v => conv k v
  | None => Ok default
  end.

(** ** Python scalars of the angle discretisation *)

(** [np.pi]: the double nearest to pi, as the real number it holds. *)
Definition np_pi : R := 884279719003555 / 281474976710656.

(** The integer part of a real with the fraction dropped (rounding toward
    zero). [Int_part] is the floor. *)
Definition Rtrunc (x : R) : Z :=
  if Rle_dec 0 x then Int_part x else (- Int_part (- x))%Z.

(** ** The framework interface

    What the model calls and does not define: tensor operations and layers
    of the tensor framework, the graph pooling of the graph library, and the
    layer classes and the contrastive loss of the repository's other
    modules. A call may raise. *)

Definition Layer : Type := Tensor -> result Tensor.
Definition FeatLayer : Type := dict Tensor -> result Tensor.
Definition GraphLayer : Type := Graph -> Tensor -> result Tensor.
Definition LossFn : Type := Tensor -> Tensor -> result R.

Class Framework : Type := {
  (* paddle *)
  gather : Tensor -> Tensor -> result Tensor;
  concat : list Tensor -> Z -> result Tensor;
  normalize : Tensor -> Z -> result Tensor;
  tadd : Tensor -> Tensor -> result Tensor;
  scalar_div : Tensor -> R -> result Tensor;      (* tensor / Python number *)
  scalar_mul : Tensor -> R -> result Tensor;      (* tensor * Python number *)
  cast : Tensor -> dtype -> result Tensor;        (* paddle.cast *)
  LayerNorm : Z -> Layer;
  ReLU : Layer;
  Dropout : R -> Layer;
  CrossEntropyLoss : LossFn;
  BCEWithLogitsLoss : LossFn;
  SmoothL1Loss : LossFn;
  (* pgl *)
  GraphPool : string -> GraphLayer;
  (* networks.basic_block, networks.gnn_block, networks.compound_encoder *)
  MLP : Z -> Z -> string -> Z -> Z -> R -> Layer;
  GIN : Z -> Graph -> Tensor -> Tensor -> result (Tensor * Tensor);
  GraphNorm : GraphLayer;
  MeanPool : GraphLayer;
  AtomEmbedding : list string -> Z -> FeatLayer;
  BondEmbedding : list string -> Z -> FeatLayer;
  BondFloatRBF : list string -> Z -> FeatLayer;
  BondAngleFloatRBF : list string -> Z -> FeatLayer;
  (* model_zoo.weighted_nt_xent *)
  WeightedNTXentLoss_func : Tensor -> Tensor -> Tensor -> option Tensor -> result R
}.

Section Encoder.
Context {fw : Framework}.

(** ** GeoGNNBlock *)

Record GeoGNNBlock : Type := mkGeoGNNBlock {
  blk_embed_dim : Z;
  blk_last_act : bool;
  blk_gnn : Graph -> Tensor -> Tensor -> result (Tensor * Tensor);
  blk_norm : Layer;
  blk_graph_norm : GraphLayer;
  blk_act : option Layer;          (* set only when [last_act] *)
  blk_dropout : Layer
}.

(** [GeoGNNBlock.__init__] *)
Definition GeoGNNBlock_init (embed_dim : Z) (dropout_rate : R) (last_act : bool)
    : GeoGNNBlock :=
  {| blk_embed_dim := embed_dim;
     blk_last_act := last_act;
     blk_gnn := GIN embed_dim;
     blk_norm := LayerNorm embed_dim;
     blk_graph_norm := GraphNorm;
     blk_act := if last_act then Some ReLU else None;
     blk_dropout := Dropout dropout_rate |}.

(** [GeoGNNBlock.forward] *)
Definition GeoGNNBlock_forward (self : GeoGNNBlock) (graph : Graph)
    (node_hidden edge_hidden : Tensor) : result (Tensor * Tensor) :=
  '(node_out, edge_out) <- blk_gnn self graph node_hidden edge_hidden ;;
  node_out <- blk_norm self node_out ;;
  edge_out <- blk_norm self edge_out ;;
  node_out <- blk_graph_norm self graph node_out ;;
  '(node_out, edge_out) <-
     (if blk_last_act self then
        act <- attr "act" (blk_act self) ;;
        node_out <- act node_out ;;
        act <- attr "act" (blk_act self) ;;
        edge_out <- act edge_out ;;
        ret (node_out, edge_out)
      else ret (node_out, edge_out)) ;;
  node_out <- blk_dropout self node_out ;;
  edge_out <- blk_dropout self edge_out ;;
  node_out <- tadd node_out node_hidden ;;
  edge_out <- tadd edge_out edge_hidden ;;
  ret (node_out, edge_out).

(** ** GeoGNNModel *)

Record GeoGNNModel : Type := mkGeoGNNModel {
  embed_dim : Z;
  enc_dropout_rate : R;
  layer_num : Z;
  readout : string;
  atom_names : list string;
  bond_names : list string;
  bond_float_names : list string;
  bond_angle_float_names : list string;
  dihes_bond_float_names : list string;
  init_atom_embedding : FeatLayer;
  init_bond_embedding : FeatLayer;
  init_bond_float_rbf : FeatLayer;
  init_super_edge_embedding : FeatLayer;
  bond_embedding_list : list FeatLayer;
  bond_float_rbf_list : list FeatLayer;
  bond_angle_float_rbf_list : list FeatLayer;
  dihes_angle_float_rbf_list : list FeatLayer;
  atom_bond_block_list : list GeoGNNBlock;
  bond_angle_block_list : list GeoGNNBlock;
  dihes_angle_list : list GeoGNNBlock;
  graph_pool : GraphLayer
}.

(** [GeoGNNModel.__init__]. Every layer of the loop is built from the same
    arguments, so each [LayerList] is a [map] over [range(layer_num)]. *)
Definition GeoGNNModel_init (model_config : dict Value) : result GeoGNNModel :=
  embed_dim <- cfg_get as_int model_config "embed_dim" 32%Z ;;
  dropout_rate <- cfg_get as_float model_config "dropout_rate" (2 / 10) ;;
  layer_num <- cfg_get as_int model_config "layer_num" 8%Z ;;
  readout <- cfg_get as_str model_config "readout" "mean" ;;
  atom_names <- cfg_list model_config "atom_names" ;;
  bond_names <- cfg_list model_config "bond_names" ;;
  bond_float_names <- cfg_list model_config "bond_float_names" ;;
  bond_angle_float_names <- cfg_list model_config "bond_angle_float_names" ;;
  let dihes_bond_float_names := ["dihes_angle"] in
  let last_act (layer_id : nat) := negb (Z.of_nat layer_id =? layer_num - 1)%Z in
  let layers {A} (mk : nat -> A) := map mk (range layer_num) in
  ret {| embed_dim := embed_dim;
         enc_dropout_rate := dropout_rate;
         layer_num := layer_num;
         readout := readout;
         atom_names := atom_names;
         bond_names := bond_names;
         bond_float_names := bond_float_names;
         bond_angle_float_names := bond_angle_float_names;
         dihes_bond_float_names := dihes_bond_float_names;
         init_atom_embedding := AtomEmbedding atom_names embed_dim;
         init_bond_embedding := BondEmbedding bond_names embed_dim;
         init_bond_float_rbf := BondFloatRBF bond_float_names embed_dim;
         init_super_edge_embedding := BondAngleFloatRBF bond_angle_float_names embed_dim;
         bond_embedding_list := layers (fun _ => BondEmbedding bond_names embed_dim);
         bond_float_rbf_list := layers (fun _ => BondFloatRBF bond_float_names embed_dim);
         bond_angle_float_rbf_list :=
           layers (fun _ => BondAngleFloatRBF bond_angle_float_names embed_dim);
         dihes_angle_float_rbf_list :=
           layers (fun _ => BondAngleFloatRBF dihes_bond_float_names embed_dim);
         atom_bond_block_list :=
           layers (fun i => GeoGNNBlock_init embed_dim dropout_rate (last_act i));
         bond_angle_block_list :=
           layers (fun i => GeoGNNBlock_init embed_dim dropout_rate (last_act i));
         dihes_angle_list :=
           layers (fun i => GeoGNNBlock_init embed_dim dropout_rate (last_act i));
         graph_pool := if String.eqb readout "mean" then MeanPool else GraphPool readout |}.

(** The [node_dim] and [graph_dim] properties. *)
Definition node_dim (self : GeoGNNModel) : Z := embed_dim self.
Definition graph_dim (self : GeoGNNModel) : Z := embed_dim self.

(** The three hidden-state lists the layer loop appends to. *)
Record HiddenLists : Type := mkHiddenLists {
  node_hidden_list : list Tensor;
  edge_hidden_list : list Tensor;
  super_edge_hidden_list : list Tensor
}.

(** Body of [for layer_id in range(self.layer_num)]. *)
Definition GeoGNNModel_layer (self : GeoGNNModel)
    (atom_bond_graph bond_angle_graph dihes_angle_graph : Graph)
    (st : HiddenLists) (layer_id : nat) : result HiddenLists :=
  emb <- list_get (bond_embedding_list self) layer_id "bond_embedding_list" ;;
  cur_edge_hidden <- emb (edge_feat atom_bond_graph) ;;
  rbf <- list_get (bond_float_rbf_list self) layer_id "bond_float_rbf_list" ;;
  cur_edge_rbf <- rbf (edge_feat atom_bond_graph) ;;
  cur_edge_hidden <- tadd cur_edge_hidden cur_edge_rbf ;;
  rbf <- list_get (bond_angle_float_rbf_list self) layer_id "bond_angle_float_rbf_list" ;;
  cur_angle_hidden <- rbf (edge_feat bond_angle_graph) ;;
  rbf <- list_get (dihes_angle_float_rbf_list self) layer_id "dihes_angle_float_rbf_list" ;;
  cur_dihes_angle_hidden <- rbf (edge_feat dihes_angle_graph) ;;
  blk <- list_get (atom_bond_block_list self) layer_id "atom_bond_block_list" ;;
  nh <- list_get (node_hidden_list st) layer_id "node_hidden_list" ;;
  eh <- list_get (edge_hidden_list st) layer_id "edge_hidden_list" ;;
  '(node_hidden, edge_hidden_1) <- GeoGNNBlock_forward blk atom_bond_graph nh eh ;;
  blk <- list_get (bond_angle_block_list self) layer_id "bond_angle_block_list" ;;
  seed <- tadd cur_edge_hidden edge_hidden_1 ;;
  sh <- list_get (super_edge_hidden_list st) layer_id "super_edge_hidden_list" ;;
  '(edge_hidden, dihes_node_hidden_1) <- GeoGNNBlock_forward blk bond_angle_graph seed sh ;;
  blk <- list_get (dihes_angle_list self) layer_id "dihes_angle_list" ;;
  seed <- tadd cur_angle_hidden dihes_node_hidden_1 ;;
  '(dihes_node_hidden, _) <-
     GeoGNNBlock_forward blk dihes_angle_graph seed cur_dihes_angle_hidden ;;
  ret {| node_hidden_list := node_hidden_list st ++ [node_hidden];
         edge_hidden_list := edge_hidden_list st ++ [edge_hidden];
         super_edge_hidden_list := super_edge_hidden_list st ++ [dihes_node_hidden] |}.

(** [GeoGNNModel.forward] *)
Definition GeoGNNModel_forward (self : GeoGNNModel)
    (atom_bond_graph bond_angle_graph dihes_angle_graph : Graph)
    : result (Tensor * Tensor * Tensor) :=
  node_hidden <- init_atom_embedding self (node_feat atom_bond_graph) ;;
  bond_embed <- init_bond_embedding self (edge_feat atom_bond_graph) ;;
  bond_rbf <- init_bond_float_rbf self (edge_feat atom_bond_graph) ;;
  edge_hidden <- tadd bond_embed bond_rbf ;;
  super_edge_hidden <- init_super_edge_embedding self (edge_feat bond_angle_graph) ;;
  st <- foldM (GeoGNNModel_layer self atom_bond_graph bond_angle_graph dihes_angle_graph)
          {| node_hidden_list := [node_hidden];
             edge_hidden_list := [edge_hidden];
             super_edge_hidden_list := [super_edge_hidden] |}
          (range (layer_num self)) ;;
  edge_repr <- list_last (edge_hidden_list st) "edge_hidden_list" ;;
  node_repr <- list_last (node_hidden_list st) "node_hidden_list" ;;
  graph_repr <- graph_pool self atom_bond_graph node_repr ;;
  ret (node_repr, edge_repr, graph_repr).

End Encoder.

(** ** Ghost trace and the head's monad *)

Inductive Event : Type :=
| EvEncoder (atom_bond_graph bond_angle_graph dihes_angle_graph : Graph)
| EvLoss (task : string) (repr : Tensor) (value : R)
| EvCl (x1 x2 mols : Tensor) (rms : option Tensor) (value : R)
| EvCoef (name : string) (cnt : nat).

(** A computation that may raise and that appends to the trace. *)
Definition M (A : Type) : Type := result (A * list Event).

#[export] Instance M_monad : Monad M := {
  ret := fun A a => Ok (a, []);
  bind := fun A B m f =>
    match m with
    | Err e => Err e
    | Ok (a, w1) =>
        match f a with
        | Err e => Err e
        | Ok (b, w2) => Ok (b, w1 ++ w2)
        end
    end
}.

Definition tell (ev : Event) : M unit := Ok (tt, [ev]).

Definition lift {A} (r : result A) : M A :=
  match r with Ok a => Ok (a, []) | Err e => Err e end.

Notation "x <~ c1 ;; c2" := (bind (lift c1) (fun x => c2))
  (at level 61, c1 at next level, right associativity).

(** [d[k] = rhs] and [d[k] += rhs] on the dict of sub-losses. The augmented
    assignment reads [d[k]] before it evaluates its right-hand side. *)
Definition set_item (d : dict R) (k : string) (rhs : M R) : M (dict R) :=
  v <- rhs ;; ret (dict_set d k v).

Definition iadd_item (d : dict R) (k : string) (rhs : M R) : M (dict R) :=
  cur <~ dict_get d k ;; v <- rhs ;; ret (dict_set d k (cur + v)).

Section Head.
Context {fw : Framework}.

(** ** GeoPredModel *)

Record GeoPredModel : Type := mkGeoPredModel {
  compound_encoder : GeoGNNModel;
  hidden_size : Z;
  dropout_rate : R;
  act : string;
  pretrain_tasks : list string;
  coefs : list R;
  Cm_vocab : option Z;  Cm_linear : option Layer;  Cm_loss : option LossFn;
  Fg_linear : Layer;  Fg_loss : LossFn;
  Bar_vocab : option Z;  Bar_mlp_1 : option Layer;  Bar_mlp_2 : option Layer;
  Bar_loss : option LossFn;
  Dar_vocab : option Z;  Dar_mlp1 : option Layer;  Dar_loss : option LossFn;
  Dar_mlp2 : option Layer;  Dar_loss_extra : option LossFn;
  Blr_vocab : option Z;  Blr_mlp : option Layer;  Blr_loss : option LossFn;
  Adc_vocab : option Z;  Adc_mlp : option Layer;  Adc_loss : option LossFn;
  Cl_vocab : option Z;  Cl_linear : option Layer;  Cl_loss : option LossFn
}.

(** [GeoPredModel.__init__]. The attributes of a task are [None] when the
    constructor does not set them. *)
Definition GeoPredModel_init (model_config : dict Value) (compound_encoder : GeoGNNModel)
    : result GeoPredModel :=
  hidden_size <- cfg_int model_config "hidden_size" ;;
  dropout_rate <- cfg_float model_config "dropout_rate" ;;
  act <- cfg_str model_config "act" ;;
  pretrain_tasks <- cfg_list model_config "pretrain_tasks" ;;
  let coefs := repeat 0 8 in
  let enc_dim := embed_dim compound_encoder in
  '(Cm_vocab, Cm_linear, Cm_loss) <-
     (if py_in "Cm" pretrain_tasks then
        Cm_vocab <- cfg_int model_config "Cm_vocab" ;;
        ret (Some Cm_vocab,
             Some (MLP 2 hidden_size act enc_dim (Cm_vocab + 2) dropout_rate),
             Some CrossEntropyLoss)
      else ret (None, None, None)) ;;
  Fg_size <- cfg_int model_config "Fg_size" ;;
  let Fg_linear := MLP 2 hidden_size act enc_dim Fg_size dropout_rate in
  let Fg_loss := BCEWithLogitsLoss in
  '(Bar_vocab, Bar_mlp_1, Bar_mlp_2, Bar_loss) <-
     (if py_in "Bar" pretrain_tasks then
        Bar_vocab <- cfg_int model_config "Bar_vocab" ;;
        ret (Some Bar_vocab,
             Some (MLP 2 hidden_size act (enc_dim * 2) enc_dim dropout_rate),
             Some (MLP 2 hidden_size act (enc_dim * 2) (Bar_vocab + 2) dropout_rate),
             Some CrossEntropyLoss)
      else ret (None, None, None, None)) ;;
  '(Dar_vocab, Dar_mlp1, Dar_loss, Dar_mlp2, Dar_loss_extra) <-
     (if py_in "Dar" pretrain_tasks then
        Dar_vocab <- cfg_int model_config "Dar_vocab" ;;
        ret (Some Dar_vocab,
             Some (MLP 2 hidden_size act (enc_dim * 3) enc_dim dropout_rate),
             Some CrossEntropyLoss,
             Some (MLP 2 hidden_size act (enc_dim * 2) (Dar_vocab + 2) dropout_rate),
             Some CrossEntropyLoss)
      else ret (None, None, None, None, None)) ;;
  '(Blr_vocab, Blr_mlp, Blr_loss) <-
     (if py_in "Blr" pretrain_tasks then
        Blr_vocab <- cfg_int model_config "Blr_vocab" ;;
        ret (Some Blr_vocab,
             Some (MLP 2 hidden_size act (enc_dim * 2) 1 dropout_rate),
             Some SmoothL1Loss)
      else ret (None, None, None)) ;;
  '(Adc_vocab, Adc_mlp, Adc_loss) <-
     (if py_in "Adc" pretrain_tasks then
        Adc_vocab <- cfg_int model_config "Adc_vocab" ;;
        ret (Some Adc_vocab,
             Some (MLP 2 hidden_size act (enc_dim * 2) 1 dropout_rate),
             Some SmoothL1Loss)
      else ret (None, None, None)) ;;
  '(Cl_vocab, Cl_linear, Cl_loss) <-
     (if py_in "Cl" pretrain_tasks then
        Cl_vocab <- cfg_int model_config "Cl_vocab" ;;
        ret (Some Cl_vocab,
             Some (MLP 2 hidden_size act enc_dim 1 dropout_rate),
             Some SmoothL1Loss)
      else ret (None, None, None)) ;;
  ret {| compound_encoder := compound_encoder;
         hidden_size := hidden_size;
         dropout_rate := dropout_rate;
         act := act;
         pretrain_tasks := pretrain_tasks;
         coefs := coefs;
         Cm_vocab := Cm_vocab;  Cm_linear := Cm_linear;  Cm_loss := Cm_loss;
         Fg_linear := Fg_linear;  Fg_loss := Fg_loss;
         Bar_vocab := Bar_vocab;  Bar_mlp_1 := Bar_mlp_1;  Bar_mlp_2 := Bar_mlp_2;
         Bar_loss := Bar_loss;
         Dar_vocab := Dar_vocab;  Dar_mlp1 := Dar_mlp1;  Dar_loss := Dar_loss;
         Dar_mlp2 := Dar_mlp2;  Dar_loss_extra := Dar_loss_extra;
         Blr_vocab := Blr_vocab;  Blr_mlp := Blr_mlp;  Blr_loss := Blr_loss;
         Adc_vocab := Adc_vocab;  Adc_mlp := Adc_mlp;  Adc_loss := Adc_loss;
         Cl_vocab := Cl_vocab;  Cl_linear := Cl_linear;  Cl_loss := Cl_loss |}.

(** *** The per-task losses *)

Definition _get_Cm_loss (self : GeoPredModel) (Cm_node_i Cm_context_id node_repr : Tensor)
    : M R :=
  masked_node_repr <~ gather node_repr Cm_node_i ;;
  linear <~ attr "Cm_linear" (Cm_linear self) ;;
  logits <~ linear masked_node_repr ;;
  loss_fn <~ attr "Cm_loss" (Cm_loss self) ;;
  loss <~ loss_fn logits Cm_context_id ;;
  tell (EvLoss "Cm" node_repr loss) ;;;
  ret loss.

Definition _get_Fg_loss (self : GeoPredModel) (feed_dict : dict Tensor) (graph_repr : Tensor)
    : M R :=
  Fg_morgan <~ dict_get feed_dict "Fg_morgan" ;;
  Fg_daylight <~ dict_get feed_dict "Fg_daylight" ;;
  Fg_maccs <~ dict_get feed_dict "Fg_maccs" ;;
  fg_label <~ concat [Fg_morgan; Fg_daylight; Fg_maccs] 1 ;;
  logits <~ Fg_linear self graph_repr ;;
  loss <~ Fg_loss self logits fg_label ;;
  tell (EvLoss "Fg" graph_repr loss) ;;;
  ret loss.

(** The label of an angle:
    [paddle.cast(bond_angle / np.pi * self.X_vocab, 'int64')], evaluated left
    to right: the division, the read of the attribute, the multiplication,
    the cast. The three operations are the framework's, on [float32]
    tensors. *)
Definition angle_dist_id (bond_angle : Tensor) (vocab : result Z) : result Tensor :=
  quotient <- scalar_div bond_angle np_pi ;;
  vocab <- vocab ;;
  scaled <- scalar_mul quotient (IZR vocab) ;;
  cast scaled int64.

Definition _get_Bar_loss (self : GeoPredModel)
    (Ba_node_i Ba_node_j Ba_node_k Ba_bond_angle node_repr : Tensor) : M R :=
  node_i_repr <~ gather node_repr Ba_node_i ;;
  node_j_repr <~ gather node_repr Ba_node_j ;;
  node_k_repr <~ gather node_repr Ba_node_k ;;
  node_ij_repr <~ concat [node_i_repr; node_j_repr] 1 ;;
  mlp_1 <~ attr "Bar_mlp_1" (Bar_mlp_1 self) ;;
  node_ij_repr <~ mlp_1 node_ij_repr ;;
  node_jk_repr <~ concat [node_j_repr; node_k_repr] 1 ;;
  mlp_1 <~ attr "Bar_mlp_1" (Bar_mlp_1 self) ;;
  node_jk_repr <~ mlp_1 node_jk_repr ;;
  mlp_2 <~ attr "Bar_mlp_2" (Bar_mlp_2 self) ;;
  both <~ concat [node_ij_repr; node_jk_repr] 1 ;;
  pred <~ mlp_2 both ;;
  Bar_dist_id <~ angle_dist_id Ba_bond_angle (attr "Bar_vocab" (Bar_vocab self)) ;;
  loss_fn <~ attr "Bar_loss" (Bar_loss self) ;;
  loss <~ loss_fn pred Bar_dist_id ;;
  tell (EvLoss "Bar" node_repr loss) ;;;
  ret loss.

Definition _get_Dar_loss (self : GeoPredModel)
    (Da_node_i Da_node_j Da_node_k Da_node_l Da_bond_angle
     Da_node_i_extra Da_node_j_extra Da_node_k_extra Da_node_l_extra
     Da_bond_angle_extra node_repr : Tensor) : M R :=
  node_i_repr <~ gather node_repr Da_node_i ;;
  node_j_repr <~ gather node_repr Da_node_j ;;
  node_k_repr <~ gather node_repr Da_node_k ;;
  node_l_repr <~ gather node_repr Da_node_l ;;
  node_ijk_repr <~ concat [node_i_repr; node_j_repr; node_k_repr] 1 ;;
  node_jkl_repr <~ concat [node_j_repr; node_k_repr; node_l_repr] 1 ;;
  mlp1 <~ attr "Dar_mlp1" (Dar_mlp1 self) ;;
  node_ijk_repr <~ mlp1 node_ijk_repr ;;
  mlp1 <~ attr "Dar_mlp1" (Dar_mlp1 self) ;;
  node_jkl_repr <~ mlp1 node_jkl_repr ;;
  mlp2 <~ attr "Dar_mlp2" (Dar_mlp2 self) ;;
  both <~ concat [node_ijk_repr; node_jkl_repr] 1 ;;
  pred <~ mlp2 both ;;
  Dar_dist_id <~ angle_dist_id Da_bond_angle (attr "Dar_vocab" (Dar_vocab self)) ;;
  loss_fn <~ attr "Dar_loss" (Dar_loss self) ;;
  loss <~ loss_fn pred Dar_dist_id ;;
  node_i_repr_extra <~ gather node_repr Da_node_i_extra ;;
  node_j_repr_extra <~ gather node_repr Da_node_j_extra ;;
  node_k_repr_extra <~ gather node_repr Da_node_k_extra ;;
  node_l_repr_extra <~ gather node_repr Da_node_l_extra ;;
  node_ijk_repr_extra <~
    concat [node_i_repr_extra; node_j_repr_extra; node_k_repr_extra] 1 ;;
  node_kjl_repr_extra <~
    concat [node_k_repr_extra; node_j_repr_extra; node_l_repr_extra] 1 ;;
  mlp1 <~ attr "Dar_mlp1" (Dar_mlp1 self) ;;
  node_ijk_repr_extra <~ mlp1 node_ijk_repr_extra ;;
  mlp1 <~ attr "Dar_mlp1" (Dar_mlp1 self) ;;
  node_kjl_repr_extra <~ mlp1 node_kjl_repr_extra ;;
  mlp2 <~ attr "Dar_mlp2" (Dar_mlp2 self) ;;
  both_extra <~ concat [node_ijk_repr_extra; node_kjl_repr_extra] 1 ;;
  pred_extra <~ mlp2 both_extra ;;
  Dar_dist_id_extra <~ angle_dist_id Da_bond_angle_extra (attr "Dar_vocab" (Dar_vocab self)) ;;
  loss_fn_extra <~ attr "Dar_loss_extra" (Dar_loss_extra self) ;;
  loss_extra <~ loss_fn_extra pred_extra Dar_dist_id_extra ;;
  tell (EvLoss "Dar" node_repr (loss + loss_extra)) ;;;
  ret (loss + loss_extra).

Definition _get_Blr_loss (self : GeoPredModel)
    (Bl_node_i Bl_node_j Bl_bond_length node_repr : Tensor) : M R :=
  node_i_repr <~ gather node_repr Bl_node_i ;;
  node_j_repr <~ gather node_repr Bl_node_j ;;
  node_ij_repr <~ concat [node_i_repr; node_j_repr] 1 ;;
  mlp <~ attr "Blr_mlp" (Blr_mlp self) ;;
  pred <~ mlp node_ij_repr ;;
  loss_fn <~ attr "Blr_loss" (Blr_loss self) ;;
  loss <~ loss_fn pred Bl_bond_length ;;
  tell (EvLoss "Blr" node_repr loss) ;;;
  ret loss.

Definition _get_Adc_loss (self : GeoPredModel)
    (Ad_node_i Ad_node_j Ad_atom_dist node_repr : Tensor) : M R :=
  node_i_repr <~ gather node_repr Ad_node_i ;;
  node_j_repr <~ gather node_repr Ad_node_j ;;
  node_ij_repr <~ concat [node_i_repr; node_j_repr] 1 ;;
  mlp <~ attr "Adc_mlp" (Adc_mlp self) ;;
  logits <~ mlp node_ij_repr ;;
  loss_fn <~ attr "Adc_loss" (Adc_loss self) ;;
  loss <~ loss_fn logits Ad_atom_dist ;;
  tell (EvLoss "Adc" node_repr loss) ;;;
  ret loss.

Definition _get_Cl_loss (self : GeoPredModel) (x1 x2 mols : Tensor) (rms : option Tensor)
    : M R :=
  loss <~ WeightedNTXentLoss_func x1 x2 mols rms ;;
  tell (EvCl x1 x2 mols rms loss) ;;;
  ret loss.

(** *** forward *)

(** The twelve tensors the four encoder passes leave in scope. *)
Record Reprs : Type := mkReprs {
  node_repr : Tensor;  edge_repr : Tensor;  graph_repr : Tensor;
  node_repr_conf_cl_1 : Tensor;  edge_repr_conf_cl_1 : Tensor;
  graph_repr_conf_cl_1 : Tensor;
  masked_node_repr : Tensor;  masked_edge_repr : Tensor;  masked_graph_repr : Tensor;
  masked_node_repr_conf_cl_1 : Tensor;  masked_edge_repr_conf_cl_1 : Tensor;
  masked_graph_repr_conf_cl_1 : Tensor
}.

(** One call [self.compound_encoder.forward(graph_dict[a], graph_dict[b], graph_dict[c])]. *)
Definition encode (self : GeoPredModel) (graph_dict : dict Graph) (a b c : string)
    : M (Tensor * Tensor * Tensor) :=
  ga <~ dict_get graph_dict a ;;
  gb <~ dict_get graph_dict b ;;
  gc <~ dict_get graph_dict c ;;
  out <~ GeoGNNModel_forward (compound_encoder self) ga gb gc ;;
  tell (EvEncoder ga gb gc) ;;;
  ret out.

(** Lines 319-333: the four encoder passes. *)
Definition forward_encode (self : GeoPredModel) (graph_dict : dict Graph) : M Reprs :=
  '(node_repr, edge_repr, graph_repr) <-
     encode self graph_dict "atom_bond_graph" "bond_angle_graph" "dihes_angle_graph" ;;
  '(node_repr_conf_cl_1, edge_repr_conf_cl_1, graph_repr_conf_cl_1) <-
     encode self graph_dict "atom_bond_graph_conf_cl_1" "bond_angle_graph_conf_cl_1"
       "dihes_angle_graph_conf_cl_1" ;;
  '(masked_node_repr, masked_edge_repr, masked_graph_repr) <-
     encode self graph_dict "masked_atom_bond_graph" "masked_bond_angle_graph"
       "masked_dihes_angle_graph" ;;
  '(masked_node_repr_conf_cl_1, masked_edge_repr_conf_cl_1, masked_graph_repr_conf_cl_1) <-
     encode self graph_dict "masked_atom_bond_graph_conf_cl_1"
       "masked_bond_angle_graph_conf_cl_1" "masked_dihes_angle_graph_conf_cl_1" ;;
  ret {| node_repr := node_repr;  edge_repr := edge_repr;  graph_repr := graph_repr;
         node_repr_conf_cl_1 := node_repr_conf_cl_1;
         edge_repr_conf_cl_1 := edge_repr_conf_cl_1;
         graph_repr_conf_cl_1 := graph_repr_conf_cl_1;
         masked_node_repr := masked_node_repr;
         masked_edge_repr := masked_edge_repr;
         masked_graph_repr := masked_graph_repr;
         masked_node_repr_conf_cl_1 := masked_node_repr_conf_cl_1;
         masked_edge_repr_conf_cl_1 := masked_edge_repr_conf_cl_1;
         masked_graph_repr_conf_cl_1 := masked_graph_repr_conf_cl_1 |}.

(** The right-hand sides of the task blocks: the [feed_dict] lookups in
    argument order, then the call. [sfx] is [""] or ["_conf_cl_1"]. *)
Definition call_Cm (self : GeoPredModel) (feed_dict : dict Tensor) (sfx : string)
    (repr : Tensor) : M R :=
  a <~ dict_get feed_dict ("Cm_node_i" ++ sfx) ;;
  b <~ dict_get feed_dict ("Cm_context_id" ++ sfx) ;;
  _get_Cm_loss self a b repr.

Definition call_Bar (self : GeoPredModel) (feed_dict : dict Tensor) (sfx : string)
    (repr : Tensor) : M R :=
  i <~ dict_get feed_dict ("Ba_node_i" ++ sfx) ;;
  j <~ dict_get feed_dict ("Ba_node_j" ++ sfx) ;;
  k <~ dict_get feed_dict ("Ba_node_k" ++ sfx) ;;
  angle <~ dict_get feed_dict ("Ba_bond_angle" ++ sfx) ;;
  _get_Bar_loss self i j k angle repr.

Definition call_Dar (self : GeoPredModel) (feed_dict : dict Tensor) (sfx : string)
    (repr : Tensor) : M R :=
  i <~ dict_get feed_dict ("Da_node_i" ++ sfx) ;;
  j <~ dict_get feed_dict ("Da_node_j" ++ sfx) ;;
  k <~ dict_get feed_dict ("Da_node_k" ++ sfx) ;;
  l <~ dict_get feed_dict ("Da_node_l" ++ sfx) ;;
  angle <~ dict_get feed_dict ("Da_bond_angle" ++ sfx) ;;
  i_extra <~ dict_get feed_dict ("Da_node_i_extra" ++ sfx) ;;
  j_extra <~ dict_get feed_dict ("Da_node_j_extra" ++ sfx) ;;
  k_extra <~ dict_get feed_dict ("Da_node_k_extra" ++ sfx) ;;
  l_extra <~ dict_get feed_dict ("Da_node_l_extra" ++ sfx) ;;
  angle_extra <~ dict_get feed_dict ("Da_bond_angle_extra" ++ sfx) ;;
  _get_Dar_loss self i j k l angle i_extra j_extra k_extra l_extra angle_extra repr.

Definition call_Blr (self : GeoPredModel) (feed_dict : dict Tensor) (sfx : string)
    (repr : Tensor) : M R :=
  i <~ dict_get feed_dict ("Bl_node_i" ++ sfx) ;;
  j <~ dict_get feed_dict ("Bl_node_j" ++ sfx) ;;
  len <~ dict_get feed_dict ("Bl_bond_length" ++ sfx) ;;
  _get_Blr_loss self i j len repr.

Definition call_Adc (self : GeoPredModel) (feed_dict : dict Tensor) (sfx : string)
    (repr : Tensor) : M R :=
  i <~ dict_get feed_dict ("Ad_node_i" ++ sfx) ;;
  j <~ dict_get feed_dict ("Ad_node_j" ++ sfx) ;;
  dist <~ dict_get feed_dict ("Ad_atom_dist" ++ sfx) ;;
  _get_Adc_loss self i j dist repr.

Definition call_Cl (self : GeoPredModel) (feed_dict : dict Tensor)
    (unmasked masked : Tensor) : M R :=
  x1 <~ normalize unmasked 1 ;;
  x2 <~ normalize masked 1 ;;
  fp_score <~ dict_get feed_dict "fp_score" ;;
  rms <~ dict_get feed_dict "rms" ;;
  _get_Cl_loss self x1 x2 fp_score (Some rms).

(** The seven [if tag in self.pretrain_tasks:] blocks, lines 336-429. *)
Definition forward_Cm (self : GeoPredModel) (feed_dict : dict Tensor) (rp : Reprs)
    (sub_losses : dict R) : M (dict R) :=
  sub_losses <- set_item sub_losses "Cm_loss"
                  (call_Cm self feed_dict "" (node_repr rp)) ;;
  sub_losses <- iadd_item sub_losses "Cm_loss"
                  (call_Cm self feed_dict "" (masked_node_repr rp)) ;;
  sub_losses <- iadd_item sub_losses "Cm_loss"
                  (call_Cm self feed_dict "_conf_cl_1" (node_repr_conf_cl_1 rp)) ;;
  iadd_item sub_losses "Cm_loss"
    (call_Cm self feed_dict "_conf_cl_1" (masked_node_repr_conf_cl_1 rp)).

Definition forward_Fg (self : GeoPredModel) (feed_dict : dict Tensor) (rp : Reprs)
    (sub_losses : dict R) : M (dict R) :=
  sub_losses <- set_item sub_losses "Fg_loss"
                  (_get_Fg_loss self feed_dict (graph_repr rp)) ;;
  sub_losses <- iadd_item sub_losses "Fg_loss"
                  (_get_Fg_loss self feed_dict (masked_graph_repr rp)) ;;
  sub_losses <- iadd_item sub_losses "Fg_loss"
                  (_get_Fg_loss self feed_dict (graph_repr_conf_cl_1 rp)) ;;
  iadd_item sub_losses "Fg_loss"
    (_get_Fg_loss self feed_dict (masked_graph_repr_conf_cl_1 rp)).

Definition forward_Bar (self : GeoPredModel) (feed_dict : dict Tensor) (rp : Reprs)
    (sub_losses : dict R) : M (dict R) :=
  sub_losses <- set_item sub_losses "Bar_loss"
                  (call_Bar self feed_dict "" (node_repr rp)) ;;
  sub_losses <- iadd_item sub_losses "Bar_loss"
                  (call_Bar self feed_dict "" (masked_node_repr rp)) ;;
  sub_losses <- iadd_item sub_losses "Bar_loss"
                  (call_Bar self feed_dict "_conf_cl_1" (node_repr_conf_cl_1 rp)) ;;
  iadd_item sub_losses "Bar_loss"
    (call_Bar self feed_dict "_conf_cl_1" (masked_node_repr_conf_cl_1 rp)).

Definition forward_Dar (self : GeoPredModel) (feed_dict : dict Tensor) (rp : Reprs)
    (sub_losses : dict R) : M (dict R) :=
  sub_losses <- set_item sub_losses "Dar_loss"
                  (call_Dar self feed_dict "" (node_repr rp)) ;;
  sub_losses <- iadd_item sub_losses "Dar_loss"
                  (call_Dar self feed_dict "" (masked_node_repr rp)) ;;
  sub_losses <- iadd_item sub_losses "Dar_loss"
                  (call_Dar self feed_dict "_conf_cl_1" (node_repr_conf_cl_1 rp)) ;;
  iadd_item sub_losses "Dar_loss"
    (call_Dar self feed_dict "_conf_cl_1" (masked_node_repr_conf_cl_1 rp)).

Definition forward_Blr (self : GeoPredModel) (feed_dict : dict Tensor) (rp : Reprs)
    (sub_losses : dict R) : M (dict R) :=
  sub_losses <- set_item sub_losses "Blr_loss"
                  (call_Blr self feed_dict "" (node_repr rp)) ;;
  sub_losses <- iadd_item sub_losses "Blr_loss"
                  (call_Blr self feed_dict "" (masked_node_repr rp)) ;;
  sub_losses <- iadd_item sub_losses "Blr_loss"
                  (call_Blr self feed_dict "_conf_cl_1" (node_repr_conf_cl_1 rp)) ;;
  iadd_item sub_losses "Blr_loss"
    (call_Blr self feed_dict "_conf_cl_1" (masked_node_repr_conf_cl_1 rp)).

Definition forward_Adc (self : GeoPredModel) (feed_dict : dict Tensor) (rp : Reprs)
    (sub_losses : dict R) : M (dict R) :=
  sub_losses <- set_item sub_losses "Adc_loss"
                  (call_Adc self feed_dict "" (node_repr rp)) ;;
  sub_losses <- iadd_item sub_losses "Adc_loss"
                  (call_Adc self feed_dict "" (masked_node_repr rp)) ;;
  sub_losses <- iadd_item sub_losses "Adc_loss"
                  (call_Adc self feed_dict "_conf_cl_1" (node_repr_conf_cl_1 rp)) ;;
  iadd_item sub_losses "Adc_loss"
    (call_Adc self feed_dict "_conf_cl_1" (masked_node_repr_conf_cl_1 rp)).

Definition forward_Cl (self : GeoPredModel) (feed_dict : dict Tensor) (rp : Reprs)
    (sub_losses : dict R) : M (dict R) :=
  sub_losses <- set_item sub_losses "Cl_loss"
                  (call_Cl self feed_dict (graph_repr_conf_cl_1 rp) (masked_graph_repr rp)) ;;
  iadd_item sub_losses "Cl_loss"
    (call_Cl self feed_dict (graph_repr rp) (masked_graph_repr_conf_cl_1 rp)).

(** [if tag in self.pretrain_tasks: block] *)
Definition when_task (self : GeoPredModel) (tag : string)
    (block : dict R -> M (dict R)) (sub_losses : dict R) : M (dict R) :=
  if py_in tag (pretrain_tasks self) then block sub_losses else ret sub_losses.

(** Lines 319-429: the encoder passes and the dict of sub-losses. *)
Definition forward_sub_losses (self : GeoPredModel) (graph_dict : dict Graph)
    (feed_dict : dict Tensor) : M (dict R) :=
  rp <- forward_encode self graph_dict ;;
  let sub_losses : dict R := [] in
  sub_losses <- when_task self "Cm" (forward_Cm self feed_dict rp) sub_losses ;;
  sub_losses <- when_task self "Fg" (forward_Fg self feed_dict rp) sub_losses ;;
  sub_losses <- when_task self "Bar" (forward_Bar self feed_dict rp) sub_losses ;;
  sub_losses <- when_task self "Dar" (forward_Dar self feed_dict rp) sub_losses ;;
  sub_losses <- when_task self "Blr" (forward_Blr self feed_dict rp) sub_losses ;;
  sub_losses <- when_task self "Adc" (forward_Adc self feed_dict rp) sub_losses ;;
  sub_losses <- when_task self "Cl" (forward_Cl self feed_dict rp) sub_losses ;;
  ret sub_losses.

(** Lines 432-438: [for name in sub_losses], with [loss] and [cnt] threaded. *)
Fixpoint forward_weighting (self : GeoPredModel) (sub_losses : dict R)
    (names : list string) (loss : R) (cnt : nat) : M R :=
  match names with
  | [] => ret loss
  | name :: rest =>
      c <~ list_get (coefs self) cnt "coefs" ;;
      let precision := exp (- c * 2) / 2 in
      sub_loss <~ dict_get sub_losses name ;;
      c' <~ list_get (coefs self) cnt "coefs" ;;
      tell (EvCoef name cnt) ;;;
      forward_weighting self sub_losses rest
        (loss + (precision * sub_loss + ln (exp c' + 1))) (cnt + 1)
  end.

Inductive ForwardOut : Type :=
| OutLoss (loss : R)
| OutFull (loss : R) (sub_losses : dict R) (coefs : list R).

Definition out_loss (o : ForwardOut) : R :=
  match o with OutLoss l => l | OutFull l _ _ => l end.

(** [GeoPredModel.forward]; the parameter [dwa] is never read. *)
Definition GeoPredModel_forward (self : GeoPredModel) (graph_dict : dict Graph)
    (feed_dict : dict Tensor) (return_subloss : bool) : M ForwardOut :=
  sub_losses <- forward_sub_losses self graph_dict feed_dict ;;
  loss <- forward_weighting self sub_losses (dict_keys sub_losses) 0 0 ;;
  if return_subloss then ret (OutFull loss sub_losses (coefs self))
  else ret (OutLoss loss).

End Head.

(** ** Reading the trace *)

Definition encoder_calls (w : list Event) : list (Graph * Graph * Graph) :=
  flat_map (fun ev => match ev with EvEncoder a b c => [(a, b, c)] | _ => [] end) w.


Definition cl_calls (w : list Event) : list (Tensor * Tensor * R) :=
  flat_map (fun ev => match ev with EvCl x1 x2 _ _ v => [(x1, x2, v)] | _ => [] end) w.

Definition coef_uses (w : list Event) : list (string * nat) :=
  flat_map (fun ev => match ev with EvCoef n i => [(n, i)] | _ => [] end) w.

(** Value and trace of a computation that returned. *)
Definition value_of (m : M R) : R :=
  match m with Ok (v, _) => v | Err _ => 0 end.
Definition trace_of {A} (m : M A) : list Event :=
  match m with Ok (_, w) => w | Err _ => [] end.

(** ** The tasks, in the order [forward] visits them *)

Inductive Task : Type := T_Cm | T_Fg | T_Bar | T_Dar | T_Blr | T_Adc | T_Cl.

Definition all_tasks : list Task := [T_Cm; T_Fg; T_Bar; T_Dar; T_Blr; T_Adc; T_Cl].

Definition tag_of (t : Task) : string :=
  match t with
  | T_Cm => "Cm" | T_Fg => "Fg" | T_Bar => "Bar" | T_Dar => "Dar"
  | T_Blr => "Blr" | T_Adc => "Adc" | T_Cl => "Cl"
  end.

Definition loss_name (t : Task) : string :=
  match t with
  | T_Cm => "Cm_loss" | T_Fg => "Fg_loss" | T_Bar => "Bar_loss" | T_Dar => "Dar_loss"
  | T_Blr => "Blr_loss" | T_Adc => "Adc_loss" | T_Cl => "Cl_loss"
  end.

Definition active (pretrain_tasks : list string) (t : Task) : bool :=
  py_in (tag_of t) pretrain_tasks.

(** Keys of [sub_losses] after the seven blocks. *)
Definition active_names (pretrain_tasks : list string) : list string :=
  map loss_name (filter (active pretrain_tasks) all_tasks).

Definition Task_eqb (t t' : Task) : bool := String.eqb (tag_of t) (tag_of t').

(** The tasks [forward] visits before and after [t]. *)
Fixpoint tasks_before (t : Task) (ts : list Task) : list Task :=
  match ts with
  | [] => []
  | t' :: rest => if Task_eqb t t' then [] else t' :: tasks_before t rest
  end.

Fixpoint tasks_after (t : Task) (ts : list Task) : list Task :=
  match ts with
  | [] => []
  | t' :: rest => if Task_eqb t t' then rest else tasks_after t rest
  end.

(** Position of a task among the active ones: the number of active tasks
    that [forward] visits before it. *)
Definition task_index (pretrain_tasks : list string) (t : Task) : nat :=
  List.length (filter (active pretrain_tasks) (tasks_before t all_tasks)).

(** The task list with the tag of [t] removed. *)
Definition without (t : Task) (pretrain_tasks : list string) : list string :=
  filter (fun tag => negb (String.eqb tag (tag_of t))) pretrain_tasks.

(** The contribution the specification gives a task with coefficient [c]. *)
Definition weighted_term (c sub_loss : R) : R :=
  exp (-2 * c) / 2 * sub_loss + ln (exp c + 1).

(** Sum of the contributions of [subs], the first one weighted by [coefs[i]]. *)
Fixpoint weighted_sum (i : nat) (coefs : list R) (subs : dict R) : R :=
  match subs with
  | [] => 0
  | (_, s) :: rest => weighted_term (nth i coefs 0) s + weighted_sum (S i) coefs rest
  end.

(** The contribution of the task [t]: its sub-loss weighted by the
    coefficient at its position among the active tasks. *)
Definition task_term (coefs : list R) (tasks : list string) (sub_losses : dict R)
    (t : Task) : R :=
  weighted_term (nth (task_index tasks t) coefs 0)
    (match dict_find sub_losses (loss_name t) with Some v => v | None => 0 end).

(** The contributions of the active tasks, in the order of [all_tasks]. *)
Definition positional_sum (coefs : list R) (tasks : list string)
    (sub_losses : dict R) : R :=
  fold_right Rplus 0
    (map (task_term coefs tasks sub_losses) (filter (active tasks) all_tasks)).

Fixpoint coef_events (i : nat) (names : list string) : list (string * nat) :=
  match names with
  | [] => []
  | n :: rest => (n, i) :: coef_events (S i) rest
  end.

Section HeadSpec.
Context {fw : Framework}.

(** The model with another task list and otherwise the same parameters. *)
Definition with_tasks (self : GeoPredModel) (tasks : list string) : GeoPredModel :=
  {| compound_encoder := compound_encoder self;
     hidden_size := hidden_size self;
     dropout_rate := dropout_rate self;
     act := act self;
     pretrain_tasks := tasks;
     coefs := coefs self;
     Cm_vocab := Cm_vocab self;  Cm_linear := Cm_linear self;  Cm_loss := Cm_loss self;
     Fg_linear := Fg_linear self;  Fg_loss := Fg_loss self;
     Bar_vocab := Bar_vocab self;  Bar_mlp_1 := Bar_mlp_1 self;
     Bar_mlp_2 := Bar_mlp_2 self;  Bar_loss := Bar_loss self;
     Dar_vocab := Dar_vocab self;  Dar_mlp1 := Dar_mlp1 self;  Dar_loss := Dar_loss self;
     Dar_mlp2 := Dar_mlp2 self;  Dar_loss_extra := Dar_loss_extra self;
     Blr_vocab := Blr_vocab self;  Blr_mlp := Blr_mlp self;  Blr_loss := Blr_loss self;
     Adc_vocab := Adc_vocab self;  Adc_mlp := Adc_mlp self;  Adc_loss := Adc_loss self;
     Cl_vocab := Cl_vocab self;  Cl_linear := Cl_linear self;  Cl_loss := Cl_loss self |}.

(** The model with other [Cl_vocab], [Cl_linear] and [Cl_loss] attributes. *)
Definition with_Cl_head (self : GeoPredModel) (vocab : option Z) (linear : option Layer)
    (loss : option LossFn) : GeoPredModel :=
  {| compound_encoder := compound_encoder self;
     hidden_size := hidden_size self;
     dropout_rate := dropout_rate self;
     act := act self;
     pretrain_tasks := pretrain_tasks self;
     coefs := coefs self;
     Cm_vocab := Cm_vocab self;  Cm_linear := Cm_linear self;  Cm_loss := Cm_loss self;
     Fg_linear := Fg_linear self;  Fg_loss := Fg_loss self;
     Bar_vocab := Bar_vocab self;  Bar_mlp_1 := Bar_mlp_1 self;
     Bar_mlp_2 := Bar_mlp_2 self;  Bar_loss := Bar_loss self;
     Dar_vocab := Dar_vocab self;  Dar_mlp1 := Dar_mlp1 self;  Dar_loss := Dar_loss self;
     Dar_mlp2 := Dar_mlp2 self;  Dar_loss_extra := Dar_loss_extra self;
     Blr_vocab := Blr_vocab self;  Blr_mlp := Blr_mlp self;  Blr_loss := Blr_loss self;
     Adc_vocab := Adc_vocab self;  Adc_mlp := Adc_mlp self;  Adc_loss := Adc_loss self;
     Cl_vocab := vocab;  Cl_linear := linear;  Cl_loss := loss |}.

(** The representation a task's loss reads from one encoder pass: the graph
    representation for [Fg], the node representation otherwise. *)
Definition task_repr (t : Task) (node graph : Tensor) : Tensor :=
  match t with T_Fg => graph | _ => node end.

(** The value a non-contrastive block accumulates: the loss against the
    canonical, masked, augmented and masked augmented representation, the
    last two with the [_conf_cl_1] feed keys. *)
Definition four_pass (call : string -> Tensor -> M R)
    (canonical masked augmented masked_augmented : Tensor) : M R :=
  v1 <- call "" canonical ;;
  v2 <- call "" masked ;;
  v3 <- call "_conf_cl_1" augmented ;;
  v4 <- call "_conf_cl_1" masked_augmented ;;
  ret (v1 + v2 + v3 + v4).

Definition on_nodes {A} (rp : Reprs) (k : Tensor -> Tensor -> Tensor -> Tensor -> A) : A :=
  k (node_repr rp) (masked_node_repr rp) (node_repr_conf_cl_1 rp)
    (masked_node_repr_conf_cl_1 rp).

Definition on_graphs {A} (rp : Reprs) (k : Tensor -> Tensor -> Tensor -> Tensor -> A) : A :=
  k (graph_repr rp) (masked_graph_repr rp) (graph_repr_conf_cl_1 rp)
    (masked_graph_repr_conf_cl_1 rp).

(** What a block adds under its key. *)
Definition block_value (self : GeoPredModel) (feed_dict : dict Tensor) (rp : Reprs)
    (t : Task) : M R :=
  match t with
  | T_Cm => on_nodes rp (four_pass (call_Cm self feed_dict))
  | T_Fg => on_graphs rp (four_pass (fun _ => _get_Fg_loss self feed_dict))
  | T_Bar => on_nodes rp (four_pass (call_Bar self feed_dict))
  | T_Dar => on_nodes rp (four_pass (call_Dar self feed_dict))
  | T_Blr => on_nodes rp (four_pass (call_Blr self feed_dict))
  | T_Adc => on_nodes rp (four_pass (call_Adc self feed_dict))
  | T_Cl =>
      v1 <- call_Cl self feed_dict (graph_repr_conf_cl_1 rp) (masked_graph_repr rp) ;;
      v2 <- call_Cl self feed_dict (graph_repr rp) (masked_graph_repr_conf_cl_1 rp) ;;
      ret (v1 + v2)
  end.

Definition block_of (self : GeoPredModel) (feed_dict : dict Tensor) (rp : Reprs)
    (t : Task) : dict R -> M (dict R) :=
  match t with
  | T_Cm => forward_Cm self feed_dict rp
  | T_Fg => forward_Fg self feed_dict rp
  | T_Bar => forward_Bar self feed_dict rp
  | T_Dar => forward_Dar self feed_dict rp
  | T_Blr => forward_Blr self feed_dict rp
  | T_Adc => forward_Adc self feed_dict rp
  | T_Cl => forward_Cl self feed_dict rp
  end.

(** The entries and the trace the blocks leave, read off the block values. *)
Definition entries_of (tasks : list string) (val : Task -> M R) (ts : list Task) : dict R :=
  flat_map (fun t => if active tasks t then [(loss_name t, value_of (val t))] else []) ts.

Definition blocks_trace (tasks : list string) (val : Task -> M R) (ts : list Task)
    : list Event :=
  flat_map (fun t => if active tasks t then trace_of (val t) else []) ts.

(** The seven guarded blocks as one loop over [all_tasks]. *)
Fixpoint run_blocks (tasks : list string) (val : Task -> M R) (ts : list Task)
    (d : dict R) : M (dict R) :=
  match ts with
  | [] => ret d
  | t :: rest =>
      d' <- (if active tasks t
             then v <- val t ;; ret (dict_set d (loss_name t) v)
             else ret d) ;;
      run_blocks tasks val rest d'
  end.

(** One encoder pass as [forward] makes it: the graphs under the keys [a],
    [b], [c] are the arguments [call], the result is [(n, e, g)]. *)
Definition encoded (self : GeoPredModel) (graph_dict : dict Graph) (a b c : string)
    (n e g : Tensor) (call : Graph * Graph * Graph) : Prop :=
  exists ga gb gc,
    dict_get graph_dict a = Ok ga /\ dict_get graph_dict b = Ok gb /\
    dict_get graph_dict c = Ok gc /\
    GeoGNNModel_forward (compound_encoder self) ga gb gc = Ok (n, e, g) /\
    call = (ga, gb, gc).

(** The four passes that produce [rp], in call order. *)
Definition four_encodings (self : GeoPredModel) (graph_dict : dict Graph) (rp : Reprs)
    (calls : list (Graph * Graph * Graph)) : Prop :=
  exists c1 c2 c3 c4,
    calls = [c1; c2; c3; c4] /\
    encoded self graph_dict "atom_bond_graph" "bond_angle_graph" "dihes_angle_graph"
      (node_repr rp) (edge_repr rp) (graph_repr rp) c1 /\
    encoded self graph_dict "atom_bond_graph_conf_cl_1" "bond_angle_graph_conf_cl_1"
      "dihes_angle_graph_conf_cl_1"
      (node_repr_conf_cl_1 rp) (edge_repr_conf_cl_1 rp) (graph_repr_conf_cl_1 rp) c2 /\
    encoded self graph_dict "masked_atom_bond_graph" "masked_bond_angle_graph"
      "masked_dihes_angle_graph"
      (masked_node_repr rp) (masked_edge_repr rp) (masked_graph_repr rp) c3 /\
    encoded self graph_dict "masked_atom_bond_graph_conf_cl_1"
      "masked_bond_angle_graph_conf_cl_1" "masked_dihes_angle_graph_conf_cl_1"
      (masked_node_repr_conf_cl_1 rp) (masked_edge_repr_conf_cl_1 rp)
      (masked_graph_repr_conf_cl_1 rp) c4.

(** The four representations a task's loss is computed against, in call
    order: canonical, canonical masked, augmented, augmented masked. *)
Definition four_reprs (t : Task) (rp : Reprs) : list Tensor :=
  [task_repr t (node_repr rp) (graph_repr rp);
   task_repr t (masked_node_repr rp) (masked_graph_repr rp);
   task_repr t (node_repr_conf_cl_1 rp) (graph_repr_conf_cl_1 rp);
   task_repr t (masked_node_repr_conf_cl_1 rp) (masked_graph_repr_conf_cl_1 rp)].

(** The trace of encoder passes with arguments [calls]. *)
Definition encoder_events (calls : list (Graph * Graph * Graph)) : list Event :=
  map (fun c => match c with (ga, gb, gc) => EvEncoder ga gb gc end) calls.

(** The trace of the weighting loop over [names], counting from [i]. *)
Fixpoint coef_trace (i : nat) (names : list string) : list Event :=
  match names with
  | [] => []
  | n :: rest => EvCoef n i :: coef_trace (S i) rest
  end.

(** The sum as the loop accumulates it, from the left. *)
Fixpoint weighting_acc (coefs : list R) (subs : dict R) (loss : R) (i : nat) : R :=
  match subs with
  | [] => loss
  | (_, s) :: rest =>
      weighting_acc coefs rest
        (loss + (exp (- nth i coefs 0 * 2) / 2 * s + ln (exp (nth i coefs 0) + 1))) (S i)
  end.

End HeadSpec.

(** ** A small framework on which the model runs

    Layers are the identity, an embedding returns the data of the first
    feature it is given at width [embed_dim], a loss is the sum of its first
    argument, and the contrastive loss weighs its two arguments differently.
    Arithmetic with a scalar is exact and the cast to [int64] drops the
    fraction. *)

Module Demo.

Definition tsum (t : Tensor) : R := fold_right Rplus 0 (t_data t).

Fixpoint zip_add (xs ys : list R) : list R :=
  match xs, ys with
  | x :: xs', y :: ys' => (x + y) :: zip_add xs' ys'
  | _, _ => xs
  end.

Definition embedding (names : list string) (dim : Z) : FeatLayer :=
  fun feat =>
    Ok (mkTensor float32 [1%Z; dim]
          (match feat with (_, t) :: _ => t_data t | [] => [] end)).

Definition tmap (d : dtype) (f : R -> R) (t : Tensor) : Tensor :=
  mkTensor d (t_shape t) (map f (t_data t)).

Definition framework : Framework := {|
  gather := fun x _ => Ok x;
  concat := fun xs _ => Ok (mkTensor float32 [1%Z] (flat_map t_data xs));
  normalize := fun x _ => Ok x;
  tadd := fun x y => Ok (mkTensor (t_dtype x) (t_shape x) (zip_add (t_data x) (t_data y)));
  scalar_div := fun t c => Ok (tmap (t_dtype t) (fun x => x / c) t);
  scalar_mul := fun t c => Ok (tmap (t_dtype t) (fun x => x * c) t);
  cast := fun t d =>
    Ok (match d with
        | int64 => tmap int64 (fun x => IZR (Rtrunc x)) t
        | float32 => tmap float32 (fun x => x) t
        end);
  LayerNorm := fun dim x =>
    if (width x =? dim)%Z then Ok x else Err (FrameworkError "layer_norm");
  ReLU := fun x => Ok x;
  Dropout := fun _ x => Ok x;
  CrossEntropyLoss := fun x _ => Ok (tsum x);
  BCEWithLogitsLoss := fun x _ => Ok (tsum x);
  SmoothL1Loss := fun x _ => Ok (tsum x);
  GraphPool := fun _ _ x => Ok x;
  MLP := fun _ _ _ _ _ _ x => Ok x;
  GIN := fun _ _ n e => Ok (n, e);
  GraphNorm := fun _ x => Ok x;
  MeanPool := fun _ x => Ok x;
  AtomEmbedding := embedding;
  BondEmbedding := embedding;
  BondFloatRBF := embedding;
  BondAngleFloatRBF := embedding;
  WeightedNTXentLoss_func := fun x1 x2 _ _ => Ok (2 * tsum x1 + tsum x2)
|}.

Definition vec (x : R) : Tensor := mkTensor float32 [1%Z] [x].

(** A one-atom graph whose features all hold [x]. *)
Definition graph (x : R) : Graph := mkGraph 1 [] [("f", vec x)] [("f", vec x)].

Definition graph_keys : list string :=
  ["atom_bond_graph"; "bond_angle_graph"; "dihes_angle_graph";
   "atom_bond_graph_conf_cl_1"; "bond_angle_graph_conf_cl_1";
   "dihes_angle_graph_conf_cl_1";
   "masked_atom_bond_graph"; "masked_bond_angle_graph"; "masked_dihes_angle_graph";
   "masked_atom_bond_graph_conf_cl_1"; "masked_bond_angle_graph_conf_cl_1";
   "masked_dihes_angle_graph_conf_cl_1"].

(** Canonical, augmented, masked and masked augmented graphs hold [a], [b],
    [c] and [d]. *)
Definition graph_dict (a b c d : R) : dict Graph :=
  combine graph_keys
    (map graph [a; a; a; b; b; b; c; c; c; d; d; d]).

Definition feed_keys : list string :=
  ["Cm_node_i"; "Cm_context_id"; "Fg_morgan"; "Fg_daylight"; "Fg_maccs";
   "Ba_node_i"; "Ba_node_j"; "Ba_node_k"; "Ba_bond_angle";
   "Da_node_i"; "Da_node_j"; "Da_node_k"; "Da_node_l"; "Da_bond_angle";
   "Da_node_i_extra"; "Da_node_j_extra"; "Da_node_k_extra"; "Da_node_l_extra";
   "Da_bond_angle_extra";
   "Bl_node_i"; "Bl_node_j"; "Bl_bond_length";
   "Ad_node_i"; "Ad_node_j"; "Ad_atom_dist"].

Definition feed_dict : dict Tensor :=
  map (fun k => (k, vec 0)) feed_keys
  ++ map (fun k => ((k ++ "_conf_cl_1")%string, vec 0)) feed_keys
  ++ [("fp_score", vec 0); ("rms", vec 0)].

Definition encoder_config (layers : Z) : dict Value :=
  [("embed_dim", VInt 2); ("layer_num", VInt layers);
   ("atom_names", VList ["f"]); ("bond_names", VList ["f"]);
   ("bond_float_names", VList ["f"]); ("bond_angle_float_names", VList ["f"])].

(** The encoder [GeoGNNModel(encoder_config layers)] on [framework]. *)
Definition encoder (layers : Z) : GeoGNNModel :=
  let fw := framework in
  let block (i : nat) :=
    GeoGNNBlock_init 2 (2 / 10) (negb (Z.of_nat i =? layers - 1)%Z) in
  {| embed_dim := 2;
     enc_dropout_rate := 2 / 10;
     layer_num := layers;
     readout := "mean";
     atom_names := ["f"];  bond_names := ["f"];  bond_float_names := ["f"];
     bond_angle_float_names := ["f"];  dihes_bond_float_names := ["dihes_angle"];
     init_atom_embedding := embedding ["f"] 2;
     init_bond_embedding := embedding ["f"] 2;
     init_bond_float_rbf := embedding ["f"] 2;
     init_super_edge_embedding := embedding ["f"] 2;
     bond_embedding_list := map (fun _ => embedding ["f"] 2) (range layers);
     bond_float_rbf_list := map (fun _ => embedding ["f"] 2) (range layers);
     bond_angle_float_rbf_list := map (fun _ => embedding ["f"] 2) (range layers);
     dihes_angle_float_rbf_list :=
       map (fun _ => embedding ["dihes_angle"] 2) (range layers);
     atom_bond_block_list := map block (range layers);
     bond_angle_block_list := map block (range layers);
     dihes_angle_list := map block (range layers);
     graph_pool := MeanPool |}.

(** A head over [encoder 0] with every task's attributes set. *)
Definition model (tasks : list string) (coefficients : list R) : GeoPredModel :=
  let fw := framework in
  let mlp : Layer := fun x => Ok x in
  {| compound_encoder := encoder 0;
     hidden_size := 4;  dropout_rate := 0;  act := "relu";
     pretrain_tasks := tasks;
     coefs := coefficients;
     Cm_vocab := Some 3%Z;  Cm_linear := Some mlp;  Cm_loss := Some CrossEntropyLoss;
     Fg_linear := mlp;  Fg_loss := BCEWithLogitsLoss;
     Bar_vocab := Some 4%Z;  Bar_mlp_1 := Some mlp;  Bar_mlp_2 := Some mlp;
     Bar_loss := Some CrossEntropyLoss;
     Dar_vocab := Some 4%Z;  Dar_mlp1 := Some mlp;  Dar_loss := Some CrossEntropyLoss;
     Dar_mlp2 := Some mlp;  Dar_loss_extra := Some CrossEntropyLoss;
     Blr_vocab := Some 1%Z;  Blr_mlp := Some mlp;  Blr_loss := Some SmoothL1Loss;
     Adc_vocab := Some 1%Z;  Adc_mlp := Some mlp;  Adc_loss := Some SmoothL1Loss;
     Cl_vocab := Some 1%Z;  Cl_linear := Some mlp;  Cl_loss := Some SmoothL1Loss |}.

(** A configuration that activates only [Cm] and has no ["Fg_size"]. *)
Definition config_without_Fg_size : dict Value :=
  [("hidden_size", VInt 4); ("dropout_rate", VFloat 0); ("act", VStr "relu");
   ("pretrain_tasks", VList ["Cm"]); ("Cm_vocab", VInt 3)].

(** A configuration that activates only [Cl]. *)
Definition config_Cl : dict Value :=
  [("hidden_size", VInt 4); ("dropout_rate", VFloat 0); ("act", VStr "relu");
   ("pretrain_tasks", VList ["Cl"]); ("Fg_size", VInt 5); ("Cl_vocab", VInt 7)].

End Demo.

(** ** Statements checked against the model *)

Section Statements.
Context {fw : Framework}.

(** The contrastive sub-loss read as one pair of normalised representations,
    augmented unmasked and canonical masked, passed to the loss in both
    orders. *)
Definition Cl_one_pair_both_orders (self : GeoPredModel) (graph_dict : dict Graph)
    (feed_dict : dict Tensor) : Prop :=
  forall out w,
    GeoPredModel_forward self graph_dict feed_dict true = Ok (out, w) ->
    active (pretrain_tasks self) T_Cl = true ->
    exists rp x1 x2 v1 v2,
      four_encodings self graph_dict rp (encoder_calls w) /\
      normalize (graph_repr_conf_cl_1 rp) 1 = Ok x1 /\
      normalize (masked_graph_repr rp) 1 = Ok x2 /\
      cl_calls w = [(x1, x2, v1); (x2, x1, v2)].

(** Removing the task [t] read as subtracting its weighted term from the
    total loss, every other term staying as it was. *)
Definition removal_subtracts_term (self : GeoPredModel) (graph_dict : dict Graph)
    (feed_dict : dict Tensor) (t : Task) : Prop :=
  forall loss sub_losses w loss' sub_losses' w' sub_loss,
    active (pretrain_tasks self) t = true ->
    GeoPredModel_forward self graph_dict feed_dict true
      = Ok (OutFull loss sub_losses (coefs self), w) ->
    GeoPredModel_forward (with_tasks self (without t (pretrain_tasks self)))
      graph_dict feed_dict true
      = Ok (OutFull loss' sub_losses' (coefs self), w') ->
    dict_get sub_losses (loss_name t) = Ok sub_loss ->
    loss' = loss - weighted_term (nth (task_index (pretrain_tasks self) t) (coefs self) 0)
                     sub_loss.

End Statements.

(** ** Shape contracts of the layers the encoder composes

    Modelled from the spec: the layer classes of [networks.compound_encoder]
    and [networks.gnn_block] ([AtomEmbedding], [BondEmbedding],
    [BondFloatRBF], [BondAngleFloatRBF], [GraphNorm], [MeanPool]) are not
    part of this source file. The design gives every hidden state the fixed
    width [embed_dim]: an embedding built for [embed_dim] returns that width,
    graph normalisation and pooling keep the width. For the tensor
    framework's own layers: addition of two tensors of one width keeps it,
    [LayerNorm(d)] accepts width [d] only and keeps the shape, activation
    and dropout keep the shape. Nothing is asked of [GIN]. *)

Definition keeps_width (l : Layer) : Prop :=
  forall x y, l x = Ok y -> width y = width x.

Definition graph_keeps_width (l : GraphLayer) : Prop :=
  forall g x y, l g x = Ok y -> width y = width x.

Definition norm_of_width (d : Z) (l : Layer) : Prop :=
  forall x y, l x = Ok y -> width x = d /\ width y = d.

Definition embeds_to (d : Z) (l : FeatLayer) : Prop :=
  forall f y, l f = Ok y -> width y = d.

Definition add_keeps_width (fw : Framework) : Prop :=
  forall x y z, tadd x y = Ok z -> width x = width y -> width z = width x.

Record framework_shapes (fw : Framework) : Prop := {
  shape_tadd : add_keeps_width fw;
  shape_LayerNorm : forall d, norm_of_width d (LayerNorm d);
  shape_ReLU : keeps_width ReLU;
  shape_Dropout : forall p, keeps_width (Dropout p);
  shape_GraphNorm : graph_keeps_width GraphNorm;
  shape_MeanPool : graph_keeps_width MeanPool;
  shape_GraphPool : forall kind, graph_keeps_width (GraphPool kind);
  shape_AtomEmbedding : forall names d, embeds_to d (AtomEmbedding names d);
  shape_BondEmbedding : forall names d, embeds_to d (BondEmbedding names d);
  shape_BondFloatRBF : forall names d, embeds_to d (BondFloatRBF names d);
  shape_BondAngleFloatRBF : forall names d, embeds_to d (BondAngleFloatRBF names d)
}.

(** A block whose layers are of the classes [GeoGNNBlock(d, ...)] builds. *)
Record block_shapes (d : Z) (blk : GeoGNNBlock) : Prop := {
  shape_blk_norm : norm_of_width d (blk_norm blk);
  shape_blk_graph_norm : graph_keeps_width (blk_graph_norm blk);
  shape_blk_act : forall a, blk_act blk = Some a -> keeps_width a;
  shape_blk_dropout : keeps_width (blk_dropout blk)
}.

(** An encoder whose layers are of the classes its constructor builds for
    [embed_dim], at whatever parameters training has left them. *)
Record encoder_shapes (self : GeoGNNModel) : Prop := {
  shape_init_atom : embeds_to (embed_dim self) (init_atom_embedding self);
  shape_init_bond : embeds_to (embed_dim self) (init_bond_embedding self);
  shape_init_rbf : embeds_to (embed_dim self) (init_bond_float_rbf self);
  shape_init_super : embeds_to (embed_dim self) (init_super_edge_embedding self);
  shape_bond_list : Forall (embeds_to (embed_dim self)) (bond_embedding_list self);
  shape_rbf_list : Forall (embeds_to (embed_dim self)) (bond_float_rbf_list self);
  shape_angle_list :
    Forall (embeds_to (embed_dim self)) (bond_angle_float_rbf_list self);
  shape_dihes_list :
    Forall (embeds_to (embed_dim self)) (dihes_angle_float_rbf_list self);
  shape_atom_blocks : Forall (block_shapes (embed_dim self)) (atom_bond_block_list self);
  shape_angle_blocks : Forall (block_shapes (embed_dim self)) (bond_angle_block_list self);
  shape_dihes_blocks : Forall (block_shapes (embed_dim self)) (dihes_angle_list self);
  shape_pool : graph_keeps_width (graph_pool self)
}.

(** The hidden-state lists hold tensors of width [d] only. *)
Definition lists_of_width (d : Z) (st : HiddenLists) : Prop :=
  Forall (fun t => width t = d) (node_hidden_list st) /\
  Forall (fun t => width t = d) (edge_hidden_list st) /\
  Forall (fun t => width t = d) (super_edge_hidden_list st).

(** ** Arithmetic contract of the framework's [float32] operations

    The tensor framework is not part of this source file, and a tensor holds
    the real values of its elements. The framework computes [t / c] and
    [t * c] in [float32], by a rounded division or by a multiplication with
    the rounded reciprocal: either way each element of the result is within
    the relative error [2^-22] of the exact value, or within [2^-126] of it
    where the result is subnormal (rounded, or flushed to zero), as long as
    the scalar and the exact value stay below [2^127] in magnitude. The cast
    to [int64] drops the fraction of an element below [2^63] in magnitude.
    Nothing is asked where the [float32] value overflows or the integer does
    not fit 64 bits. *)

Definition f32_u : R := / 2 ^ 22.
Definition f32_eta : R := / 2 ^ 126.
Definition f32_big : R := 2 ^ 127.
Definition int64_bound : R := 2 ^ 63.

(** [y] is a [float32] result whose exact value is [exact]. *)
Definition f32_near (exact y : R) : Prop :=
  Rabs exact <= f32_big -> Rabs (y - exact) <= f32_u * Rabs exact + f32_eta.

Record float32_ops (fw : Framework) : Prop := {
  div_rounds : forall t c t',
    / f32_big <= Rabs c <= f32_big -> scalar_div t c = Ok t' ->
    Forall2 (fun x y => f32_near (x / c) y) (t_data t) (t_data t');
  mul_rounds : forall t c t',
    Rabs c <= f32_big -> scalar_mul t c = Ok t' ->
    Forall2 (fun x y => f32_near (x * c) y) (t_data t) (t_data t');
  cast_truncates : forall t t',
    cast t int64 = Ok t' ->
    Forall2 (fun x y => Rabs x < int64_bound -> y = IZR (Rtrunc x))
      (t_data t) (t_data t')
}.

(** The distance from [a / np.pi * vocab] within which the [float32]
    product lies. *)
Definition label_slack (a : R) (vocab : Z) : R :=
  3 * f32_u * Rabs (a / np_pi * IZR vocab)
  + f32_eta * (2 * Rabs (IZR vocab) + 1).

(** The angles whose quotient and product stay away from the [float32] and
    [int64] limits. *)
Definition label_in_range (a : R) (vocab : Z) : Prop :=
  Rabs (a / np_pi) <= f32_big /\ Rabs (a / np_pi * IZR vocab) <= 2 ^ 62.

(** The label [l] of the angle [a]: the truncation of a [float32] product
    [y] that lies within [label_slack] of [a / np.pi * vocab]. *)
Definition label_of (a : R) (vocab : Z) (l : R) : Prop :=
  exists y,
    Rabs (y - a / np_pi * IZR vocab) <= label_slack a vocab /\
    l = IZR (Rtrunc y).

(** The [float32] nearest to pi, which a [float32] tensor holds for an
    angle of 180 degrees. *)
Definition f32_pi : R := 13176795 / 4194304.

Section NumericStatements.
Context {fw : Framework}.


End NumericStatements.

(** ** Where an exception can come from *)

(** [r] returns, or raises an exception of the kind [P]. *)
Definition raises_only {A} (P : exn -> Prop) (r : result A) : Prop :=
  match r with Ok _ => True | Err e => P e end.

Definition layer_raises (P : exn -> Prop) (l : Layer) : Prop :=
  forall x, raises_only P (l x).
Definition feat_layer_raises (P : exn -> Prop) (l : FeatLayer) : Prop :=
  forall f, raises_only P (l f).
Definition graph_layer_raises (P : exn -> Prop) (l : GraphLayer) : Prop :=
  forall g x, raises_only P (l g x).
Definition loss_raises (P : exn -> Prop) (l : LossFn) : Prop :=
  forall x y, raises_only P (l x y).

(** Every call into the framework returns or raises an exception in [P]. *)
Record framework_raises (P : exn -> Prop) (fw : Framework) : Prop := {
  raises_gather : forall x i, raises_only P (gather x i);
  raises_concat : forall xs axis, raises_only P (concat xs axis);
  raises_normalize : forall x axis, raises_only P (normalize x axis);
  raises_tadd : forall x y, raises_only P (tadd x y);
  raises_scalar_div : forall t c, raises_only P (scalar_div t c);
  raises_scalar_mul : forall t c, raises_only P (scalar_mul t c);
  raises_cast : forall t d, raises_only P (cast t d);
  raises_LayerNorm : forall d, layer_raises P (LayerNorm d);
  raises_ReLU : layer_raises P ReLU;
  raises_Dropout : forall p, layer_raises P (Dropout p);
  raises_CrossEntropyLoss : loss_raises P CrossEntropyLoss;
  raises_BCEWithLogitsLoss : loss_raises P BCEWithLogitsLoss;
  raises_SmoothL1Loss : loss_raises P SmoothL1Loss;
  raises_GraphPool : forall kind, graph_layer_raises P (GraphPool kind);
  raises_MLP : forall n h a i o p, layer_raises P (MLP n h a i o p);
  raises_GIN : forall d g n e, raises_only P (GIN d g n e);
  raises_GraphNorm : graph_layer_raises P GraphNorm;
  raises_MeanPool : graph_layer_raises P MeanPool;
  raises_AtomEmbedding : forall names d, feat_layer_raises P (AtomEmbedding names d);
  raises_BondEmbedding : forall names d, feat_layer_raises P (BondEmbedding names d);
  raises_BondFloatRBF : forall names d, feat_layer_raises P (BondFloatRBF names d);
  raises_BondAngleFloatRBF :
    forall names d, feat_layer_raises P (BondAngleFloatRBF names d);
  raises_WeightedNTXentLoss_func :
    forall x1 x2 mols rms, raises_only P (WeightedNTXentLoss_func x1 x2 mols rms)
}.

(** A block as [GeoGNNBlock.__init__] leaves it: [act] is set when
    [last_act] is, and its layers raise in [P] only. *)
Record block_built (P : exn -> Prop) (blk : GeoGNNBlock) : Prop := {
  built_gnn : forall g n e, raises_only P (blk_gnn blk g n e);
  built_norm : layer_raises P (blk_norm blk);
  built_graph_norm : graph_layer_raises P (blk_graph_norm blk);
  built_act :
    blk_last_act blk = true -> exists a, blk_act blk = Some a /\ layer_raises P a;
  built_dropout : layer_raises P (blk_dropout blk)
}.

(** An encoder as [GeoGNNModel.__init__] leaves it, at any parameters: each
    [LayerList] has one entry per layer. *)
Record encoder_built (P : exn -> Prop) (self : GeoGNNModel) : Prop := {
  built_len_bond : List.length (bond_embedding_list self) = Z.to_nat (layer_num self);
  built_len_rbf : List.length (bond_float_rbf_list self) = Z.to_nat (layer_num self);
  built_len_angle :
    List.length (bond_angle_float_rbf_list self) = Z.to_nat (layer_num self);
  built_len_dihes :
    List.length (dihes_angle_float_rbf_list self) = Z.to_nat (layer_num self);
  built_len_ab : List.length (atom_bond_block_list self) = Z.to_nat (layer_num self);
  built_len_ba : List.length (bond_angle_block_list self) = Z.to_nat (layer_num self);
  built_len_da : List.length (dihes_angle_list self) = Z.to_nat (layer_num self);
  built_init_atom : feat_layer_raises P (init_atom_embedding self);
  built_init_bond : feat_layer_raises P (init_bond_embedding self);
  built_init_rbf : feat_layer_raises P (init_bond_float_rbf self);
  built_init_super : feat_layer_raises P (init_super_edge_embedding self);
  built_bond : Forall (feat_layer_raises P) (bond_embedding_list self);
  built_rbf : Forall (feat_layer_raises P) (bond_float_rbf_list self);
  built_angle : Forall (feat_layer_raises P) (bond_angle_float_rbf_list self);
  built_dihes : Forall (feat_layer_raises P) (dihes_angle_float_rbf_list self);
  built_ab : Forall (block_built P) (atom_bond_block_list self);
  built_ba : Forall (block_built P) (bond_angle_block_list self);
  built_da : Forall (block_built P) (dihes_angle_list self);
  built_pool : graph_layer_raises P (graph_pool self)
}.

(** The three hidden-state lists have [n] entries each. *)
Definition lists_of_length (n : nat) (st : HiddenLists) : Prop :=
  List.length (node_hidden_list st) = n /\
  List.length (edge_hidden_list st) = n /\
  List.length (super_edge_hidden_list st) = n.

(** Exceptions other than the ones the model's own list indexing and
    attribute reads would raise. *)
Definition not_own_error (e : exn) : Prop :=
  match e with
  | IndexError _ | AttributeError _ => False
  | _ => True
  end.

(** An attribute that is set, to a layer or loss raising in [P] only. *)
Definition has_layer (P : exn -> Prop) (o : option Layer) : Prop :=
  exists l, o = Some l /\ layer_raises P l.
Definition has_loss (P : exn -> Prop) (o : option LossFn) : Prop :=
  exists l, o = Some l /\ loss_raises P l.
Definition has_vocab (o : option Z) : Prop := exists v, o = Some v.

(** A head as [GeoPredModel.__init__] leaves it, at any parameters: eight
    coefficients, and the attributes of every active task set. *)
Record head_built (P : exn -> Prop) (self : GeoPredModel) : Prop := {
  hb_encoder : encoder_built P (compound_encoder self);
  hb_coefs : List.length (coefs self) = 8%nat;
  hb_Fg_linear : layer_raises P (Fg_linear self);
  hb_Fg_loss : loss_raises P (Fg_loss self);
  hb_Cm : py_in "Cm" (pretrain_tasks self) = true ->
          has_layer P (Cm_linear self) /\ has_loss P (Cm_loss self);
  hb_Bar : py_in "Bar" (pretrain_tasks self) = true ->
           has_layer P (Bar_mlp_1 self) /\ has_layer P (Bar_mlp_2 self) /\
           has_vocab (Bar_vocab self) /\ has_loss P (Bar_loss self);
  hb_Dar : py_in "Dar" (pretrain_tasks self) = true ->
           has_layer P (Dar_mlp1 self) /\ has_layer P (Dar_mlp2 self) /\
           has_vocab (Dar_vocab self) /\ has_loss P (Dar_loss self) /\
           has_loss P (Dar_loss_extra self);
  hb_Blr : py_in "Blr" (pretrain_tasks self) = true ->
           has_layer P (Blr_mlp self) /\ has_loss P (Blr_loss self);
  hb_Adc : py_in "Adc" (pretrain_tasks self) = true ->
           has_layer P (Adc_mlp self) /\ has_loss P (Adc_loss self)
}.

(** What the constructor sets for a guarded task: its vocabulary size from
    the configuration and its attributes when the tag is active, nothing
    otherwise. *)
Definition guarded {A} (tasks : list string) (tag key : string)
    (model_config : dict Value) (vocab : option Z) (attrs : A)
    (built : Z -> A) (unset : A) : Prop :=
  if py_in tag tasks
  then exists v, cfg_int model_config key = Ok v /\ vocab = Some v /\ attrs = built v
  else vocab = None /\ attrs = unset.

(** ** The keys [GeoPredModel.forward] reads *)

(** [k in d] *)
Definition dict_has {V} (d : dict V) (k : string) : bool :=
  match dict_find d k with Some _ => true | None => false end.

(** The keys read from [graph_dict], in reading order. *)
Definition forward_graph_keys : list string :=
  ["atom_bond_graph"; "bond_angle_graph"; "dihes_angle_graph";
   "atom_bond_graph_conf_cl_1"; "bond_angle_graph_conf_cl_1";
   "dihes_angle_graph_conf_cl_1";
   "masked_atom_bond_graph"; "masked_bond_angle_graph"; "masked_dihes_angle_graph";
   "masked_atom_bond_graph_conf_cl_1"; "masked_bond_angle_graph_conf_cl_1";
   "masked_dihes_angle_graph_conf_cl_1"].

(** The keys one call of a task's loss reads from [feed_dict]. *)
Definition pass_keys (t : Task) : list string :=
  match t with
  | T_Cm => ["Cm_node_i"; "Cm_context_id"]
  | T_Fg => ["Fg_morgan"; "Fg_daylight"; "Fg_maccs"]
  | T_Bar => ["Ba_node_i"; "Ba_node_j"; "Ba_node_k"; "Ba_bond_angle"]
  | T_Dar => ["Da_node_i"; "Da_node_j"; "Da_node_k"; "Da_node_l"; "Da_bond_angle";
              "Da_node_i_extra"; "Da_node_j_extra"; "Da_node_k_extra";
              "Da_node_l_extra"; "Da_bond_angle_extra"]
  | T_Blr => ["Bl_node_i"; "Bl_node_j"; "Bl_bond_length"]
  | T_Adc => ["Ad_node_i"; "Ad_node_j"; "Ad_atom_dist"]
  | T_Cl => ["fp_score"; "rms"]
  end.

(** The keys a task's block reads from [feed_dict]: [Fg] and [Cl] read the
    same keys at every call, the other tasks read them with the suffix
    [_conf_cl_1] too, for the augmented conformer. *)
Definition task_feed_keys (t : Task) : list string :=
  match t with
  | T_Fg | T_Cl => pass_keys t
  | _ => pass_keys t ++ map (fun k => (k ++ "_conf_cl_1")%string) (pass_keys t)
  end.

(** The two dicts agree on a key. *)
Definition same_at {V} (d d' : dict V) (k : string) : Prop :=
  dict_find d k = dict_find d' k.

(** An exception that [forward] may raise for a missing key: only for a key
    it reads, and that the dict does not hold. *)
Definition graph_keys_raise (P : exn -> Prop) (graph_dict : dict Graph) : Prop :=
  forall k, In k forward_graph_keys -> dict_has graph_dict k = false -> P (KeyError k).

Definition feed_keys_raise (P : exn -> Prop) (tasks : list string)
    (feed_dict : dict Tensor) : Prop :=
  forall t k, active tasks t = true -> In k (task_feed_keys t) ->
              dict_has feed_dict k = false -> P (KeyError k).

(** The suffix of the feed keys of a pass: none, or that of the augmented
    conformer. *)
Definition pass_suffix (sfx : string) : Prop := sfx = "" \/ sfx = "_conf_cl_1".

(** [r] raises. *)
Definition fails {A} (r : result A) : Prop :=
  match r with Ok _ => False | Err _ => True end.

(** The sum of the values of a dict of sub-losses. *)
Definition sub_total (subs : dict R) : R :=
  fold_right (fun kv acc => snd kv + acc) 0 subs.

(** * Properties *)

(** ** Dictionaries *)

Lemma dict_find_set_same {V} (d : dict V) k v :
  dict_find (dict_set d k v) k = Some v.
Proof.
  induction d as [|[k' v'] d IH]; simpl.
  - now rewrite String.eqb_refl.
  - destruct (String.eqb k k') eqn:E; simpl; rewrite E; auto.
Qed.

Lemma dict_get_set_same {V} (d : dict V) k v :
  dict_get (dict_set d k v) k = Ok v.
Proof. unfold dict_get. now rewrite dict_find_set_same. Qed.

Lemma dict_set_set {V} (d : dict V) k v v' :
  dict_set (dict_set d k v) k v' = dict_set d k v'.
Proof.
  induction d as [|[k' x] d IH]; simpl.
  - now rewrite String.eqb_refl.
  - destruct (String.eqb k k') eqn:E; simpl; rewrite E; congruence.
Qed.

Lemma dict_find_fresh {V} (d : dict V) k :
  ~ In k (dict_keys d) -> dict_find d k = None.
Proof.
  induction d as [|[k' x] d IH]; simpl; intros H; auto.
  destruct (String.eqb_spec k k') as [->|]; [tauto|]. apply IH. tauto.
Qed.

Lemma dict_set_fresh {V} (d : dict V) k v :
  ~ In k (dict_keys d) -> dict_set d k v = d ++ [(k, v)].
Proof.
  induction d as [|[k' x] d IH]; simpl; intros H; auto.
  destruct (String.eqb_spec k k') as [->|]; [tauto|]. f_equal. apply IH. tauto.
Qed.

Lemma dict_keys_app {V} (d1 d2 : dict V) :
  dict_keys (d1 ++ d2) = dict_keys d1 ++ dict_keys d2.
Proof. apply map_app. Qed.

Lemma dict_find_app {V} (d1 d2 : dict V) k :
  dict_find (d1 ++ d2) k =
  match dict_find d1 k with Some v => Some v | None => dict_find d2 k end.
Proof.
  induction d1 as [|[k' x] d1 IH]; simpl; auto.
  destruct (String.eqb k k'); auto.
Qed.

(** ** The monads *)

Lemma result_bind_ok {A B} (m : result A) (f : A -> result B) b :
  (x <- m ;; f x) = Ok b -> exists a, m = Ok a /\ f a = Ok b.
Proof. destruct m as [a|e]; simpl; [eauto | discriminate]. Qed.

Lemma M_bind_ok {A B} (m : M A) (f : A -> M B) b w :
  (x <- m ;; f x) = Ok (b, w) ->
  exists a w1 w2, m = Ok (a, w1) /\ f a = Ok (b, w2) /\ w = w1 ++ w2.
Proof.
  destruct m as [[a w1]|e]; simpl; [|discriminate].
  destruct (f a) as [[b' w2]|e] eqn:E; [|discriminate].
  intros H; injection H as <- <-. eauto 6.
Qed.

Lemma lift_ok {A} (r : result A) a w :
  lift r = Ok (a, w) -> r = Ok a /\ w = [].
Proof. destruct r; simpl; [|discriminate]. intros H; injection H as <- <-; auto. Qed.

Lemma M_bind_lift {A B} (r : result A) (f : A -> M B) :
  (x <~ r ;; f x) = match r with Ok a => f a | Err e => Err e end.
Proof.
  destruct r as [a|e]; simpl; auto. destruct (f a) as [[b w]|]; auto.
Qed.

Lemma M_bind_ret {A} (m : M A) : (x <- m ;; ret x) = m.
Proof. destruct m as [[a w]|e]; simpl; auto. now rewrite app_nil_r. Qed.

Lemma M_bind_assoc {A B C} (m : M A) (f : A -> M B) (g : B -> M C) :
  (y <- (x <- m ;; f x) ;; g y) = (x <- m ;; y <- f x ;; g y).
Proof.
  destruct m as [[a w]|e]; simpl; auto.
  destruct (f a) as [[b w1]|e]; simpl; auto.
  destruct (g b) as [[c w2]|e]; simpl; auto.
  now rewrite app_assoc.
Qed.

Lemma M_bind_ret_l {A B} (a : A) (f : A -> M B) : (x <- ret a ;; f x) = f a.
Proof. simpl. destruct (f a) as [[b w]|e]; auto. Qed.

(** ** The accumulation pattern of a block *)

Lemma iadd_item_set d k v0 (rhs : M R) :
  iadd_item (dict_set d k v0) k rhs = (v <- rhs ;; ret (dict_set d k (v0 + v))).
Proof.
  unfold iadd_item. rewrite M_bind_lift, dict_get_set_same.
  destruct rhs as [[v w]|e]; simpl; auto. now rewrite dict_set_set.
Qed.

Lemma accumulate4 d k (r1 r2 r3 r4 : M R) :
  (d1 <- set_item d k r1 ;; d2 <- iadd_item d1 k r2 ;;
   d3 <- iadd_item d2 k r3 ;; iadd_item d3 k r4)
  = (v <- (v1 <- r1 ;; v2 <- r2 ;; v3 <- r3 ;; v4 <- r4 ;; ret (v1 + v2 + v3 + v4)) ;;
     ret (dict_set d k v)).
Proof.
  unfold set_item.
  destruct r1 as [[v1 w1]|e]; [|reflexivity]. cbn -[iadd_item]. rewrite iadd_item_set.
  destruct r2 as [[v2 w2]|e]; [|reflexivity]. cbn -[iadd_item]. rewrite iadd_item_set.
  destruct r3 as [[v3 w3]|e]; [|reflexivity]. cbn -[iadd_item]. rewrite iadd_item_set.
  destruct r4 as [[v4 w4]|e]; [|reflexivity]. cbn.
  now rewrite !app_nil_r.
Qed.

Lemma accumulate2 d k (r1 r2 : M R) :
  (d1 <- set_item d k r1 ;; iadd_item d1 k r2)
  = (v <- (v1 <- r1 ;; v2 <- r2 ;; ret (v1 + v2)) ;; ret (dict_set d k v)).
Proof.
  unfold set_item.
  destruct r1 as [[v1 w1]|e]; [|reflexivity]. cbn -[iadd_item]. rewrite iadd_item_set.
  destruct r2 as [[v2 w2]|e]; [|reflexivity]. cbn.
  now rewrite !app_nil_r.
Qed.

(** ** Filters of the trace *)

Lemma flat_map_if {A B} (f : A -> list B) (b : bool) (w : list A) :
  flat_map f (if b then w else []) = if b then flat_map f w else [].
Proof. now destruct b. Qed.

Section Blocks.
Context {fw : Framework}.
Variable tasks : list string.
Variable val : Task -> M R.

Lemma blocks_trace_silent {B} (f : Event -> list B) ts :
  (forall t, In t ts -> flat_map f (trace_of (val t)) = []) ->
  flat_map f (blocks_trace tasks val ts) = [].
Proof.
  unfold blocks_trace. induction ts as [|t ts IH]; simpl; intros H; auto.
  rewrite flat_map_app, flat_map_if, H, IH by auto. now destruct (active tasks t).
Qed.

Lemma blocks_trace_only {B} (f : Event -> list B) ts t :
  NoDup ts -> In t ts -> active tasks t = true ->
  (forall t', In t' ts -> t' <> t -> flat_map f (trace_of (val t')) = []) ->
  flat_map f (blocks_trace tasks val ts) = flat_map f (trace_of (val t)).
Proof.
  induction ts as [|t0 ts IH]; simpl; intros ND Hin Hact Hsil; [tauto|].
  inversion ND as [|? ? Hnot ND']; subst.
  unfold blocks_trace in *. simpl. rewrite flat_map_app, flat_map_if.
  destruct Hin as [->|Hin].
  - rewrite Hact.
    fold (blocks_trace tasks val ts).
    rewrite blocks_trace_silent, app_nil_r; auto.
    intros t' Ht'. apply Hsil; auto. intros ->. contradiction.
  - rewrite Hsil; auto.
    + rewrite IH; auto. now destruct (active tasks t0).
    + intros ->. contradiction.
Qed.

(** The loop either fails or leaves the entries and the trace of the
    active tasks' values. *)
Lemma run_blocks_ok ts : forall d d' w,
  NoDup (map loss_name ts) ->
  (forall t, In t ts -> ~ In (loss_name t) (dict_keys d)) ->
  run_blocks tasks val ts d = Ok (d', w) ->
  d' = d ++ entries_of tasks val ts /\ w = blocks_trace tasks val ts /\
  (forall t, In t ts -> active tasks t = true -> exists v wt, val t = Ok (v, wt)).
Proof.
  induction ts as [|t ts IH]; intros d d' w ND Hfresh H.
  - simpl in H. injection H as <- <-. rewrite app_nil_r. repeat split; auto.
    intros t [].
  - simpl in ND. inversion ND as [|? ? Hnot ND']; subst.
    cbn [run_blocks] in H. apply M_bind_ok in H as (d1 & w1 & w2 & H1 & H2 & ->).
    unfold entries_of, blocks_trace. cbn [flat_map].
    fold (entries_of tasks val ts). fold (blocks_trace tasks val ts).
    destruct (active tasks t) eqn:Ea.
    + apply M_bind_ok in H1 as (v & wv & w0 & Hv & Hret & ->).
      cbn in Hret. injection Hret as <- <-.
      apply IH in H2 as (-> & -> & Hall); auto.
      * rewrite Hv. cbn [value_of trace_of].
        rewrite dict_set_fresh by (apply Hfresh; now left).
        rewrite <- app_assoc, app_nil_r. repeat split; auto.
        intros t' [<-|Hin] Ht'; eauto.
      * intros t' Hin. rewrite dict_set_fresh by (apply Hfresh; now left).
        rewrite dict_keys_app, in_app_iff. simpl.
        intros [Hk|[Hk|[]]].
        -- eapply Hfresh; [right; eassumption | assumption].
        -- apply Hnot. rewrite Hk. now apply in_map.
    + cbn in H1. injection H1 as <- <-.
      apply IH in H2 as (-> & -> & Hall); auto.
      * repeat split; auto. intros t' [<-|Hin] Ht'; [congruence | eauto].
      * intros t' Hin. apply Hfresh. now right.
Qed.

Lemma run_blocks_total ts : forall d,
  NoDup (map loss_name ts) ->
  (forall t, In t ts -> ~ In (loss_name t) (dict_keys d)) ->
  (forall t, In t ts -> active tasks t = true -> exists v wt, val t = Ok (v, wt)) ->
  run_blocks tasks val ts d
  = Ok (d ++ entries_of tasks val ts, blocks_trace tasks val ts).
Proof.
  induction ts as [|t ts IH]; intros d ND Hfresh Hall.
  - simpl. now rewrite app_nil_r.
  - simpl in ND. inversion ND as [|? ? Hnot ND']; subst.
    cbn [run_blocks]. unfold entries_of, blocks_trace. cbn [flat_map].
    fold (entries_of tasks val ts). fold (blocks_trace tasks val ts).
    destruct (active tasks t) eqn:Ea.
    + destruct (Hall t (or_introl eq_refl) Ea) as (v & wv & Hv). rewrite Hv.
      cbn -[run_blocks]. rewrite IH; auto.
      * rewrite dict_set_fresh by (apply Hfresh; now left).
        now rewrite <- app_assoc, app_nil_r.
      * intros t' Hin. rewrite dict_set_fresh by (apply Hfresh; now left).
        rewrite dict_keys_app, in_app_iff. simpl.
        intros [Hk|[Hk|[]]].
        -- eapply Hfresh; [right; eassumption | assumption].
        -- apply Hnot. rewrite Hk. now apply in_map.
      * intros t' Hin. apply Hall. now right.
    + cbn -[run_blocks]. rewrite IH; auto.
      * intros t' Hin. apply Hfresh. now right.
      * intros t' Hin. apply Hall. now right.
Qed.

End Blocks.

Lemma M_bind_ext {A B} (m : M A) (f g : A -> M B) :
  (forall a, f a = g a) -> (x <- m ;; f x) = (x <- m ;; g x).
Proof. intros H. destruct m as [[a w]|e]; simpl; auto. now rewrite H. Qed.

(** Peel the leading [x <~ r ;; ...] of a computation known to return. *)
Ltac peel H :=
  cbv zeta in H; rewrite M_bind_lift in H; cbv beta iota in H;
  try match type of H with
      | match ?r with Ok _ => _ | Err _ => _ end = _ =>
          let E := fresh "E" in destruct r eqn:E; [|discriminate H]
      end.

Ltac finish_call H :=
  cbn in H; injection H as <- <-; reflexivity.

Section HeadProofs.
Context {fw : Framework}.
Variable self : GeoPredModel.
Variable feed_dict : dict Tensor.

(** *** Each loss call leaves one event: its representation and its value *)

Lemma call_Cm_trace sfx r v w :
  call_Cm self feed_dict sfx r = Ok (v, w) -> w = [EvLoss "Cm" r v].
Proof.
  unfold call_Cm, _get_Cm_loss. intros H. repeat peel H. finish_call H.
Qed.

Lemma call_Fg_trace r v w :
  _get_Fg_loss self feed_dict r = Ok (v, w) -> w = [EvLoss "Fg" r v].
Proof.
  unfold _get_Fg_loss. intros H. repeat peel H. finish_call H.
Qed.

Lemma call_Bar_trace sfx r v w :
  call_Bar self feed_dict sfx r = Ok (v, w) -> w = [EvLoss "Bar" r v].
Proof.
  unfold call_Bar, _get_Bar_loss. intros H. repeat peel H. finish_call H.
Qed.

Lemma call_Dar_trace sfx r v w :
  call_Dar self feed_dict sfx r = Ok (v, w) -> w = [EvLoss "Dar" r v].
Proof.
  unfold call_Dar, _get_Dar_loss. intros H. repeat peel H. finish_call H.
Qed.

Lemma call_Blr_trace sfx r v w :
  call_Blr self feed_dict sfx r = Ok (v, w) -> w = [EvLoss "Blr" r v].
Proof.
  unfold call_Blr, _get_Blr_loss. intros H. repeat peel H. finish_call H.
Qed.

Lemma call_Adc_trace sfx r v w :
  call_Adc self feed_dict sfx r = Ok (v, w) -> w = [EvLoss "Adc" r v].
Proof.
  unfold call_Adc, _get_Adc_loss. intros H. repeat peel H. finish_call H.
Qed.

(** The contrastive call normalises both arguments, reads [fp_score] and
    [rms], and returns the value of [WeightedNTXentLoss_func] on them. *)
Lemma call_Cl_inv unmasked masked v w :
  call_Cl self feed_dict unmasked masked = Ok (v, w) ->
  exists x1 x2 fp_score rms,
    normalize unmasked 1 = Ok x1 /\ normalize masked 1 = Ok x2 /\
    dict_get feed_dict "fp_score" = Ok fp_score /\ dict_get feed_dict "rms" = Ok rms /\
    WeightedNTXentLoss_func x1 x2 fp_score (Some rms) = Ok v /\
    w = [EvCl x1 x2 fp_score (Some rms) v].
Proof.
  unfold call_Cl, _get_Cl_loss. intros H. repeat peel H.
  cbn in H. injection H as <- <-. eauto 10.
Qed.

Lemma four_pass_inv tag (call : string -> Tensor -> M R) r1 r2 r3 r4 v w :
  (forall sfx r v w, call sfx r = Ok (v, w) -> w = [EvLoss tag r v]) ->
  four_pass call r1 r2 r3 r4 = Ok (v, w) ->
  exists v1 v2 v3 v4,
    v = v1 + v2 + v3 + v4 /\
    w = [EvLoss tag r1 v1; EvLoss tag r2 v2; EvLoss tag r3 v3; EvLoss tag r4 v4].
Proof.
  intros Hcall H. unfold four_pass in H.
  apply M_bind_ok in H as (v1 & w1 & ? & H1 & H & ->).
  apply M_bind_ok in H as (v2 & w2 & ? & H2 & H & ->).
  apply M_bind_ok in H as (v3 & w3 & ? & H3 & H & ->).
  apply M_bind_ok in H as (v4 & w4 & ? & H4 & H & ->).
  cbn in H. injection H as <- <-.
  apply Hcall in H1, H2, H3, H4. subst. exists v1, v2, v3, v4. split; reflexivity.
Qed.

Variable rp : Reprs.

(** A non-contrastive block: four loss events, on [four_reprs], summed. *)
Lemma block_value_inv t v w :
  t <> T_Cl ->
  block_value self feed_dict rp t = Ok (v, w) ->
  exists v1 v2 v3 v4,
    v = v1 + v2 + v3 + v4 /\
    w = map (fun rv => EvLoss (tag_of t) (fst rv) (snd rv))
          (combine (four_reprs t rp) [v1; v2; v3; v4]).
Proof.
  intros Ht H. destruct t; try congruence; cbn [block_value] in H;
    unfold on_nodes, on_graphs in H;
    (eapply four_pass_inv in H;
     [ destruct H as (v1 & v2 & v3 & v4 & -> & ->);
       exists v1, v2, v3, v4; split; reflexivity | ]).
  - intros; eapply call_Cm_trace; eauto.
  - intros; eapply call_Fg_trace; eauto.
  - intros; eapply call_Bar_trace; eauto.
  - intros; eapply call_Dar_trace; eauto.
  - intros; eapply call_Blr_trace; eauto.
  - intros; eapply call_Adc_trace; eauto.
Qed.

(** The contrastive block: two calls, on two pairs of representations. *)
Lemma block_value_Cl_inv v w :
  block_value self feed_dict rp T_Cl = Ok (v, w) ->
  exists x1 x2 y1 y2 fp_score rms v1 v2,
    normalize (graph_repr_conf_cl_1 rp) 1 = Ok x1 /\
    normalize (masked_graph_repr rp) 1 = Ok x2 /\
    normalize (graph_repr rp) 1 = Ok y1 /\
    normalize (masked_graph_repr_conf_cl_1 rp) 1 = Ok y2 /\
    dict_get feed_dict "fp_score" = Ok fp_score /\ dict_get feed_dict "rms" = Ok rms /\
    WeightedNTXentLoss_func x1 x2 fp_score (Some rms) = Ok v1 /\
    WeightedNTXentLoss_func y1 y2 fp_score (Some rms) = Ok v2 /\
    v = v1 + v2 /\
    w = [EvCl x1 x2 fp_score (Some rms) v1; EvCl y1 y2 fp_score (Some rms) v2].
Proof.
  cbn [block_value]. intros H.
  apply M_bind_ok in H as (v1 & w1 & ? & H1 & H & ->).
  apply M_bind_ok in H as (v2 & w2 & ? & H2 & H & ->).
  cbn in H. injection H as <- <-.
  apply call_Cl_inv in H1 as (x1 & x2 & fp & rms & N1 & N2 & F1 & F2 & W1 & ->).
  apply call_Cl_inv in H2 as (y1 & y2 & fp' & rms' & N3 & N4 & F3 & F4 & W2 & ->).
  assert (fp' = fp) by congruence. assert (rms' = rms) by congruence. subst.
  exists x1, x2, y1, y2, fp, rms, v1, v2. repeat split; auto.
Qed.

Lemma block_of_eq t d :
  block_of self feed_dict rp t d
  = (v <- block_value self feed_dict rp t ;; ret (dict_set d (loss_name t) v)).
Proof.
  destruct t; first [apply accumulate4 | apply accumulate2].
Qed.

Lemma when_task_eq t d :
  when_task self (tag_of t) (block_of self feed_dict rp t) d
  = (if active (pretrain_tasks self) t
     then v <- block_value self feed_dict rp t ;; ret (dict_set d (loss_name t) v)
     else ret d).
Proof.
  unfold when_task, active. destruct (py_in _ _); auto. apply block_of_eq.
Qed.

End HeadProofs.

Section ForwardProofs.
Context {fw : Framework}.
Variable self : GeoPredModel.
Variable graph_dict : dict Graph.
Variable feed_dict : dict Tensor.

Lemma encode_inv a b c n e g w :
  encode self graph_dict a b c = Ok ((n, e, g), w) ->
  exists call, encoded self graph_dict a b c n e g call /\ w = encoder_events [call].
Proof.
  unfold encode. intros H. repeat peel H. cbn in H. injection H as Hout <-.
  subst. eexists (_, _, _). split; [|reflexivity].
  unfold encoded. eauto 10.
Qed.

Lemma forward_encode_inv rp w :
  forward_encode self graph_dict = Ok (rp, w) ->
  exists calls, four_encodings self graph_dict rp calls /\ w = encoder_events calls.
Proof.
  unfold forward_encode. intros H.
  apply M_bind_ok in H as ([[n1 e1] g1] & w1 & ? & H1 & H & ->).
  apply M_bind_ok in H as ([[n2 e2] g2] & w2 & ? & H2 & H & ->).
  apply M_bind_ok in H as ([[n3 e3] g3] & w3 & ? & H3 & H & ->).
  apply M_bind_ok in H as ([[n4 e4] g4] & w4 & ? & H4 & H & ->).
  cbn in H. injection H as <- <-.
  apply encode_inv in H1 as (c1 & E1 & ->).
  apply encode_inv in H2 as (c2 & E2 & ->).
  apply encode_inv in H3 as (c3 & E3 & ->).
  apply encode_inv in H4 as (c4 & E4 & ->).
  exists [c1; c2; c3; c4]. split; [|reflexivity].
  exists c1, c2, c3, c4. cbn. auto 10.
Qed.

Lemma forward_blocks_eq rp :
  (let sub_losses : dict R := [] in
   sub_losses <- when_task self "Cm" (forward_Cm self feed_dict rp) sub_losses ;;
   sub_losses <- when_task self "Fg" (forward_Fg self feed_dict rp) sub_losses ;;
   sub_losses <- when_task self "Bar" (forward_Bar self feed_dict rp) sub_losses ;;
   sub_losses <- when_task self "Dar" (forward_Dar self feed_dict rp) sub_losses ;;
   sub_losses <- when_task self "Blr" (forward_Blr self feed_dict rp) sub_losses ;;
   sub_losses <- when_task self "Adc" (forward_Adc self feed_dict rp) sub_losses ;;
   sub_losses <- when_task self "Cl" (forward_Cl self feed_dict rp) sub_losses ;;
   ret sub_losses)
  = run_blocks (pretrain_tasks self) (block_value self feed_dict rp) all_tasks [].
Proof.
  cbv zeta. unfold all_tasks. cbn [run_blocks].
  etransitivity; [apply (f_equal (fun m => bind m _)); exact (when_task_eq self feed_dict rp T_Cm _)|]; apply M_bind_ext; intros d1.
  etransitivity; [apply (f_equal (fun m => bind m _)); exact (when_task_eq self feed_dict rp T_Fg _)|]; apply M_bind_ext; intros d2.
  etransitivity; [apply (f_equal (fun m => bind m _)); exact (when_task_eq self feed_dict rp T_Bar _)|]; apply M_bind_ext; intros d3.
  etransitivity; [apply (f_equal (fun m => bind m _)); exact (when_task_eq self feed_dict rp T_Dar _)|]; apply M_bind_ext; intros d4.
  etransitivity; [apply (f_equal (fun m => bind m _)); exact (when_task_eq self feed_dict rp T_Blr _)|]; apply M_bind_ext; intros d5.
  etransitivity; [apply (f_equal (fun m => bind m _)); exact (when_task_eq self feed_dict rp T_Adc _)|]; apply M_bind_ext; intros d6.
  etransitivity; [apply (f_equal (fun m => bind m _)); exact (when_task_eq self feed_dict rp T_Cl _)|]; apply M_bind_ext; intros d7.
  reflexivity.
Qed.

Lemma forward_sub_losses_eq :
  forward_sub_losses self graph_dict feed_dict
  = (rp <- forward_encode self graph_dict ;;
     run_blocks (pretrain_tasks self) (block_value self feed_dict rp) all_tasks []).
Proof.
  unfold forward_sub_losses. apply M_bind_ext; intros rp. apply forward_blocks_eq.
Qed.

End ForwardProofs.

(** ** The weighting loop *)

Lemma weighted_term_code c s :
  exp (- c * 2) / 2 * s + ln (exp c + 1) = weighted_term c s.
Proof. unfold weighted_term. replace (- c * 2) with (-2 * c) by ring. reflexivity. Qed.

Lemma weighting_acc_sum coefs subs : forall loss i,
  weighting_acc coefs subs loss i = loss + weighted_sum i coefs subs.
Proof.
  induction subs as [|[k s] subs IH]; intros loss i; simpl.
  - ring.
  - rewrite IH, weighted_term_code. ring.
Qed.

Lemma list_get_nth {A} (xs : list A) i what d :
  list_get xs i what
  = if (i <? List.length xs)%nat then Ok (nth i xs d) else Err (IndexError what).
Proof.
  unfold list_get. destruct (Nat.ltb_spec i (List.length xs)) as [H|H].
  - destruct (nth_error xs i) eqn:E.
    + now rewrite (nth_error_nth _ _ d E).
    + apply nth_error_None in E. lia.
  - apply nth_error_None in H. now rewrite H.
Qed.

Lemma NoDup_names_filter {A B} (name : A -> B) (keep : A -> bool) (xs : list A) :
  NoDup (map name xs) -> NoDup (map name (filter keep xs)).
Proof.
  intros ND. induction xs as [|a xs IH]; simpl in *; auto.
  inversion ND as [|? ? Hnot ND']; subst.
  destruct (keep a); simpl; auto. constructor; auto.
  intros Hin. apply Hnot. apply in_map_iff in Hin as (x & <- & Hx).
  apply in_map. now apply filter_In in Hx.
Qed.

Lemma all_tasks_names_NoDup : NoDup (map loss_name all_tasks).
Proof.
  cbn. repeat constructor; cbn; intuition discriminate.
Qed.

Lemma all_tasks_NoDup : NoDup all_tasks.
Proof.
  unfold all_tasks. repeat constructor; cbn; intuition discriminate.
Qed.

Lemma in_all_tasks t : In t all_tasks.
Proof. destruct t; cbn; auto 10. Qed.

Lemma entries_keys tasks val ts :
  dict_keys (entries_of tasks val ts) = map loss_name (filter (active tasks) ts).
Proof.
  unfold entries_of, dict_keys. induction ts as [|t ts IH]; simpl; auto.
  rewrite map_app, IH. now destruct (active tasks t).
Qed.

Lemma entries_length tasks val ts :
  (List.length (entries_of tasks val ts) <= List.length ts)%nat.
Proof.
  unfold entries_of. induction ts as [|t ts IH]; simpl; auto.
  rewrite length_app. destruct (active tasks t); simpl; lia.
Qed.

Lemma entries_find tasks val ts t :
  NoDup (map loss_name ts) -> In t ts -> active tasks t = true ->
  dict_find (entries_of tasks val ts) (loss_name t) = Some (value_of (val t)).
Proof.
  unfold entries_of. induction ts as [|t0 ts IH]; simpl; intros ND Hin Hact; [tauto|].
  inversion ND as [|? ? Hnot ND']; subst.
  rewrite dict_find_app. destruct Hin as [->|Hin].
  - rewrite Hact. simpl. now rewrite String.eqb_refl.
  - assert (Hne : loss_name t <> loss_name t0).
    { intros E. apply Hnot. rewrite <- E. now apply in_map. }
    destruct (active tasks t0); simpl; auto.
    apply String.eqb_neq in Hne. rewrite Hne. auto.
Qed.

Section Weighting.
Context {fw : Framework}.
Variable self : GeoPredModel.

(** The loop reads [coefs[cnt]] for the [cnt]-th key and fails exactly when
    the keys outnumber the coefficients. *)
Lemma forward_weighting_char subs : forall suf pre loss,
  subs = pre ++ suf -> NoDup (dict_keys subs) ->
  (List.length pre <= List.length (coefs self))%nat ->
  forward_weighting self subs (dict_keys suf) loss (List.length pre)
  = if (List.length subs <=? List.length (coefs self))%nat
    then Ok (weighting_acc (coefs self) suf loss (List.length pre),
             coef_trace (List.length pre) (dict_keys suf))
    else Err (IndexError "coefs").
Proof.
  induction suf as [|[k s] suf IH]; intros pre loss Hs ND Hpre.
  - rewrite app_nil_r in Hs. subst pre. simpl.
    destruct (Nat.leb_spec (List.length subs) (List.length (coefs self))); [auto|lia].
  - cbn [dict_keys map fst forward_weighting].
    rewrite M_bind_lift, (list_get_nth _ _ _ 0).
    destruct (Nat.ltb_spec (List.length pre) (List.length (coefs self))) as [Hlt|Hge].
    + assert (Hfind : dict_get subs k = Ok s).
      { unfold dict_get. rewrite Hs, dict_find_app, dict_find_fresh.
        - simpl. now rewrite String.eqb_refl.
        - rewrite Hs, dict_keys_app in ND. apply NoDup_remove_2 in ND.
          intros Hin. apply ND. apply in_or_app. now left. }
      cbv beta iota zeta. rewrite M_bind_lift, Hfind. cbv beta iota.
      rewrite M_bind_lift. cbv beta iota. fold (dict_keys suf).
      replace (List.length pre + 1)%nat with (List.length (pre ++ [(k, s)]))
        by (rewrite length_app; reflexivity).
      cbn [bind M_monad tell]. rewrite IH.
      * replace (List.length (pre ++ [(k, s)])) with (S (List.length pre))
          by (rewrite length_app; simpl; lia).
        destruct (List.length subs <=? List.length (coefs self))%nat; reflexivity.
      * now rewrite <- app_assoc.
      * assumption.
      * rewrite length_app. simpl. lia.
    + destruct (Nat.leb_spec (List.length subs) (List.length (coefs self))) as [Hle|];
        [|reflexivity].
      rewrite Hs, length_app in Hle. simpl in Hle. lia.
Qed.

End Weighting.

(** ** The shape of a forward call *)

Section ForwardShape.
Context {fw : Framework}.
Variable self : GeoPredModel.
Variable graph_dict : dict Graph.
Variable feed_dict : dict Tensor.

Lemma entries_NoDup val : NoDup (dict_keys (entries_of (pretrain_tasks self) val all_tasks)).
Proof. rewrite entries_keys. apply NoDup_names_filter, all_tasks_names_NoDup. Qed.

Lemma forward_sub_losses_inv subs w :
  forward_sub_losses self graph_dict feed_dict = Ok (subs, w) ->
  exists rp calls,
    forward_encode self graph_dict = Ok (rp, encoder_events calls) /\
    four_encodings self graph_dict rp calls /\
    (forall t, active (pretrain_tasks self) t = true ->
       exists v wt, block_value self feed_dict rp t = Ok (v, wt)) /\
    subs = entries_of (pretrain_tasks self) (block_value self feed_dict rp) all_tasks /\
    w = encoder_events calls
        ++ blocks_trace (pretrain_tasks self) (block_value self feed_dict rp) all_tasks.
Proof.
  rewrite forward_sub_losses_eq. intros H.
  apply M_bind_ok in H as (rp & w0 & w1 & He & Hb & ->).
  pose proof He as He'. apply forward_encode_inv in He' as (calls & H4 & ->).
  apply run_blocks_ok in Hb as (-> & -> & Hall).
  - exists rp, calls. repeat split; auto. intros t Ht. apply Hall; auto.
    apply in_all_tasks.
  - apply all_tasks_names_NoDup.
  - intros t _ [].
Qed.

Lemma forward_sub_losses_total rp w0 :
  forward_encode self graph_dict = Ok (rp, w0) ->
  (forall t, active (pretrain_tasks self) t = true ->
     exists v wt, block_value self feed_dict rp t = Ok (v, wt)) ->
  forward_sub_losses self graph_dict feed_dict
  = Ok (entries_of (pretrain_tasks self) (block_value self feed_dict rp) all_tasks,
        w0 ++ blocks_trace (pretrain_tasks self) (block_value self feed_dict rp) all_tasks).
Proof.
  intros He Hall. rewrite forward_sub_losses_eq, He. cbn [bind M_monad].
  rewrite run_blocks_total; auto using all_tasks_names_NoDup.
Qed.

(** [forward] is its dict of sub-losses followed by the weighting loop,
    which fails only when the keys outnumber the coefficients. *)
Lemma forward_split return_subloss subs w :
  forward_sub_losses self graph_dict feed_dict = Ok (subs, w) ->
  GeoPredModel_forward self graph_dict feed_dict return_subloss
  = if (List.length subs <=? List.length (coefs self))%nat
    then Ok (let loss := weighting_acc (coefs self) subs 0 0 in
             if return_subloss then OutFull loss subs (coefs self) else OutLoss loss,
             w ++ coef_trace 0 (dict_keys subs))
    else Err (IndexError "coefs").
Proof.
  intros H. unfold GeoPredModel_forward. rewrite H. cbn [bind M_monad].
  apply forward_sub_losses_inv in H as (rp & calls & _ & _ & _ & Hs & _).
  assert (Hw := @forward_weighting_char self subs subs [] 0 eq_refl).
  cbn [List.length] in Hw. rewrite Hw.
  - destruct (List.length subs <=? List.length (coefs self))%nat; [|reflexivity].
    destruct return_subloss; cbn; now rewrite app_nil_r.
  - rewrite Hs. apply entries_NoDup.
  - lia.
Qed.

Lemma forward_inv return_subloss out w :
  GeoPredModel_forward self graph_dict feed_dict return_subloss = Ok (out, w) ->
  exists subs w1,
    forward_sub_losses self graph_dict feed_dict = Ok (subs, w1) /\
    (List.length subs <= List.length (coefs self))%nat /\
    out_loss out = weighting_acc (coefs self) subs 0 0 /\
    out = (if return_subloss then OutFull (out_loss out) subs (coefs self)
           else OutLoss (out_loss out)) /\
    w = w1 ++ coef_trace 0 (dict_keys subs) /\
    (forall rs, GeoPredModel_forward self graph_dict feed_dict rs
                = Ok (if rs then OutFull (out_loss out) subs (coefs self)
                      else OutLoss (out_loss out), w)).
Proof.
  intros H.
  destruct (forward_sub_losses self graph_dict feed_dict) as [[subs w1]|e] eqn:E.
  - pose proof (forward_split return_subloss E) as Hs. rewrite H in Hs.
    destruct (Nat.leb_spec (List.length subs) (List.length (coefs self))) as [Hle|];
      [|discriminate].
    cbv zeta in Hs. injection Hs as -> ->. exists subs, w1.
    assert (Hl : forall L, out_loss (if return_subloss then OutFull L subs (coefs self)
                                     else OutLoss L) = L)
      by (intros; destruct return_subloss; reflexivity).
    rewrite Hl. repeat split; auto.
    intros rs. rewrite (forward_split rs E).
    destruct (Nat.leb_spec (List.length subs) (List.length (coefs self))); [|lia].
    reflexivity.
  - unfold GeoPredModel_forward in H. rewrite E in H. discriminate.
Qed.

End ForwardShape.

(** ** The demo framework runs *)

Example demo_encoder_init :
  GeoGNNModel_init (fw := Demo.framework) (Demo.encoder_config 2) = Ok (Demo.encoder 2).
Proof. reflexivity. Qed.

Example demo_encoder_forward :
  exists n e g,
    GeoGNNModel_forward (fw := Demo.framework) (Demo.encoder 2)
      (Demo.graph 1) (Demo.graph 2) (Demo.graph 3) = Ok (n, e, g) /\
    width n = 2%Z /\ width e = 2%Z /\ width g = 2%Z.
Proof. do 3 eexists. split; [reflexivity | repeat split]. Qed.

Example demo_forward_all_tasks :
  exists loss subs w,
    GeoPredModel_forward (fw := Demo.framework)
      (Demo.model ["Cm"; "Fg"; "Bar"; "Dar"; "Blr"; "Adc"; "Cl"] (repeat 0 8))
      (Demo.graph_dict 1 2 3 4) Demo.feed_dict true
    = Ok (OutFull loss subs (repeat 0 8), w) /\
    dict_keys subs
    = ["Cm_loss"; "Fg_loss"; "Bar_loss"; "Dar_loss"; "Blr_loss"; "Adc_loss"; "Cl_loss"] /\
    List.length w = 37%nat.
Proof. do 3 eexists. split; [reflexivity | split; reflexivity]. Qed.

(** ** The total loss *)

Lemma weighted_sum_single coefs name s :
  nth 0 coefs 0 = 0 -> weighted_sum 0 coefs [(name, s)] = 0.5 * s + ln 2.
Proof.
  intros Hc. simpl. unfold weighted_term. rewrite Hc, Rmult_0_r, exp_0.
  replace (1 + 1) with 2 by ring. lra.
Qed.

(** C1. Whenever [GeoPredModel.forward] returns, the keys of its sub-losses
    are the active tasks in the order Cm, Fg, Bar, Dar, Blr, Adc, Cl, and the
    total loss is the sum over them of
    [exp(-2*coef[i])/2 * sub_loss[i] + log(exp(coef[i]) + 1)], the i-th
    active task taking [coefs[i]]. With a single active task and a zero
    coefficient the loss is [0.5 * sub_loss + log 2]. *)
Theorem forward_loss_is_weighted_sum {fw : Framework}
    (self : GeoPredModel) (graph_dict : dict Graph) (feed_dict : dict Tensor)
    (return_subloss : bool) (out : ForwardOut) (w : list Event) :
  GeoPredModel_forward self graph_dict feed_dict return_subloss = Ok (out, w) ->
  exists sub_losses,
    GeoPredModel_forward self graph_dict feed_dict true
      = Ok (OutFull (out_loss out) sub_losses (coefs self), w) /\
    dict_keys sub_losses = active_names (pretrain_tasks self) /\
    (List.length sub_losses <= List.length (coefs self))%nat /\
    out_loss out = weighted_sum 0 (coefs self) sub_losses /\
    (forall name sub_loss,
       sub_losses = [(name, sub_loss)] -> nth 0 (coefs self) 0 = 0 ->
       out_loss out = 0.5 * sub_loss + ln 2).
Proof.
  intros H. apply forward_inv in H as (subs & w1 & Hs & Hlen & Hloss & _ & _ & Hall).
  assert (Hsum : out_loss out = weighted_sum 0 (coefs self) subs).
  { rewrite Hloss, weighting_acc_sum. ring. }
  exists subs. repeat split; auto.
  - apply (Hall true).
  - apply forward_sub_losses_inv in Hs as (rp & calls & _ & _ & _ & -> & _).
    apply entries_keys.
  - intros name s -> Hc. rewrite Hsum. now apply weighted_sum_single.
Qed.

Lemma forward_loss_is_weighted_sum_witness :
  exists out w,
    GeoPredModel_forward (fw := Demo.framework) (Demo.model ["Blr"] (repeat 0 8))
      (Demo.graph_dict 1 2 3 4) Demo.feed_dict false = Ok (out, w) /\
    exists sub_losses,
      GeoPredModel_forward (fw := Demo.framework) (Demo.model ["Blr"] (repeat 0 8))
        (Demo.graph_dict 1 2 3 4) Demo.feed_dict true
        = Ok (OutFull (out_loss out) sub_losses (repeat 0 8), w) /\
      dict_keys sub_losses = ["Blr_loss"] /\
      (List.length sub_losses <= 8)%nat /\
      out_loss out = weighted_sum 0 (repeat 0 8) sub_losses /\
      (forall name sub_loss,
         sub_losses = [(name, sub_loss)] -> nth 0 (repeat 0 8) 0 = 0 ->
         out_loss out = 0.5 * sub_loss + ln 2).
Proof.
  do 2 eexists. split; [reflexivity|].
  apply (forward_loss_is_weighted_sum (fw := Demo.framework)
           (Demo.model ["Blr"] (repeat 0 8)) (Demo.graph_dict 1 2 3 4)
           Demo.feed_dict false).
  reflexivity.
Defined.

(** ** What the trace of a forward call contains *)

Lemma encoder_calls_events calls : encoder_calls (encoder_events calls) = calls.
Proof.
  induction calls as [|[[a b] c] calls IH]; simpl; auto. now rewrite IH.
Qed.


Lemma cl_calls_events calls : cl_calls (encoder_events calls) = [].
Proof. induction calls as [|[[a b] c] calls IH]; simpl; auto. Qed.

Lemma coef_uses_events calls : coef_uses (encoder_events calls) = [].
Proof. induction calls as [|[[a b] c] calls IH]; simpl; auto. Qed.

Lemma encoder_calls_coef names : forall i, encoder_calls (coef_trace i names) = [].
Proof. induction names; simpl; auto. Qed.


Lemma cl_calls_coef names : forall i, cl_calls (coef_trace i names) = [].
Proof. induction names; simpl; auto. Qed.

Lemma coef_uses_coef names : forall i,
  coef_uses (coef_trace i names) = coef_events i names.
Proof. induction names; simpl; intros; auto. now rewrite IHnames. Qed.



Section BlockTraces.
Context {fw : Framework}.
Variable self : GeoPredModel.
Variable feed_dict : dict Tensor.
Variable rp : Reprs.

Lemma block_no_encoder t : encoder_calls (trace_of (block_value self feed_dict rp t)) = [].
Proof.
  destruct (block_value self feed_dict rp t) as [[v w]|e] eqn:E; [|reflexivity]. cbn [trace_of].
  destruct t;
    try (apply block_value_inv in E as (v1 & v2 & v3 & v4 & _ & ->);
         [reflexivity | discriminate]).
  apply block_value_Cl_inv in E
    as (x1 & x2 & y1 & y2 & fp & rms & v1 & v2 & _ & _ & _ & _ & _ & _ & _ & _ & _ & ->).
  reflexivity.
Qed.

Lemma block_no_coef t : coef_uses (trace_of (block_value self feed_dict rp t)) = [].
Proof.
  destruct (block_value self feed_dict rp t) as [[v w]|e] eqn:E; [|reflexivity]. cbn [trace_of].
  destruct t;
    try (apply block_value_inv in E as (v1 & v2 & v3 & v4 & _ & ->);
         [reflexivity | discriminate]).
  apply block_value_Cl_inv in E
    as (x1 & x2 & y1 & y2 & fp & rms & v1 & v2 & _ & _ & _ & _ & _ & _ & _ & _ & _ & ->).
  reflexivity.
Qed.

Lemma block_no_cl t : t <> T_Cl -> cl_calls (trace_of (block_value self feed_dict rp t)) = [].
Proof.
  intros Ht. destruct (block_value self feed_dict rp t) as [[v w]|e] eqn:E; [|reflexivity]. cbn [trace_of].
  apply block_value_inv in E as (v1 & v2 & v3 & v4 & _ & ->); auto.
Qed.


End BlockTraces.

(** ** Four passes per task, four encoder calls *)



(** ** The contrastive sub-loss *)

(** C3 (amended). When [Cl] is active its sub-loss is the sum of two calls
    of the weighted contrastive loss on two different pairs of normalised
    graph representations: first (augmented unmasked, canonical masked),
    then (canonical unmasked, augmented masked). Both calls read [fp_score]
    and [rms] from [feed_dict]; neither repeats the other's pair. *)
Theorem forward_Cl_two_pairs {fw : Framework}
    (self : GeoPredModel) (graph_dict : dict Graph) (feed_dict : dict Tensor)
    (return_subloss : bool) (out : ForwardOut) (w : list Event) :
  GeoPredModel_forward self graph_dict feed_dict return_subloss = Ok (out, w) ->
  active (pretrain_tasks self) T_Cl = true ->
  exists rp sub_losses x1 x2 y1 y2 fp_score rms v1 v2,
    four_encodings self graph_dict rp (encoder_calls w) /\
    GeoPredModel_forward self graph_dict feed_dict true
      = Ok (OutFull (out_loss out) sub_losses (coefs self), w) /\
    normalize (graph_repr_conf_cl_1 rp) 1 = Ok x1 /\
    normalize (masked_graph_repr rp) 1 = Ok x2 /\
    normalize (graph_repr rp) 1 = Ok y1 /\
    normalize (masked_graph_repr_conf_cl_1 rp) 1 = Ok y2 /\
    dict_get feed_dict "fp_score" = Ok fp_score /\
    dict_get feed_dict "rms" = Ok rms /\
    WeightedNTXentLoss_func x1 x2 fp_score (Some rms) = Ok v1 /\
    WeightedNTXentLoss_func y1 y2 fp_score (Some rms) = Ok v2 /\
    cl_calls w = [(x1, x2, v1); (y1, y2, v2)] /\
    dict_get sub_losses "Cl_loss" = Ok (v1 + v2).
Proof.
  intros H Hact.
  apply forward_inv in H as (subs & w1 & Hs & _ & _ & _ & -> & Hall).
  apply forward_sub_losses_inv in Hs as (rp & calls & He & H4 & Hok & -> & ->).
  destruct (Hok T_Cl Hact) as (v & wt & Hv). pose proof Hv as Hv'.
  apply block_value_Cl_inv in Hv'
    as (x1 & x2 & y1 & y2 & fp & rms & v1 & v2 & N1 & N2 & N3 & N4 & F1 & F2
        & W1 & W2 & -> & ->).
  assert (Hcalls : encoder_calls
             ((encoder_events calls
               ++ blocks_trace (pretrain_tasks self) (block_value self feed_dict rp)
                    all_tasks)
              ++ coef_trace 0
                   (dict_keys (entries_of (pretrain_tasks self)
                                 (block_value self feed_dict rp) all_tasks)))
           = calls).
  { unfold encoder_calls. rewrite !flat_map_app.
    fold (encoder_calls (encoder_events calls)). rewrite encoder_calls_events.
    rewrite (blocks_trace_silent _ _ _ all_tasks) by (intros; apply block_no_encoder).
    fold (encoder_calls (coef_trace 0
            (dict_keys (entries_of (pretrain_tasks self)
                          (block_value self feed_dict rp) all_tasks)))).
    now rewrite encoder_calls_coef, !app_nil_r. }
  exists rp. eexists. exists x1, x2, y1, y2, fp, rms, v1, v2.
  split; [now rewrite Hcalls|]. split; [apply (Hall true)|].
  repeat (split; [assumption|]). split.
  - unfold cl_calls. rewrite !flat_map_app.
    fold (cl_calls (encoder_events calls)). rewrite cl_calls_events.
    rewrite (blocks_trace_only _ _ _ all_tasks_NoDup (in_all_tasks T_Cl) Hact)
      by (intros; apply block_no_cl; auto).
    rewrite Hv. cbn [trace_of].
    fold (cl_calls (coef_trace 0
            (dict_keys (entries_of (pretrain_tasks self)
                          (block_value self feed_dict rp) all_tasks)))).
    now rewrite cl_calls_coef, app_nil_r.
  - unfold dict_get.
    change "Cl_loss" with (loss_name T_Cl).
    rewrite (entries_find _ _ _ _ all_tasks_names_NoDup (in_all_tasks T_Cl) Hact).
    now rewrite Hv.
Qed.

Lemma forward_Cl_two_pairs_witness :
  exists out w,
    GeoPredModel_forward (fw := Demo.framework) (Demo.model ["Cl"] (repeat 0 8))
      (Demo.graph_dict 1 2 3 4) Demo.feed_dict false = Ok (out, w) /\
    active ["Cl"] T_Cl = true /\
    exists rp sub_losses x1 x2 y1 y2 fp_score rms v1 v2,
      four_encodings (fw := Demo.framework) (Demo.model ["Cl"] (repeat 0 8))
        (Demo.graph_dict 1 2 3 4) rp (encoder_calls w) /\
      GeoPredModel_forward (fw := Demo.framework) (Demo.model ["Cl"] (repeat 0 8))
        (Demo.graph_dict 1 2 3 4) Demo.feed_dict true
        = Ok (OutFull (out_loss out) sub_losses (repeat 0 8), w) /\
      normalize (Framework := Demo.framework) (graph_repr_conf_cl_1 rp) 1 = Ok x1 /\
      normalize (Framework := Demo.framework) (masked_graph_repr rp) 1 = Ok x2 /\
      normalize (Framework := Demo.framework) (graph_repr rp) 1 = Ok y1 /\
      normalize (Framework := Demo.framework) (masked_graph_repr_conf_cl_1 rp) 1 = Ok y2 /\
      dict_get Demo.feed_dict "fp_score" = Ok fp_score /\
      dict_get Demo.feed_dict "rms" = Ok rms /\
      WeightedNTXentLoss_func (Framework := Demo.framework) x1 x2 fp_score (Some rms)
        = Ok v1 /\
      WeightedNTXentLoss_func (Framework := Demo.framework) y1 y2 fp_score (Some rms)
        = Ok v2 /\
      cl_calls w = [(x1, x2, v1); (y1, y2, v2)] /\
      dict_get sub_losses "Cl_loss" = Ok (v1 + v2).
Proof.
  do 2 eexists. split; [reflexivity|]. split; [reflexivity|].
  apply (forward_Cl_two_pairs (fw := Demo.framework)
           (Demo.model ["Cl"] (repeat 0 8)) (Demo.graph_dict 1 2 3 4)
           Demo.feed_dict false); reflexivity.
Defined.

(** On the demo graphs the four graph representations hold 1, 2, 3 and 4;
    the two contrastive calls are on (2, 3) and on (1, 4). *)
Example demo_Cl_calls :
  exists out w,
    GeoPredModel_forward (fw := Demo.framework) (Demo.model ["Cl"] (repeat 0 8))
      (Demo.graph_dict 1 2 3 4) Demo.feed_dict true = Ok (out, w) /\
    map (fun c => (t_data (fst (fst c)), t_data (snd (fst c)))) (cl_calls w)
    = [([2], [3]); ([1], [4])].
Proof. do 2 eexists. split; reflexivity. Qed.

(** C3, as stated, fails: the second contrastive call is not the first one
    with its arguments exchanged. *)
Lemma Cl_one_pair_both_orders_fails :
  ~ Cl_one_pair_both_orders (fw := Demo.framework) (Demo.model ["Cl"] (repeat 0 8))
      (Demo.graph_dict 1 2 3 4) Demo.feed_dict.
Proof.
  intros Hclaim. destruct demo_Cl_calls as (out & w & Hf & Hcalls).
  destruct (Hclaim out w Hf eq_refl) as (rp & x1 & x2 & v1 & v2 & _ & _ & _ & Hc).
  rewrite Hc in Hcalls. cbn in Hcalls.
  assert (H31 : [3] = [1] :> list R) by congruence.
  injection H31 as H31. lra.
Qed.

(** ** Construction of the head *)

(** C4. The constructor reads [model_config['Fg_size']] and builds
    [Fg_linear] outside any [if 'Fg' in self.pretrain_tasks]: a configuration
    that activates only [Cm] and has no [Fg_size] raises [KeyError], on every
    framework and encoder. With [Fg_size] supplied the same configuration
    constructs, and the guarded tasks stay unbuilt without their fields. *)
Theorem init_reads_Fg_size_unguarded :
  forall (fw : Framework) (enc : GeoGNNModel),
    GeoPredModel_init Demo.config_without_Fg_size enc = Err (KeyError "Fg_size") /\
    exists m,
      GeoPredModel_init (("Fg_size", VInt 5) :: Demo.config_without_Fg_size) enc = Ok m /\
      Cm_vocab m = Some 3%Z /\
      Bar_vocab m = None /\ Bar_mlp_1 m = None /\ Dar_vocab m = None /\
      Dar_mlp1 m = None /\ Blr_vocab m = None /\ Blr_mlp m = None /\
      Adc_vocab m = None /\ Adc_mlp m = None /\
      Cl_vocab m = None /\ Cl_linear m = None.
Proof.
  intros fw enc. split; [reflexivity|].
  eexists. split; [reflexivity|]. repeat split.
Qed.

(** ** Angle discretisation *)

Lemma Int_part_IZR z : Int_part (IZR z) = z.
Proof. symmetry. apply Int_part_spec. lra. Qed.

Lemma Rtrunc_unit y : -1 < y < 1 -> Rtrunc y = 0%Z.
Proof.
  intros [Hlo Hhi]. unfold Rtrunc. destruct (Rle_dec 0 y).
  - symmetry. apply Int_part_spec. simpl. lra.
  - rewrite <- (Int_part_spec (- y) 0); [reflexivity | simpl; lra].
Qed.


Lemma Rtrunc_between y v :
  (0 <= v)%Z -> -1 < y < IZR v + 1 -> (0 <= Rtrunc y <= v)%Z.
Proof.
  intros Hv [Hlo Hhi]. destruct (Rle_dec 0 y) as [Hy|Hy].
  - unfold Rtrunc. destruct (Rle_dec 0 y); [|contradiction].
    destruct (base_Int_part y) as [H1 H2]. split.
    + assert (H : (-1 < Int_part y)%Z) by (apply lt_IZR; lra). lia.
    + assert (H : (Int_part y < v + 1)%Z) by (apply lt_IZR; rewrite plus_IZR; lra).
      lia.
  - rewrite Rtrunc_unit by lra. lia.
Qed.

Lemma f32_constants :
  0 < f32_u /\ f32_u <= / 4194304 /\ 0 < f32_eta /\ f32_eta <= / 2 ^ 126 /\
  f32_big = 2 ^ 127 /\ int64_bound = 2 ^ 63.
Proof.
  unfold f32_u, f32_eta, f32_big, int64_bound. repeat split; lra.
Qed.

(** One rounded operation followed by an exact product. *)
Lemma first_rounding (x1 v y1 u eta : R) :
  0 < u <= 1 -> 0 < eta ->
  Rabs (y1 - x1) <= u * Rabs x1 + eta ->
  Rabs (y1 * v) <= (1 + u) * Rabs (x1 * v) + eta * Rabs v.
Proof.
  intros Hu He H1. rewrite !Rabs_mult.
  assert (Hy1 : Rabs y1 <= Rabs x1 + Rabs (y1 - x1)).
  { replace y1 with (x1 + (y1 - x1)) at 1 by ring. apply Rabs_triang. }
  pose proof (Rabs_pos v).
  assert (Rabs y1 * Rabs v <= (Rabs x1 + (u * Rabs x1 + eta)) * Rabs v)
    by (apply Rmult_le_compat_r; lra).
  lra.
Qed.

(** Two rounded operations in a row: the error of [(x / c) * v]. *)
Lemma two_roundings (x1 v y1 y2 u eta : R) :
  0 < u <= 1 -> 0 < eta ->
  Rabs (y1 - x1) <= u * Rabs x1 + eta ->
  Rabs (y2 - y1 * v) <= u * Rabs (y1 * v) + eta ->
  Rabs (y2 - x1 * v) <= 3 * u * Rabs (x1 * v) + eta * (2 * Rabs v + 1).
Proof.
  intros Hu He H1 H2.
  pose proof (@first_rounding x1 v y1 u eta Hu He H1) as Hy.
  assert (Hd : Rabs (y2 - x1 * v) <= Rabs (y2 - y1 * v) + Rabs (y1 - x1) * Rabs v).
  { replace (y2 - x1 * v) with ((y2 - y1 * v) + (y1 - x1) * v) by ring.
    rewrite <- (Rabs_mult (y1 - x1) v). apply Rabs_triang. }
  rewrite !Rabs_mult in Hy. rewrite !Rabs_mult in H2. rewrite !Rabs_mult.
  pose proof (Rabs_pos x1). pose proof (Rabs_pos v).
  set (A1 := Rabs x1) in *. set (Av := Rabs v) in *.
  set (P := Rabs y1 * Av) in *.
  set (d1 := Rabs (y1 - x1)) in *. set (d2 := Rabs (y2 - y1 * v)) in *.
  assert (Hp1 : d1 * Av <= (u * A1 + eta) * Av) by (apply Rmult_le_compat_r; lra).
  assert (Hp3 : 0 <= A1 * Av) by (apply Rmult_le_pos; lra).
  assert (Hp4 : 0 <= eta * Av) by (apply Rmult_le_pos; lra).
  assert (Hp5 : u * P <= u * ((1 + u) * (A1 * Av) + eta * Av))
    by (apply Rmult_le_compat_l; lra).
  assert (Hp6 : u * (u * (A1 * Av)) <= 1 * (u * (A1 * Av)))
    by (apply Rmult_le_compat_r; [apply Rmult_le_pos; [lra | exact Hp3] | lra]).
  assert (Hp7 : u * (eta * Av) <= 1 * (eta * Av))
    by (apply Rmult_le_compat_r; lra).
  lra.
Qed.

Lemma np_pi_bounds : 3 < np_pi < 4 /\ / f32_big <= Rabs np_pi <= f32_big.
Proof.
  assert (H : 3 < np_pi < 4) by (unfold np_pi; lra).
  split; [exact H|]. rewrite Rabs_pos_eq by lra. unfold f32_big. lra.
Qed.

(** The label the contract leaves for one element. *)
Lemma label_of_roundings (a : R) (vocab : Z) (y1 y2 l : R) :
  Rabs (IZR vocab) <= 2 ^ 62 ->
  label_in_range a vocab ->
  f32_near (a / np_pi) y1 ->
  f32_near (y1 * IZR vocab) y2 ->
  (Rabs y2 < int64_bound -> l = IZR (Rtrunc y2)) ->
  label_of a vocab l.
Proof.
  intros Hv [Ha HX] H1 H2 Hc.
  destruct f32_constants as (Hu0 & Hu1 & He0 & He1 & Hbig & Hint).
  assert (Hu : 0 < f32_u <= 1) by lra.
  specialize (H1 Ha).
  pose proof (@first_rounding _ (IZR vocab) _ _ _ Hu He0 H1) as Hy.
  pose proof (Rabs_pos (a / np_pi * IZR vocab)) as HX0.
  pose proof (Rabs_pos (IZR vocab)) as Hv0.
  assert (Hev : f32_eta * Rabs (IZR vocab) <= 1).
  { assert (f32_eta * Rabs (IZR vocab) <= / 2 ^ 126 * 2 ^ 62).
    { apply Rmult_le_compat; lra. }
    lra. }
  assert (Hux : f32_u * Rabs (a / np_pi * IZR vocab) <= / 4194304 * 2 ^ 62).
  { apply Rmult_le_compat; lra. }
  assert (H2' : Rabs (y1 * IZR vocab) <= f32_big) by (rewrite Hbig; lra).
  specialize (H2 H2').
  pose proof (@two_roundings _ (IZR vocab) _ _ _ _ Hu He0 H1 H2) as Herr.
  exists y2. split; [exact Herr|]. apply Hc. rewrite Hint.
  assert (Hy2 : Rabs y2 <= Rabs (a / np_pi * IZR vocab)
                          + Rabs (y2 - a / np_pi * IZR vocab)).
  { replace y2 with (a / np_pi * IZR vocab + (y2 - a / np_pi * IZR vocab)) at 1
      by ring. apply Rabs_triang. }
  lra.
Qed.

Lemma Forall2_chain {A} (R1 R2 R3 : A -> A -> Prop) l1 : forall l2 l3 l4,
  Forall2 R1 l1 l2 -> Forall2 R2 l2 l3 -> Forall2 R3 l3 l4 ->
  Forall2 (fun a d => exists b c, R1 a b /\ R2 b c /\ R3 c d) l1 l4.
Proof.
  induction l1 as [|a l1 IH]; intros l2 l3 l4 H1 H2 H3.
  - inversion H1; subst. inversion H2; subst. inversion H3; subst. constructor.
  - inversion H1; subst. inversion H2; subst. inversion H3; subst.
    constructor; eauto.
Qed.

Section Labels.
Context {fw : Framework}.
Hypothesis arithmetic : float32_ops fw.

(** The labels of a tensor of angles, element by element. *)
Lemma angle_labels (bond_angle labels : Tensor) (vocab : Z) :
  Rabs (IZR vocab) <= 2 ^ 62 ->
  angle_dist_id bond_angle (Ok vocab) = Ok labels ->
  Forall2 (fun a l => label_in_range a vocab -> label_of a vocab l)
    (t_data bond_angle) (t_data labels).
Proof.
  intros Hv H. unfold angle_dist_id in H.
  apply result_bind_ok in H as (q & Eq & H).
  apply result_bind_ok in H as (v & Ev & H). injection Ev as <-.
  apply result_bind_ok in H as (sc & Es & H).
  destruct f32_constants as (_ & _ & _ & _ & Hbig & _).
  pose proof (@div_rounds fw arithmetic _ _ _ (proj2 np_pi_bounds) Eq) as F1.
  assert (Hvb : Rabs (IZR vocab) <= f32_big) by (rewrite Hbig; lra).
  pose proof (@mul_rounds fw arithmetic _ _ _ Hvb Es) as F2.
  pose proof (@cast_truncates fw arithmetic _ _ H) as F3.
  eapply Forall2_impl; [|exact (Forall2_chain F1 F2 F3)].
  cbv beta. intros a l (y1 & y2 & H1 & H2 & H3) Hr.
  eapply label_of_roundings; eauto.
Qed.

End Labels.

Lemma label_slack_bound (a : R) (vocab : Z) :
  Rabs (IZR vocab) <= 2 ^ 62 ->
  0 <= label_slack a vocab
  <= 3 * / 4194304 * Rabs (a / np_pi * IZR vocab) + / 2 ^ 60.
Proof.
  intros Hv. unfold label_slack.
  destruct f32_constants as (Hu0 & Hu1 & He0 & He1 & _).
  pose proof (Rabs_pos (a / np_pi * IZR vocab)) as HX.
  pose proof (Rabs_pos (IZR vocab)) as Hv0.
  assert (H1 : f32_u * Rabs (a / np_pi * IZR vocab)
               <= / 4194304 * Rabs (a / np_pi * IZR vocab))
    by (apply Rmult_le_compat_r; lra).
  assert (H2 : 0 <= f32_u * Rabs (a / np_pi * IZR vocab))
    by (apply Rmult_le_pos; lra).
  assert (H3 : f32_eta * (2 * Rabs (IZR vocab) + 1) <= / 2 ^ 126 * (2 * 2 ^ 62 + 1))
    by (apply Rmult_le_compat; lra).
  assert (H4 : 0 <= f32_eta * (2 * Rabs (IZR vocab) + 1))
    by (apply Rmult_le_pos; lra).
  lra.
Qed.

Lemma Rabs_within (y x e : R) : Rabs (y - x) <= e -> x - e <= y <= x + e.
Proof.
  intros H. unfold Rabs in H. destruct (Rcase_abs (y - x)); lra.
Qed.


Lemma Forall2_map_same {A} (R : A -> A -> Prop) (f : A -> A) l :
  (forall x, R x (f x)) -> Forall2 R l (map f l).
Proof. intros H. induction l; cbn; constructor; auto. Qed.

Lemma f32_near_exact e : f32_near e e.
Proof.
  intros _. destruct f32_constants as (Hu & _ & He & _).
  replace (e - e) with 0 by ring. rewrite Rabs_R0.
  pose proof (Rabs_pos e). assert (0 <= f32_u * Rabs e) by (apply Rmult_le_pos; lra).
  lra.
Qed.

Lemma demo_float32_ops : float32_ops Demo.framework.
Proof.
  constructor.
  - intros t c t' _ E. cbn in E. injection E as <-. cbn.
    apply Forall2_map_same. intros x. apply f32_near_exact.
  - intros t c t' _ E. cbn in E. injection E as <-. cbn.
    apply Forall2_map_same. intros x. apply f32_near_exact.
  - intros t t' E. cbn in E. injection E as <-. cbn.
    apply Forall2_map_same. intros x _. reflexivity.
Qed.



(** At the [float32] nearest to [5 pi / 6] with [vocab = 6] the product lies
    below 5 by less than the slack, so the contract leaves the bins 4 and 5
    open there; at [a = 10^30] the product does not fit 64 bits and nothing
    is said of the label. *)
Example labels_left_open :
  let a := 5490331 / 2097152 in
  a / np_pi * IZR 6 < 5 <= a / np_pi * IZR 6 + label_slack a 6 /\
  ~ label_in_range (10 ^ 30) 4.
Proof.
  cbv zeta. split.
  - unfold label_slack, f32_u, f32_eta.
    assert (H : 4999999 / 1000000 < 5490331 / 2097152 / np_pi * IZR 6 < 5)
      by (unfold np_pi; lra).
    rewrite (Rabs_pos_eq (5490331 / 2097152 / np_pi * IZR 6)) by lra.
    rewrite (Rabs_pos_eq (IZR 6)) by lra. lra.
  - intros [_ H].
    assert (Hx : 2 ^ 62 < 10 ^ 30 / np_pi * IZR 4) by (unfold np_pi; lra).
    rewrite Rabs_pos_eq in H by lra. lra.
Qed.

(** ** The encoder without layers *)

(** C7. With [layer_num = 0] the layer loop does not run: [forward] returns
    the initial atom embedding of the atom-bond graph's node features as
    [node_repr], the initial bond embedding plus the initial bond-length RBF
    embedding of its edge features as [edge_repr], and the pooled
    [node_repr] as [graph_repr]; it raises exactly when one of these
    embeddings, the bond-angle embedding it also computes, or the pooling
    raises. *)
Theorem forward_without_layers {fw : Framework} (self : GeoGNNModel)
    (atom_bond_graph bond_angle_graph dihes_angle_graph : Graph) :
  layer_num self = 0%Z ->
  GeoGNNModel_forward self atom_bond_graph bond_angle_graph dihes_angle_graph
  = (node_embed <- init_atom_embedding self (node_feat atom_bond_graph) ;;
     bond_embed <- init_bond_embedding self (edge_feat atom_bond_graph) ;;
     bond_rbf <- init_bond_float_rbf self (edge_feat atom_bond_graph) ;;
     edge_embed <- tadd bond_embed bond_rbf ;;
     _ <- init_super_edge_embedding self (edge_feat bond_angle_graph) ;;
     graph_repr <- graph_pool self atom_bond_graph node_embed ;;
     ret (node_embed, edge_embed, graph_repr)).
Proof.
  intros H0. unfold GeoGNNModel_forward. rewrite H0.
  destruct (init_atom_embedding self (node_feat atom_bond_graph)); [|reflexivity].
  destruct (init_bond_embedding self (edge_feat atom_bond_graph)); [|reflexivity].
  destruct (init_bond_float_rbf self (edge_feat atom_bond_graph)); [|reflexivity].
  cbn. destruct (tadd a0 a1); [|reflexivity].
  cbn. destruct (init_super_edge_embedding self (edge_feat bond_angle_graph));
    reflexivity.
Qed.

Lemma forward_without_layers_witness :
  layer_num (Demo.encoder 0) = 0%Z /\
  GeoGNNModel_forward (fw := Demo.framework) (Demo.encoder 0)
    (Demo.graph 1) (Demo.graph 2) (Demo.graph 3)
  = (node_embed <- init_atom_embedding (Demo.encoder 0) (node_feat (Demo.graph 1)) ;;
     bond_embed <- init_bond_embedding (Demo.encoder 0) (edge_feat (Demo.graph 1)) ;;
     bond_rbf <- init_bond_float_rbf (Demo.encoder 0) (edge_feat (Demo.graph 1)) ;;
     edge_embed <- tadd (Framework := Demo.framework) bond_embed bond_rbf ;;
     _ <- init_super_edge_embedding (Demo.encoder 0) (edge_feat (Demo.graph 2)) ;;
     graph_repr <- graph_pool (Demo.encoder 0) (Demo.graph 1) node_embed ;;
     ret (node_embed, edge_embed, graph_repr)).
Proof.
  split; [reflexivity|].
  apply (forward_without_layers (fw := Demo.framework) (Demo.encoder 0)
           (Demo.graph 1) (Demo.graph 2) (Demo.graph 3)).
  reflexivity.
Defined.

(** ** Widths through the encoder *)

Tactic Notation "rpeel" hyp(H) "as" simple_intropattern(x) ident(E) :=
  apply result_bind_ok in H as (x & E & H); cbv beta iota in H.

Lemma list_get_Forall {A} (P : A -> Prop) xs i what x :
  list_get xs i what = Ok x -> Forall P xs -> P x.
Proof.
  unfold list_get. intros H HF. destruct (nth_error xs i) eqn:E; [|discriminate].
  injection H as <-. rewrite Forall_forall in HF. eapply HF, nth_error_In, E.
Qed.

Lemma list_last_Forall {A} (P : A -> Prop) xs what x :
  list_last xs what = Ok x -> Forall P xs -> P x.
Proof.
  unfold list_last. intros H HF. destruct (rev xs) eqn:E; [discriminate|].
  injection H as <-. rewrite Forall_forall in HF. apply HF, in_rev.
  rewrite E. now left.
Qed.

Section EncoderWidths.
Context {fw : Framework}.
Hypothesis shapes : framework_shapes fw.

Lemma tadd_width x y z d :
  tadd x y = Ok z -> width x = d -> width y = d -> width z = d.
Proof.
  intros H Hx Hy. rewrite <- Hx. apply (shape_tadd shapes _ _ H). congruence.
Qed.

(** A block maps inputs of width [d] to outputs of width [d]. *)
Lemma block_forward_width d blk graph nh eh nh' eh' :
  block_shapes d blk ->
  width nh = d -> width eh = d ->
  GeoGNNBlock_forward blk graph nh eh = Ok (nh', eh') ->
  width nh' = d /\ width eh' = d.
Proof.
  intros [Hnorm Hgn Hact Hdrop] Hn He H. unfold GeoGNNBlock_forward in H.
  rpeel H as [n0 e0] Egnn.
  rpeel H as n1 En1. apply Hnorm in En1 as [_ Wn1].
  rpeel H as e1 Ee1. apply Hnorm in Ee1 as [_ We1].
  rpeel H as n2 En2. apply Hgn in En2.
  rpeel H as [n3 e3] Eact.
  assert (W3 : width n3 = d /\ width e3 = d).
  { destruct (blk_last_act blk).
    - rpeel Eact as a1 Ea1. rpeel Eact as n' En'.
      rpeel Eact as a2 Ea2. rpeel Eact as e' Ee'.
      cbn in Eact. injection Eact as <- <-.
      unfold attr in Ea1, Ea2. destruct (blk_act blk) as [a|] eqn:Ea; [|discriminate].
      injection Ea1 as <-. injection Ea2 as <-.
      apply (Hact a eq_refl) in En', Ee'. split; congruence.
    - cbn in Eact. injection Eact as <- <-. split; congruence. }
  destruct W3 as [Wn3 We3].
  rpeel H as n4 En4. apply Hdrop in En4.
  rpeel H as e4 Ee4. apply Hdrop in Ee4.
  rpeel H as n5 En5. eapply (@tadd_width _ _ _ d) in En5; [| congruence ..].
  rpeel H as e5 Ee5. eapply (@tadd_width _ _ _ d) in Ee5; [| congruence ..].
  cbn in H. injection H as <- <-. split; congruence.
Qed.

Variable self : GeoGNNModel.
Hypothesis self_shapes : encoder_shapes self.
Variables atom_bond_graph bond_angle_graph dihes_angle_graph : Graph.

Lemma layer_width st layer_id st' :
  lists_of_width (embed_dim self) st ->
  GeoGNNModel_layer self atom_bond_graph bond_angle_graph dihes_angle_graph st layer_id
  = Ok st' ->
  lists_of_width (embed_dim self) st'.
Proof.
  destruct self_shapes as [_ _ _ _ Sbond Srbf Sangle Sdihes Sab Sba Sda _].
  intros (Hn & He & Hs) H. unfold GeoGNNModel_layer in H.
  rpeel H as emb Eemb. rpeel H as cur_e Ecur_e.
  eapply list_get_Forall in Eemb; [|exact Sbond]. apply Eemb in Ecur_e.
  rpeel H as rbf Erbf. rpeel H as cur_rbf Ecur_rbf.
  eapply list_get_Forall in Erbf; [|exact Srbf]. apply Erbf in Ecur_rbf.
  rpeel H as cur_edge Ecur_edge.
  eapply (@tadd_width _ _ _ (embed_dim self)) in Ecur_edge; [| congruence ..].
  rpeel H as arbf Earbf. rpeel H as cur_angle Ecur_angle.
  eapply list_get_Forall in Earbf; [|exact Sangle]. apply Earbf in Ecur_angle.
  rpeel H as drbf Edrbf. rpeel H as cur_dihes Ecur_dihes.
  eapply list_get_Forall in Edrbf; [|exact Sdihes]. apply Edrbf in Ecur_dihes.
  rpeel H as blk1 Eblk1. eapply list_get_Forall in Eblk1; [|exact Sab].
  rpeel H as nh Enh. eapply list_get_Forall in Enh; [|exact Hn].
  rpeel H as eh Eeh. eapply list_get_Forall in Eeh; [|exact He].
  rpeel H as [node_hidden edge_hidden_1] Eb1.
  eapply block_forward_width in Eb1 as [W1 W2]; [| exact Eblk1 | congruence ..].
  rpeel H as blk2 Eblk2. eapply list_get_Forall in Eblk2; [|exact Sba].
  rpeel H as seed2 Eseed2. eapply (@tadd_width _ _ _ (embed_dim self)) in Eseed2; [| congruence ..].
  rpeel H as sh Esh. eapply list_get_Forall in Esh; [|exact Hs].
  rpeel H as [edge_hidden dihes_node_hidden_1] Eb2.
  eapply block_forward_width in Eb2 as [W3 W4]; [| exact Eblk2 | congruence ..].
  rpeel H as blk3 Eblk3. eapply list_get_Forall in Eblk3; [|exact Sda].
  rpeel H as seed3 Eseed3. eapply (@tadd_width _ _ _ (embed_dim self)) in Eseed3; [| congruence ..].
  rpeel H as [dihes_node_hidden ignored] Eb3.
  eapply block_forward_width in Eb3 as [W5 W6]; [| exact Eblk3 | congruence ..].
  cbn in H. injection H as <-. unfold lists_of_width. cbn.
  repeat split; apply Forall_app; split; auto.
Qed.

Lemma layers_width ids : forall st st',
  lists_of_width (embed_dim self) st ->
  foldM (GeoGNNModel_layer self atom_bond_graph bond_angle_graph dihes_angle_graph)
    st ids = Ok st' ->
  lists_of_width (embed_dim self) st'.
Proof.
  induction ids as [|i ids IH]; intros st st' Hst H; cbn [foldM] in H.
  - now injection H as <-.
  - rpeel H as st1 E1. eapply IH; [|exact H]. eapply layer_width; eauto.
Qed.

Lemma encoder_forward_width n e g :
  GeoGNNModel_forward self atom_bond_graph bond_angle_graph dihes_angle_graph
  = Ok (n, e, g) ->
  width n = embed_dim self /\ width e = embed_dim self /\ width g = embed_dim self.
Proof.
  intros H. unfold GeoGNNModel_forward in H.
  destruct self_shapes as [Satom Sbond Srbf Ssuper _ _ _ _ _ _ _ Spool].
  rpeel H as n0 En0. apply Satom in En0.
  rpeel H as b0 Eb0. apply Sbond in Eb0.
  rpeel H as r0 Er0. apply Srbf in Er0.
  rpeel H as e0 Ee0. eapply (@tadd_width _ _ _ (embed_dim self)) in Ee0; [| congruence ..].
  rpeel H as s0 Es0. apply Ssuper in Es0.
  rpeel H as st Est. apply layers_width in Est.
  - destruct Est as (Hn & He & _).
    rpeel H as er Eer. eapply list_last_Forall in Eer; [|exact He].
    rpeel H as nr Enr. eapply list_last_Forall in Enr; [|exact Hn].
    rpeel H as gr Egr. apply Spool in Egr.
    cbn in H. injection H as <- <- <-. repeat split; congruence.
  - unfold lists_of_width. cbn. repeat split; constructor; auto; congruence.
Qed.

End EncoderWidths.

Section EncoderInit.
Context {fw : Framework}.
Hypothesis shapes : framework_shapes fw.

Lemma GeoGNNBlock_init_shapes d p last_act :
  block_shapes d (GeoGNNBlock_init d p last_act).
Proof.
  destruct shapes. constructor; cbn; auto.
  intros a Ha. destruct last_act; [|discriminate]. now injection Ha as <-.
Qed.

Lemma Forall_map_const {A B} (P : B -> Prop) (f : A -> B) (l : list A) :
  (forall a, P (f a)) -> Forall P (map f l).
Proof. intros H. induction l; simpl; constructor; auto. Qed.

(** The constructor builds every layer for the configured width. *)
Lemma GeoGNNModel_init_shapes model_config self :
  GeoGNNModel_init model_config = Ok self ->
  encoder_shapes self /\
  cfg_get as_int model_config "embed_dim" 32%Z = Ok (embed_dim self).
Proof.
  intros H. unfold GeoGNNModel_init in H.
  rpeel H as d Ed. rpeel H as p Ep. rpeel H as n En. rpeel H as r Er.
  rpeel H as an Ean. rpeel H as bn Ebn. rpeel H as bfn Ebfn. rpeel H as bafn Ebafn.
  cbn in H. injection H as <-. split; [|assumption].
  destruct shapes. constructor; cbn; auto;
    try (apply Forall_map_const; intros; auto using GeoGNNBlock_init_shapes).
  destruct (String.eqb r "mean"); auto.
Qed.

End EncoderInit.

Lemma demo_framework_shapes : framework_shapes Demo.framework.
Proof.
  constructor; cbn.
  - intros x y z H _. now injection H as <-.
  - intros d x y H. destruct (Z.eqb_spec (width x) d); [|discriminate].
    injection H as <-. auto.
  - intros x y H. now injection H as <-.
  - intros p x y H. now injection H as <-.
  - intros g x y H. now injection H as <-.
  - intros g x y H. now injection H as <-.
  - intros k g x y H. now injection H as <-.
  - intros names d f y H. now injection H as <-.
  - intros names d f y H. now injection H as <-.
  - intros names d f y H. now injection H as <-.
  - intros names d f y H. now injection H as <-.
Qed.

(** C8. On a framework whose layers honour their shape contracts, every
    encoder whose layers are of the classes the constructor builds for
    [embed_dim], at any parameters and for any [layer_num], returns node,
    edge and graph representations of width [embed_dim], which is also what
    [node_dim] and [graph_dim] report; each of its blocks maps inputs of that
    width to outputs of that width. The constructor builds such an encoder
    from every configuration, with [embed_dim] the configured one. *)
Theorem encoder_output_width {fw : Framework}
    (self : GeoGNNModel) (atom_bond_graph bond_angle_graph dihes_angle_graph : Graph)
    (node_repr edge_repr graph_repr : Tensor) :
  framework_shapes fw ->
  encoder_shapes self ->
  GeoGNNModel_forward self atom_bond_graph bond_angle_graph dihes_angle_graph
    = Ok (node_repr, edge_repr, graph_repr) ->
  node_dim self = embed_dim self /\ graph_dim self = embed_dim self /\
  width node_repr = embed_dim self /\
  width edge_repr = embed_dim self /\
  width graph_repr = embed_dim self /\
  (forall blk graph nh eh nh' eh',
     block_shapes (embed_dim self) blk ->
     width nh = embed_dim self -> width eh = embed_dim self ->
     GeoGNNBlock_forward blk graph nh eh = Ok (nh', eh') ->
     width nh' = embed_dim self /\ width eh' = embed_dim self) /\
  (forall model_config built,
     GeoGNNModel_init model_config = Ok built ->
     encoder_shapes built /\
     cfg_get as_int model_config "embed_dim" 32%Z = Ok (embed_dim built)).
Proof.
  intros shapes Hs Hfwd.
  destruct (encoder_forward_width shapes Hs _ _ _ Hfwd) as (Wn & We & Wg).
  do 5 (split; [first [assumption | reflexivity]|]). split.
  - intros blk graph nh eh nh' eh' Hblk Wnh Weh Hfw.
    eapply block_forward_width; [exact shapes | exact Hblk | | | exact Hfw];
      assumption.
  - intros model_config built Hinit.
    exact (GeoGNNModel_init_shapes shapes _ Hinit).
Qed.

Lemma demo_encoder_shapes : encoder_shapes (Demo.encoder 2).
Proof.
  apply (GeoGNNModel_init_shapes (fw := Demo.framework) demo_framework_shapes
           (Demo.encoder_config 2)).
  reflexivity.
Qed.

Lemma encoder_output_width_witness :
  let fw := Demo.framework in
  let self := Demo.encoder 2 in
  exists node_repr edge_repr graph_repr,
    framework_shapes fw /\
    encoder_shapes self /\
    GeoGNNModel_forward self (Demo.graph 1) (Demo.graph 2) (Demo.graph 3)
      = Ok (node_repr, edge_repr, graph_repr) /\
    node_dim self = embed_dim self /\ graph_dim self = embed_dim self /\
    width node_repr = embed_dim self /\
    width edge_repr = embed_dim self /\
    width graph_repr = embed_dim self /\
    (forall blk graph nh eh nh' eh',
       block_shapes (embed_dim self) blk ->
       width nh = embed_dim self -> width eh = embed_dim self ->
       GeoGNNBlock_forward blk graph nh eh = Ok (nh', eh') ->
       width nh' = embed_dim self /\ width eh' = embed_dim self) /\
    (forall model_config built,
       GeoGNNModel_init model_config = Ok built ->
       encoder_shapes built /\
       cfg_get as_int model_config "embed_dim" 32%Z = Ok (embed_dim built)).
Proof.
  intros fw self. do 3 eexists.
  split; [exact demo_framework_shapes|]. split; [exact demo_encoder_shapes|].
  split; [reflexivity|].
  apply (@encoder_output_width fw self (Demo.graph 1) (Demo.graph 2) (Demo.graph 3)
           _ _ _ demo_framework_shapes demo_encoder_shapes eq_refl).
Defined.

(** ** Removing a task *)

Lemma py_in_filter x (p : string -> bool) l :
  py_in x (filter p l) = py_in x l && p x.
Proof.
  unfold py_in. apply eq_true_iff_eq.
  rewrite andb_true_iff, !existsb_exists. split.
  - intros (y & Hin & Hy). apply String.eqb_eq in Hy. subst y.
    apply filter_In in Hin as [Hin Hp]. split; auto.
    exists x. split; auto. apply String.eqb_refl.
  - intros [(y & Hin & Hy) Hp]. apply String.eqb_eq in Hy. subst y.
    exists x. split; [|apply String.eqb_refl]. apply filter_In. auto.
Qed.

Lemma active_without t pt t' :
  active (without t pt) t' = active pt t' && negb (Task_eqb t' t).
Proof. unfold active, without. now rewrite py_in_filter. Qed.

Lemma Task_eqb_eq t t' : Task_eqb t t' = true <-> t = t'.
Proof. destruct t, t'; cbn; split; intros; congruence. Qed.

Lemma Task_eqb_refl t : Task_eqb t t = true.
Proof. now apply Task_eqb_eq. Qed.

Lemma all_tasks_split t :
  all_tasks = tasks_before t all_tasks ++ t :: tasks_after t all_tasks.
Proof. destruct t; reflexivity. Qed.

Lemma tasks_before_not_in t : ~ In t (tasks_before t all_tasks).
Proof. destruct t; cbn; intuition discriminate. Qed.

Lemma tasks_after_not_in t : ~ In t (tasks_after t all_tasks).
Proof. destruct t; cbn; intuition discriminate. Qed.

Lemma entries_app tasks val l1 l2 :
  entries_of tasks val (l1 ++ l2) = entries_of tasks val l1 ++ entries_of tasks val l2.
Proof. apply flat_map_app. Qed.

Lemma entries_without t pt val l :
  ~ In t l -> entries_of (without t pt) val l = entries_of pt val l.
Proof.
  unfold entries_of. induction l as [|t' l IH]; simpl; intros Hn; auto.
  rewrite IH by tauto. rewrite active_without.
  destruct (Task_eqb t' t) eqn:E.
  - apply Task_eqb_eq in E. subst. tauto.
  - now rewrite andb_true_r.
Qed.

Lemma entries_without_self t pt val :
  entries_of (without t pt) val [t] = [].
Proof.
  unfold entries_of. simpl. rewrite active_without, Task_eqb_refl.
  now rewrite andb_false_r.
Qed.

Lemma weighted_sum_app coefs l1 l2 : forall i,
  weighted_sum i coefs (l1 ++ l2)
  = weighted_sum i coefs l1 + weighted_sum (i + List.length l1) coefs l2.
Proof.
  induction l1 as [|[k s] l1 IH]; intros i; simpl.
  - rewrite Nat.add_0_r. ring.
  - rewrite IH. replace (S i + List.length l1)%nat with (i + S (List.length l1))%nat by lia.
    ring.
Qed.

Lemma weighted_sum_shift coefs l : forall i,
  (forall k, (k < List.length l)%nat ->
     nth (S i + k) coefs 0 = nth (i + k) coefs 0) ->
  weighted_sum (S i) coefs l = weighted_sum i coefs l.
Proof.
  induction l as [|[k s] l IH]; intros i H; simpl; auto.
  rewrite IH.
  - specialize (H 0%nat). rewrite !Nat.add_0_r in H. rewrite H; [reflexivity|simpl; lia].
  - intros j Hj. specialize (H (S j)).
    replace (S (S i) + j)%nat with (S i + S j)%nat by lia.
    replace (S i + j)%nat with (i + S j)%nat by lia.
    apply H. simpl. lia.
Qed.

Section Removal.
Context {fw : Framework}.
Variable self : GeoPredModel.
Variable graph_dict : dict Graph.
Variable feed_dict : dict Tensor.

Lemma with_tasks_encode ts :
  forward_encode (with_tasks self ts) graph_dict = forward_encode self graph_dict.
Proof. reflexivity. Qed.

Lemma with_tasks_block ts rp t :
  block_value (with_tasks self ts) feed_dict rp t = block_value self feed_dict rp t.
Proof. destruct t; reflexivity. Qed.

Lemma forward_without t return_subloss out w :
  active (pretrain_tasks self) t = true ->
  GeoPredModel_forward self graph_dict feed_dict return_subloss = Ok (out, w) ->
  exists rp w',
    let val := block_value self feed_dict rp in
    let pre := entries_of (pretrain_tasks self) val (tasks_before t all_tasks) in
    let post := entries_of (pretrain_tasks self) val (tasks_after t all_tasks) in
    let s := value_of (val t) in
    (forall rs, GeoPredModel_forward self graph_dict feed_dict rs
       = Ok (if rs then OutFull (out_loss out) (pre ++ (loss_name t, s) :: post)
                          (coefs self)
             else OutLoss (out_loss out), w)) /\
    out_loss out = weighting_acc (coefs self) (pre ++ (loss_name t, s) :: post) 0 0 /\
    (List.length (pre ++ (loss_name t, s) :: post) <= List.length (coefs self))%nat /\
    (forall rs,
       GeoPredModel_forward (with_tasks self (without t (pretrain_tasks self)))
         graph_dict feed_dict rs
       = Ok (let loss' := weighting_acc (coefs self) (pre ++ post) 0 0 in
             if rs then OutFull loss' (pre ++ post) (coefs self) else OutLoss loss',
             w')).
Proof.
  intros Hact H.
  apply forward_inv in H as (subs & w1 & Hs & Hlen & Hloss & _ & -> & Hall).
  apply forward_sub_losses_inv in Hs as (rp & calls & He & _ & Hok & -> & ->).
  set (val := block_value self feed_dict rp) in *.
  set (pt := pretrain_tasks self) in *.
  assert (Hsplit : entries_of pt val all_tasks
                   = entries_of pt val (tasks_before t all_tasks)
                     ++ (loss_name t, value_of (val t))
                     :: entries_of pt val (tasks_after t all_tasks)).
  { rewrite (all_tasks_split t) at 1. rewrite entries_app.
    change (t :: tasks_after t all_tasks) with ([t] ++ tasks_after t all_tasks).
    rewrite entries_app. unfold entries_of at 2. simpl. now rewrite Hact. }
  assert (Hsplit' : entries_of (without t pt) val all_tasks
                    = entries_of pt val (tasks_before t all_tasks)
                      ++ entries_of pt val (tasks_after t all_tasks)).
  { rewrite (all_tasks_split t) at 1. rewrite entries_app.
    change (t :: tasks_after t all_tasks) with ([t] ++ tasks_after t all_tasks).
    rewrite entries_app, entries_without_self.
    rewrite !entries_without; auto using tasks_before_not_in, tasks_after_not_in. }
  eexists rp, _. cbv zeta. fold val. rewrite <- Hsplit.
  split; [exact Hall|]. split; [exact Hloss|]. split; [exact Hlen|].
  intros rs.
  assert (Hsub : forward_sub_losses (with_tasks self (without t pt)) graph_dict feed_dict
                 = Ok (entries_of (without t pt) val all_tasks,
                       encoder_events calls
                       ++ blocks_trace (without t pt) val all_tasks)).
  { rewrite (forward_sub_losses_total (with_tasks self (without t pt)) graph_dict
               feed_dict (rp := rp) (w0 := encoder_events calls)).
    - reflexivity.
    - rewrite with_tasks_encode. exact He.
    - intros t' Ht'. cbn [pretrain_tasks with_tasks] in Ht'.
      rewrite active_without in Ht'. apply andb_true_iff in Ht' as [Ht' _].
      rewrite with_tasks_block. now apply Hok. }
  rewrite (forward_split _ _ _ rs Hsub). cbn [coefs with_tasks].
  rewrite Hsplit'. rewrite Hsplit in Hlen.
  destruct (Nat.leb_spec
              (List.length (entries_of pt val (tasks_before t all_tasks)
                            ++ entries_of pt val (tasks_after t all_tasks)))
              (List.length (coefs self))) as [_|Hgt].
  - reflexivity.
  - rewrite length_app in Hgt. rewrite length_app in Hlen.
    cbn [List.length] in Hlen. exfalso. lia.
Qed.

End Removal.

(** C5 (amended). Removing an active task [t] from [pretrain_tasks], with
    the same inputs and parameters, removes the entry of [t] from the
    sub-losses and leaves every other sub-loss as it was. The terms of the
    tasks visited before [t] are unchanged; each task visited after [t] moves
    one position up and is now weighted by the coefficient one index lower.
    The total loss therefore drops by exactly the term of [t] when no active
    task follows [t], or when every following task's new coefficient equals
    its old one (as at initialisation, where all coefficients are 0). *)
Theorem removing_a_task {fw : Framework}
    (self : GeoPredModel) (graph_dict : dict Graph) (feed_dict : dict Tensor)
    (return_subloss : bool) (t : Task) (out : ForwardOut) (w : list Event) :
  active (pretrain_tasks self) t = true ->
  GeoPredModel_forward self graph_dict feed_dict return_subloss = Ok (out, w) ->
  exists pre sub_loss post out' w',
    let self' := with_tasks self (without t (pretrain_tasks self)) in
    let i := List.length pre in
    let term := weighted_term (nth i (coefs self) 0) sub_loss in
    GeoPredModel_forward self graph_dict feed_dict true
      = Ok (OutFull (out_loss out) (pre ++ (loss_name t, sub_loss) :: post)
              (coefs self), w) /\
    i = task_index (pretrain_tasks self) t /\
    GeoPredModel_forward self' graph_dict feed_dict return_subloss = Ok (out', w') /\
    GeoPredModel_forward self' graph_dict feed_dict true
      = Ok (OutFull (out_loss out') (pre ++ post) (coefs self), w') /\
    out_loss out
      = weighted_sum 0 (coefs self) pre + term + weighted_sum (S i) (coefs self) post /\
    out_loss out'
      = weighted_sum 0 (coefs self) pre + weighted_sum i (coefs self) post /\
    (post = [] -> out_loss out' = out_loss out - term) /\
    ((forall k, (k < List.length post)%nat ->
        nth (S i + k) (coefs self) 0 = nth (i + k) (coefs self) 0) ->
     out_loss out' = out_loss out - term).
Proof.
  intros Hact H.
  destruct (@forward_without _ self graph_dict feed_dict t return_subloss out w Hact H)
    as (rp & w' & Hfull & Hloss & Hlen & Hrem).
  cbv zeta in *.
  set (val := block_value self feed_dict rp) in *.
  set (pre := entries_of (pretrain_tasks self) val (tasks_before t all_tasks)) in *.
  set (post := entries_of (pretrain_tasks self) val (tasks_after t all_tasks)) in *.
  set (s := value_of (val t)) in *.
  exists pre, s, post.
  exists (if return_subloss
          then OutFull (weighting_acc (coefs self) (pre ++ post) 0 0) (pre ++ post)
                 (coefs self)
          else OutLoss (weighting_acc (coefs self) (pre ++ post) 0 0)), w'.
  assert (Hout' : out_loss
            (if return_subloss
             then OutFull (weighting_acc (coefs self) (pre ++ post) 0 0) (pre ++ post)
                    (coefs self)
             else OutLoss (weighting_acc (coefs self) (pre ++ post) 0 0))
          = weighting_acc (coefs self) (pre ++ post) 0 0)
    by (destruct return_subloss; reflexivity).
  rewrite Hout'.
  assert (L : out_loss out
              = weighted_sum 0 (coefs self) pre
                + weighted_term (nth (List.length pre) (coefs self) 0) s
                + weighted_sum (S (List.length pre)) (coefs self) post).
  { rewrite Hloss, weighting_acc_sum, weighted_sum_app. cbn [weighted_sum].
    rewrite Nat.add_0_l. ring. }
  assert (L' : weighting_acc (coefs self) (pre ++ post) 0 0
               = weighted_sum 0 (coefs self) pre
                 + weighted_sum (List.length pre) (coefs self) post).
  { rewrite weighting_acc_sum, weighted_sum_app, Nat.add_0_l. ring. }
  split; [apply (Hfull true)|].
  split.
  { unfold task_index, pre. rewrite <- (length_map fst).
    fold (dict_keys (entries_of (pretrain_tasks self) val (tasks_before t all_tasks))).
    now rewrite entries_keys, length_map. }
  split; [apply (Hrem return_subloss)|].
  split; [apply (Hrem true)|].
  split; [exact L|]. split; [exact L'|]. split.
  - intros Hpost. rewrite L, L', Hpost. cbn [weighted_sum]. ring.
  - intros Hsame. rewrite L, L', (weighted_sum_shift _ _ _ Hsame). ring.
Qed.

Lemma removing_a_task_witness :
  let self := Demo.model ["Cm"; "Fg"] [0; 1; 0; 0; 0; 0; 0; 0] in
  let gd := Demo.graph_dict 0 0 0 0 in
  exists out w,
    active (pretrain_tasks self) T_Cm = true /\
    GeoPredModel_forward (fw := Demo.framework) self gd Demo.feed_dict true
      = Ok (out, w) /\
    exists pre sub_loss post out' w',
      let self' := with_tasks self (without T_Cm (pretrain_tasks self)) in
      let i := List.length pre in
      let term := weighted_term (nth i (coefs self) 0) sub_loss in
      GeoPredModel_forward (fw := Demo.framework) self gd Demo.feed_dict true
        = Ok (OutFull (out_loss out) (pre ++ (loss_name T_Cm, sub_loss) :: post)
                (coefs self), w) /\
      i = task_index (pretrain_tasks self) T_Cm /\
      GeoPredModel_forward (fw := Demo.framework) self' gd Demo.feed_dict true
        = Ok (out', w') /\
      GeoPredModel_forward (fw := Demo.framework) self' gd Demo.feed_dict true
        = Ok (OutFull (out_loss out') (pre ++ post) (coefs self), w') /\
      out_loss out
        = weighted_sum 0 (coefs self) pre + term + weighted_sum (S i) (coefs self) post /\
      out_loss out'
        = weighted_sum 0 (coefs self) pre + weighted_sum i (coefs self) post /\
      (post = [] -> out_loss out' = out_loss out - term) /\
      ((forall k, (k < List.length post)%nat ->
          nth (S i + k) (coefs self) 0 = nth (i + k) (coefs self) 0) ->
       out_loss out' = out_loss out - term).
Proof.
  intros self gd. do 2 eexists. split; [reflexivity|]. split; [reflexivity|].
  apply (removing_a_task (fw := Demo.framework) self gd Demo.feed_dict true T_Cm);
    reflexivity.
Defined.

(** With [Cm] and [Fg] active and [coefs = [0; 1; 0; ...]], on inputs where
    every sub-loss is 0, the loss is [log 2 + log (e + 1)]; with [Cm]
    removed, [Fg] takes [coefs[0]] and the loss is [log 2]. *)
Example demo_Cm_Fg :
  let self := Demo.model ["Cm"; "Fg"] [0; 1; 0; 0; 0; 0; 0; 0] in
  let gd := Demo.graph_dict 0 0 0 0 in
  let z := 0 + 0 + (0 + 0) + (0 + 0) + (0 + 0) in
  exists w w',
    GeoPredModel_forward (fw := Demo.framework) self gd Demo.feed_dict true
    = Ok (OutFull
            (0 + (exp (- 0 * 2) / 2 * z + ln (exp 0 + 1))
               + (exp (- 1 * 2) / 2 * z + ln (exp 1 + 1)))
            [("Cm_loss", z); ("Fg_loss", z)] (coefs self), w) /\
    GeoPredModel_forward (fw := Demo.framework)
      (with_tasks self (without T_Cm (pretrain_tasks self))) gd Demo.feed_dict true
    = Ok (OutFull (0 + (exp (- 0 * 2) / 2 * z + ln (exp 0 + 1)))
            [("Fg_loss", z)] (coefs self), w').
Proof. intros self gd z. do 2 eexists. split; reflexivity. Qed.

Lemma ln_two_lt_ln_e_plus_one : ln (exp 0 + 1) < ln (exp 1 + 1).
Proof.
  pose proof (exp_pos 0) as H0.
  assert (H01 : exp 0 < exp 1) by (apply exp_increasing; lra).
  apply ln_increasing; lra.
Qed.

(** C5, as stated, fails: removing [Cm] does not subtract its term. *)
Lemma removal_subtracts_term_fails :
  ~ removal_subtracts_term (fw := Demo.framework)
      (Demo.model ["Cm"; "Fg"] [0; 1; 0; 0; 0; 0; 0; 0])
      (Demo.graph_dict 0 0 0 0) Demo.feed_dict T_Cm.
Proof.
  intros Hclaim. destruct demo_Cm_Fg as (w & w' & Hfull & Hrem).
  specialize (Hclaim _ _ _ _ _ _ _ eq_refl Hfull Hrem eq_refl).
  cbn [task_index nth] in Hclaim. unfold weighted_term in Hclaim.
  pose proof ln_two_lt_ln_e_plus_one as Hlt.
  change (nth (task_index _ _) _ 0) with 0 in Hclaim.
  replace (-2 * 0) with (- 0 * 2) in Hclaim by ring.
  lra.
Qed.

(** ** Coefficient positions *)

Lemma coef_events_app names1 names2 : forall i,
  coef_events i (names1 ++ names2)
  = coef_events i names1 ++ coef_events (i + List.length names1) names2.
Proof.
  induction names1 as [|n names1 IH]; intros i; simpl.
  - now rewrite Nat.add_0_r.
  - rewrite IH. now replace (S i + List.length names1)%nat
                  with (i + S (List.length names1))%nat by lia.
Qed.

Lemma coef_events_bound names : forall i name j,
  In (name, j) (coef_events i names) -> (i <= j < i + List.length names)%nat.
Proof.
  induction names as [|n names IH]; intros i name j; simpl; [tauto|].
  intros [E|Hin].
  - injection E as _ <-. lia.
  - apply IH in Hin. lia.
Qed.

Lemma task_index_bound pt t : (task_index pt t < 7)%nat.
Proof.
  unfold task_index.
  pose proof (filter_length_le (active pt) (tasks_before t all_tasks)) as H.
  destruct t; cbn in H |- *; lia.
Qed.

Lemma active_names_position pt t :
  active pt t = true ->
  In (loss_name t, task_index pt t) (coef_events 0 (active_names pt)).
Proof.
  intros Hact. unfold active_names, task_index.
  assert (E : filter (active pt) all_tasks
              = filter (active pt) (tasks_before t all_tasks)
                ++ t :: filter (active pt) (tasks_after t all_tasks)).
  { rewrite (all_tasks_split t) at 1. rewrite filter_app. cbn [filter].
    now rewrite Hact. }
  rewrite E, map_app, coef_events_app. cbn [map coef_events].
  apply in_or_app. right. left. now rewrite length_map.
Qed.

Lemma coef_events_nth names : forall i name j,
  In (name, j) (coef_events i names) -> nth_error names (j - i) = Some name.
Proof.
  induction names as [|n names IH]; intros i name j; simpl; [tauto|].
  intros [E|Hin].
  - injection E as -> <-. now rewrite Nat.sub_diag.
  - pose proof (coef_events_bound _ _ _ _ Hin) as Hb.
    apply IH in Hin.
    replace (j - i)%nat with (S (j - S i)) by lia. exact Hin.
Qed.

(** The weighted sum over the entries of the active tasks, task by task. *)
Lemma weighted_sum_positional coefs pt (val : Task -> M R) :
  weighted_sum 0 coefs (entries_of pt val all_tasks)
  = positional_sum coefs pt (entries_of pt val all_tasks).
Proof.
  unfold positional_sum, task_term, task_index, entries_of.
  generalize (active pt). intros act. cbn.
  destruct (act T_Cm) eqn:A1; destruct (act T_Fg) eqn:A2;
    destruct (act T_Bar) eqn:A3; destruct (act T_Dar) eqn:A4;
    destruct (act T_Blr) eqn:A5; destruct (act T_Adc) eqn:A6;
    destruct (act T_Cl) eqn:A7;
    cbn; rewrite ?A1, ?A2, ?A3, ?A4, ?A5, ?A6, ?A7; reflexivity.
Qed.

(** C9. Once the sub-losses are computed, the weighting loop gives the i-th
    key of [sub_losses] the coefficient [coefs[i]]: a task is weighted by the
    coefficient whose index is the number of active tasks visited before it
    in the order Cm, Fg, Bar, Dar, Blr, Adc, Cl, not by an index of its own,
    and the loss is the sum of the terms so weighted. The loop raises
    [IndexError] exactly when the active tasks outnumber the coefficients;
    there are at most seven of them, so with the eight coefficients the
    constructor allocates every index read is in bounds, for every subset of
    active tasks. *)
Theorem coefficient_positions {fw : Framework}
    (self : GeoPredModel) (graph_dict : dict Graph) (feed_dict : dict Tensor)
    (return_subloss : bool) (sub_losses : dict R) (w1 : list Event) :
  forward_sub_losses self graph_dict feed_dict = Ok (sub_losses, w1) ->
  let tasks := pretrain_tasks self in
  let names := active_names tasks in
  dict_keys sub_losses = names /\
  (List.length names <= 7)%nat /\
  (forall t, active tasks t = true ->
     (task_index tasks t < 7)%nat /\
     nth_error names (task_index tasks t) = Some (loss_name t)) /\
  ((List.length names <= List.length (coefs self))%nat ->
   exists out w2,
     GeoPredModel_forward self graph_dict feed_dict return_subloss
       = Ok (out, w1 ++ w2) /\
     out_loss out = positional_sum (coefs self) tasks sub_losses /\
     coef_uses (w1 ++ w2) = coef_events 0 names /\
     (forall t, active tasks t = true ->
        In (loss_name t, task_index tasks t) (coef_uses (w1 ++ w2))) /\
     (forall name i, In (name, i) (coef_uses (w1 ++ w2)) ->
        (i < List.length (coefs self))%nat)) /\
  ((List.length (coefs self) < List.length names)%nat ->
   GeoPredModel_forward self graph_dict feed_dict return_subloss
     = Err (IndexError "coefs")) /\
  (List.length (coefs self) = 8%nat ->
   exists out w2,
     GeoPredModel_forward self graph_dict feed_dict return_subloss
       = Ok (out, w1 ++ w2)).
Proof.
  intros Hs tasks names. pose proof Hs as Hs'.
  apply forward_sub_losses_inv in Hs' as (rp & calls & _ & _ & _ & Hsubs & Hw1).
  assert (Hkeys : dict_keys sub_losses = names)
    by (rewrite Hsubs; apply entries_keys).
  assert (Hlen : List.length sub_losses = List.length names)
    by (rewrite <- Hkeys; unfold dict_keys; now rewrite length_map).
  assert (Hlen7 : (List.length names <= 7)%nat).
  { rewrite <- Hlen, Hsubs. apply (entries_length _ _ all_tasks). }
  pose proof (forward_split _ _ _ return_subloss Hs) as Hfwd.
  assert (Hok : (List.length names <= List.length (coefs self))%nat ->
                GeoPredModel_forward self graph_dict feed_dict return_subloss
                = Ok (let loss := weighting_acc (coefs self) sub_losses 0 0 in
                      if return_subloss then OutFull loss sub_losses (coefs self)
                      else OutLoss loss,
                      w1 ++ coef_trace 0 (dict_keys sub_losses))).
  { intros Hle. rewrite Hfwd, Hlen.
    destruct (Nat.leb_spec (List.length names) (List.length (coefs self)));
      [reflexivity | lia]. }
  split; [exact Hkeys|]. split; [exact Hlen7|]. split; [|split; [|split]].
  - intros t Hact. split; [apply task_index_bound|].
    pose proof (active_names_position _ _ Hact) as Hin.
    apply coef_events_nth in Hin. now rewrite Nat.sub_0_r in Hin.
  - intros Hle. do 2 eexists. split; [exact (Hok Hle)|].
    assert (Huses : coef_uses (w1 ++ coef_trace 0 (dict_keys sub_losses))
                    = coef_events 0 names).
    { unfold coef_uses. rewrite flat_map_app.
      fold (coef_uses w1). fold (coef_uses (coef_trace 0 (dict_keys sub_losses))).
      rewrite coef_uses_coef, Hkeys, Hw1.
      unfold coef_uses. rewrite flat_map_app.
      fold (coef_uses (encoder_events calls)). rewrite coef_uses_events.
      rewrite (blocks_trace_silent _ _ _ all_tasks) by (intros; apply block_no_coef).
      reflexivity. }
    rewrite Huses. repeat split.
    + assert (Hsum : weighting_acc (coefs self) sub_losses 0 0
                     = positional_sum (coefs self) tasks sub_losses).
      { rewrite weighting_acc_sum, Hsubs, weighted_sum_positional.
        apply Rplus_0_l. }
      destruct return_subloss; exact Hsum.
    + intros t Hact. now apply active_names_position.
    + intros name i Hin. apply coef_events_bound in Hin. lia.
  - intros Hlt. rewrite Hfwd, Hlen.
    destruct (Nat.leb_spec (List.length names) (List.length (coefs self)));
      [lia | reflexivity].
  - intros H8. do 2 eexists. apply Hok. lia.
Qed.

Lemma coefficient_positions_witness :
  let fw := Demo.framework in
  let self := Demo.model ["Fg"; "Blr"] [0; 1; 0; 0; 0; 0; 0; 0] in
  let gd := Demo.graph_dict 1 2 3 4 in
  exists sub_losses w1,
    forward_sub_losses self gd Demo.feed_dict = Ok (sub_losses, w1) /\
    let tasks := pretrain_tasks self in
    let names := active_names tasks in
    dict_keys sub_losses = names /\
    (List.length names <= 7)%nat /\
    (forall t, active tasks t = true ->
       (task_index tasks t < 7)%nat /\
       nth_error names (task_index tasks t) = Some (loss_name t)) /\
    ((List.length names <= List.length (coefs self))%nat ->
     exists out w2,
       GeoPredModel_forward self gd Demo.feed_dict false = Ok (out, w1 ++ w2) /\
       out_loss out = positional_sum (coefs self) tasks sub_losses /\
       coef_uses (w1 ++ w2) = coef_events 0 names /\
       (forall t, active tasks t = true ->
          In (loss_name t, task_index tasks t) (coef_uses (w1 ++ w2))) /\
       (forall name i, In (name, i) (coef_uses (w1 ++ w2)) ->
          (i < List.length (coefs self))%nat)) /\
    ((List.length (coefs self) < List.length names)%nat ->
     GeoPredModel_forward self gd Demo.feed_dict false = Err (IndexError "coefs")) /\
    (List.length (coefs self) = 8%nat ->
     exists out w2,
       GeoPredModel_forward self gd Demo.feed_dict false = Ok (out, w1 ++ w2)).
Proof.
  intros fw self gd.
  eassert (Hs : forward_sub_losses self gd Demo.feed_dict = Ok (_, _))
    by reflexivity.
  do 2 eexists. split; [exact Hs|].
  exact (@coefficient_positions fw self gd Demo.feed_dict false _ _ Hs).
Defined.

(** The loop does index [coefs]: with two active tasks and one coefficient
    it raises. *)
Example coefs_too_short :
  GeoPredModel_forward (fw := Demo.framework) (Demo.model ["Fg"; "Blr"] [0])
    (Demo.graph_dict 1 2 3 4) Demo.feed_dict false
  = Err (IndexError "coefs").
Proof. reflexivity. Qed.

(** The index a task reads depends on which tasks are active: [Blr] reads
    [coefs[0]] alone and [coefs[4]] when all seven tasks are active. *)
Example Blr_index_moves :
  task_index ["Blr"] T_Blr = 0%nat /\
  task_index ["Cm"; "Fg"; "Bar"; "Dar"; "Blr"; "Adc"; "Cl"] T_Blr = 4%nat.
Proof. split; reflexivity. Qed.

(** ** The unused contrastive head *)

Lemma init_pretrain_tasks {fw : Framework} model_config enc m :
  GeoPredModel_init model_config enc = Ok m ->
  cfg_list model_config "pretrain_tasks" = Ok (pretrain_tasks m) /\
  cfg_int model_config "hidden_size" = Ok (hidden_size m) /\
  cfg_str model_config "act" = Ok (act m) /\
  cfg_float model_config "dropout_rate" = Ok (dropout_rate m) /\
  (if py_in "Cl" (pretrain_tasks m)
   then exists vocab,
       cfg_int model_config "Cl_vocab" = Ok vocab /\
       Cl_vocab m = Some vocab /\
       Cl_linear m
       = Some (MLP 2 (hidden_size m) (act m) (embed_dim enc) 1 (dropout_rate m)) /\
       Cl_loss m = Some SmoothL1Loss
   else Cl_vocab m = None /\ Cl_linear m = None /\ Cl_loss m = None).
Proof.
  intros H. unfold GeoPredModel_init in H.
  rpeel H as hs Ehs. rpeel H as dr Edr. rpeel H as ac Eac. rpeel H as pt Ept.
  cbv zeta in H.
  rpeel H as [[cm1 cm2] cm3] Ecm. rpeel H as fg Efg.
  rpeel H as [[[b1 b2] b3] b4] Ebar.
  rpeel H as [[[[d1 d2] d3] d4] d5] Edar.
  rpeel H as [[l1 l2] l3] Eblr. rpeel H as [[a1 a2] a3] Eadc.
  rpeel H as [[c1 c2] c3] Ecl.
  cbn in H. injection H as <-.
  cbn [pretrain_tasks hidden_size act dropout_rate Cl_vocab Cl_linear Cl_loss].
  repeat (split; [assumption|]).
  destruct (py_in "Cl" pt).
  - rpeel Ecl as v Ev. cbn in Ecl. injection Ecl as <- <- <-.
    exists v. repeat split; auto.
  - cbn in Ecl. injection Ecl as <- <- <-. auto.
Qed.

Lemma with_Cl_head_weighting (self : GeoPredModel) vocab linear loss_fn subs names :
  forall loss cnt,
    forward_weighting (with_Cl_head self vocab linear loss_fn) subs names loss cnt
    = forward_weighting self subs names loss cnt.
Proof.
  induction names as [|n names IH]; intros loss cnt; [reflexivity|].
  cbn [forward_weighting]. cbn [coefs with_Cl_head].
  apply M_bind_ext; intros c. cbv zeta.
  apply M_bind_ext; intros s. apply M_bind_ext; intros c'.
  apply M_bind_ext; intros []. apply IH.
Qed.

Lemma with_Cl_head_sub_losses {fw : Framework} (self : GeoPredModel) vocab linear loss_fn
    graph_dict feed_dict :
  forward_sub_losses (with_Cl_head self vocab linear loss_fn) graph_dict feed_dict
  = forward_sub_losses self graph_dict feed_dict.
Proof. reflexivity. Qed.

(** C10. [forward] reads none of [Cl_vocab], [Cl_linear], [Cl_loss]: on
    any model, replacing the three attributes by anything leaves the result
    of [forward], trace included, unchanged, and the contrastive loss call is
    the same function of its two representations, [fp_score] and [rms] on
    every model. Yet with [Cl] active the constructor does set them:
    [Cl_vocab] from the configuration, an MLP [Cl_linear] of output size 1
    and [Cl_loss = SmoothL1Loss]. *)
Theorem Cl_head_is_unused {fw : Framework}
    (self : GeoPredModel) (graph_dict : dict Graph) (feed_dict : dict Tensor)
    (return_subloss : bool) :
  (forall vocab' linear' loss',
     GeoPredModel_forward (with_Cl_head self vocab' linear' loss')
       graph_dict feed_dict return_subloss
     = GeoPredModel_forward self graph_dict feed_dict return_subloss) /\
  (forall (other : GeoPredModel) x1 x2 mols rms,
     _get_Cl_loss other x1 x2 mols rms = _get_Cl_loss self x1 x2 mols rms) /\
  (forall model_config enc built,
     GeoPredModel_init model_config enc = Ok built ->
     py_in "Cl" (pretrain_tasks built) = true ->
     exists vocab,
       cfg_int model_config "Cl_vocab" = Ok vocab /\
       Cl_vocab built = Some vocab /\
       Cl_linear built
       = Some (MLP 2 (hidden_size built) (act built) (embed_dim enc) 1
                 (dropout_rate built)) /\
       Cl_loss built = Some SmoothL1Loss).
Proof.
  split; [|split].
  - intros. unfold GeoPredModel_forward. rewrite with_Cl_head_sub_losses.
    apply M_bind_ext; intros subs. rewrite with_Cl_head_weighting. reflexivity.
  - intros. reflexivity.
  - intros model_config enc built Hinit Hcl.
    apply init_pretrain_tasks in Hinit as (_ & _ & _ & _ & H).
    now rewrite Hcl in H.
Qed.

Lemma Cl_head_is_unused_witness :
  let fw := Demo.framework in
  let self := Demo.model ["Cl"] [0; 1; 0; 0; 0; 0; 0; 0] in
  let gd := Demo.graph_dict 1 2 3 4 in
  (forall vocab' linear' loss',
     GeoPredModel_forward (with_Cl_head self vocab' linear' loss')
       gd Demo.feed_dict true
     = GeoPredModel_forward self gd Demo.feed_dict true) /\
  (forall (other : GeoPredModel) x1 x2 mols rms,
     _get_Cl_loss other x1 x2 mols rms = _get_Cl_loss self x1 x2 mols rms) /\
  exists built vocab,
    GeoPredModel_init Demo.config_Cl (Demo.encoder 0) = Ok built /\
    py_in "Cl" (pretrain_tasks built) = true /\
    cfg_int Demo.config_Cl "Cl_vocab" = Ok vocab /\
    Cl_vocab built = Some vocab /\
    Cl_linear built
    = Some (MLP 2 (hidden_size built) (act built) (embed_dim (Demo.encoder 0)) 1
              (dropout_rate built)) /\
    Cl_loss built = Some SmoothL1Loss.
Proof.
  intros fw self gd.
  destruct (Cl_head_is_unused (fw := fw) self gd Demo.feed_dict true)
    as (Hfwd & Hcall & Hinit).
  split; [exact Hfwd|]. split; [exact Hcall|].
  destruct (Hinit Demo.config_Cl (Demo.encoder 0) _ eq_refl eq_refl)
    as (vocab & H1 & H2 & H3 & H4).
  eexists. exists vocab. split; [reflexivity|]. split; [reflexivity|].
  repeat split; assumption.
Defined.
(** ** Exceptions of the encoder *)

Lemma raises_bind {A B} (P : exn -> Prop) (m : result A) (f : A -> result B) :
  raises_only P m ->
  (forall a, m = Ok a -> raises_only P (f a)) ->
  raises_only P (x <- m ;; f x).
Proof. destruct m as [a|e]; simpl; auto. Qed.

Lemma raises_weaken {A} (P Q : exn -> Prop) (r : result A) :
  (forall e, P e -> Q e) -> raises_only P r -> raises_only Q r.
Proof. destruct r; simpl; auto. Qed.

Lemma list_get_in_range {A} (xs : list A) i what :
  (i < List.length xs)%nat -> exists x, list_get xs i what = Ok x /\ In x xs.
Proof.
  intros H. unfold list_get. destruct (nth_error xs i) eqn:E.
  - eexists. split; [reflexivity|]. eapply nth_error_In, E.
  - apply nth_error_None in E. lia.
Qed.

Lemma list_last_nonempty {A} (xs : list A) what :
  (0 < List.length xs)%nat -> exists x, list_last xs what = Ok x.
Proof.
  intros H. unfold list_last. destruct (rev xs) eqn:E; eauto.
  apply (f_equal (@List.length A)) in E. rewrite length_rev in E. simpl in E. lia.
Qed.

Section EncoderRaises.
Context {fw : Framework}.
Variable P : exn -> Prop.
Hypothesis add_raises : forall x y, raises_only P (tadd x y).

Lemma block_forward_raises blk graph nh eh :
  block_built P blk -> raises_only P (GeoGNNBlock_forward blk graph nh eh).
Proof.
  intros [Hgnn Hnorm Hgn Hact Hdrop]. unfold GeoGNNBlock_forward.
  apply raises_bind; [apply Hgnn|]. intros [n0 e0] _.
  apply raises_bind; [apply Hnorm|]. intros n1 _.
  apply raises_bind; [apply Hnorm|]. intros e1 _.
  apply raises_bind; [apply Hgn|]. intros n2 _.
  apply raises_bind.
  - destruct (blk_last_act blk); [|exact I].
    destruct (Hact eq_refl) as (a & -> & Ha). cbn [attr].
    apply raises_bind; [exact I|]. intros a1 E1. injection E1 as <-.
    apply raises_bind; [apply Ha|]. intros n3 _.
    apply raises_bind; [exact I|]. intros a2 E2. injection E2 as <-.
    apply raises_bind; [apply Ha|]. intros e3 _. exact I.
  - intros [n3 e3] _.
    apply raises_bind; [apply Hdrop|]. intros n4 _.
    apply raises_bind; [apply Hdrop|]. intros e4 _.
    apply raises_bind; [apply add_raises|]. intros n5 _.
    apply raises_bind; [apply add_raises|]. intros e5 _. exact I.
Qed.

Variable self : GeoGNNModel.
Hypothesis built : encoder_built P self.
Variables atom_bond_graph bond_angle_graph dihes_angle_graph : Graph.

Ltac get_layer xs :=
  match goal with
  | |- context [list_get xs ?i ?what] =>
      let x := fresh "x" in let E := fresh "E" in let Hin := fresh "Hin" in
      destruct (@list_get_in_range _ xs i what) as (x & E & Hin);
      [ lia | rewrite E; cbn [bind result_monad] ]
  end.

Lemma layer_raises_only st layer_id :
  (layer_id < Z.to_nat (layer_num self))%nat ->
  lists_of_length (S layer_id) st ->
  raises_only P
    (GeoGNNModel_layer self atom_bond_graph bond_angle_graph dihes_angle_graph
       st layer_id) /\
  (forall st',
     GeoGNNModel_layer self atom_bond_graph bond_angle_graph dihes_angle_graph
       st layer_id = Ok st' ->
     lists_of_length (S (S layer_id)) st').
Proof.
  destruct built. intros Hid (Ln & Le & Ls). split.
  - unfold GeoGNNModel_layer.
    get_layer (bond_embedding_list self). rewrite Forall_forall in built_bond0.
    apply raises_bind; [apply built_bond0, Hin|]. intros cur_e _.
    get_layer (bond_float_rbf_list self). rewrite Forall_forall in built_rbf0.
    apply raises_bind; [apply built_rbf0, Hin0|]. intros cur_rbf _.
    apply raises_bind; [apply add_raises|]. intros cur_edge _.
    get_layer (bond_angle_float_rbf_list self). rewrite Forall_forall in built_angle0.
    apply raises_bind; [apply built_angle0, Hin1|]. intros cur_angle _.
    get_layer (dihes_angle_float_rbf_list self). rewrite Forall_forall in built_dihes0.
    apply raises_bind; [apply built_dihes0, Hin2|]. intros cur_dihes _.
    get_layer (atom_bond_block_list self). rewrite Forall_forall in built_ab0.
    get_layer (node_hidden_list st). get_layer (edge_hidden_list st).
    apply raises_bind; [apply block_forward_raises, built_ab0, Hin3|].
    intros [node_hidden edge_hidden_1] _.
    get_layer (bond_angle_block_list self). rewrite Forall_forall in built_ba0.
    apply raises_bind; [apply add_raises|]. intros seed2 _.
    get_layer (super_edge_hidden_list st).
    apply raises_bind; [apply block_forward_raises, built_ba0, Hin6|].
    intros [edge_hidden dihes_node_hidden_1] _.
    get_layer (dihes_angle_list self). rewrite Forall_forall in built_da0.
    apply raises_bind; [apply add_raises|]. intros seed3 _.
    apply raises_bind; [apply block_forward_raises, built_da0, Hin8|].
    intros [dihes_node_hidden ignored] _. exact I.
  - intros st' H. unfold GeoGNNModel_layer in H.
    repeat match type of H with
           | bind _ _ = Ok _ =>
               let x := fresh "x" in let E := fresh "E" in rpeel H as x E
           | (let (_, _) := ?p in _) = Ok _ => destruct p
           end.
    cbn in H. injection H as <-. unfold lists_of_length. cbn.
    rewrite !length_app. cbn. lia.
Qed.

Lemma layers_raise_only len : forall start st,
  (start + len <= Z.to_nat (layer_num self))%nat ->
  lists_of_length (S start) st ->
  raises_only P
    (foldM (GeoGNNModel_layer self atom_bond_graph bond_angle_graph dihes_angle_graph)
       st (seq start len)) /\
  (forall st',
     foldM (GeoGNNModel_layer self atom_bond_graph bond_angle_graph dihes_angle_graph)
       st (seq start len) = Ok st' ->
     lists_of_length (S (start + len)) st').
Proof.
  induction len as [|len IH]; intros start st Hle Hst.
  - cbn. rewrite Nat.add_0_r. split; [exact I|]. intros st' H. now injection H as <-.
  - cbn [seq foldM].
    destruct (@layer_raises_only st start) as [Hr Hl]; [lia | assumption |].
    split.
    + apply raises_bind; [exact Hr|]. intros st1 E1.
      apply IH; [lia | now apply Hl].
    + intros st' H. rpeel H as st1 E1.
      replace (start + S len)%nat with (S start + len)%nat by lia.
      eapply IH; [lia | apply Hl, E1 | exact H].
Qed.

Lemma encoder_forward_raises :
  raises_only P
    (GeoGNNModel_forward self atom_bond_graph bond_angle_graph dihes_angle_graph).
Proof.
  unfold GeoGNNModel_forward.
  apply raises_bind; [apply (built_init_atom built)|]. intros n0 _.
  apply raises_bind; [apply (built_init_bond built)|]. intros b0 _.
  apply raises_bind; [apply (built_init_rbf built)|]. intros r0 _.
  apply raises_bind; [apply add_raises|]. intros e0 _.
  apply raises_bind; [apply (built_init_super built)|]. intros s0 _.
  destruct (@layers_raise_only (Z.to_nat (layer_num self)) 0%nat
              {| node_hidden_list := [n0]; edge_hidden_list := [e0];
                 super_edge_hidden_list := [s0] |}) as [Hr Hl].
  { lia. }
  { unfold lists_of_length. cbn. auto. }
  apply raises_bind; [exact Hr|]. intros st Est.
  apply Hl in Est as (Ln & Le & _).
  destruct (@list_last_nonempty _ (edge_hidden_list st) "edge_hidden_list")
    as (er & ->); [lia|]. cbn [bind result_monad].
  destruct (@list_last_nonempty _ (node_hidden_list st) "node_hidden_list")
    as (nr & ->); [lia|]. cbn [bind result_monad].
  apply raises_bind; [apply (built_pool built)|]. intros gr _. exact I.
Qed.

End EncoderRaises.

(** ** The constructors *)

Section Constructors.
Context {fw : Framework}.

Lemma range_length n : List.length (range n) = Z.to_nat n.
Proof. unfold range. apply length_seq. Qed.

Lemma nth_error_range n i k : nth_error (range n) i = Some k -> k = i.
Proof.
  unfold range. intros H.
  assert (Hi : (i < List.length (seq 0 (Z.to_nat n)))%nat)
    by (apply nth_error_Some; congruence).
  rewrite length_seq in Hi.
  rewrite (nth_error_nth' _ 0%nat) in H by (rewrite length_seq; lia).
  rewrite seq_nth in H by lia. injection H as <-. lia.
Qed.

Lemma GeoGNNModel_init_inv model_config self :
  GeoGNNModel_init model_config = Ok self ->
  exists d p n r an bn bfn bafn,
    cfg_get as_int model_config "embed_dim" 32%Z = Ok d /\
    cfg_get as_float model_config "dropout_rate" (2 / 10) = Ok p /\
    cfg_get as_int model_config "layer_num" 8%Z = Ok n /\
    cfg_get as_str model_config "readout" "mean" = Ok r /\
    cfg_list model_config "atom_names" = Ok an /\
    cfg_list model_config "bond_names" = Ok bn /\
    cfg_list model_config "bond_float_names" = Ok bfn /\
    cfg_list model_config "bond_angle_float_names" = Ok bafn /\
    let block (i : nat) := GeoGNNBlock_init d p (negb (Z.of_nat i =? n - 1)%Z) in
    self = {| embed_dim := d; enc_dropout_rate := p; layer_num := n; readout := r;
              atom_names := an; bond_names := bn; bond_float_names := bfn;
              bond_angle_float_names := bafn;
              dihes_bond_float_names := ["dihes_angle"];
              init_atom_embedding := AtomEmbedding an d;
              init_bond_embedding := BondEmbedding bn d;
              init_bond_float_rbf := BondFloatRBF bfn d;
              init_super_edge_embedding := BondAngleFloatRBF bafn d;
              bond_embedding_list := map (fun _ => BondEmbedding bn d) (range n);
              bond_float_rbf_list := map (fun _ => BondFloatRBF bfn d) (range n);
              bond_angle_float_rbf_list :=
                map (fun _ => BondAngleFloatRBF bafn d) (range n);
              dihes_angle_float_rbf_list :=
                map (fun _ => BondAngleFloatRBF ["dihes_angle"] d) (range n);
              atom_bond_block_list := map block (range n);
              bond_angle_block_list := map block (range n);
              dihes_angle_list := map block (range n);
              graph_pool := if String.eqb r "mean" then MeanPool else GraphPool r |}.
Proof.
  intros H. unfold GeoGNNModel_init in H.
  rpeel H as d Ed. rpeel H as p Ep. rpeel H as n En. rpeel H as r Er.
  rpeel H as an Ean. rpeel H as bn Ebn. rpeel H as bfn Ebfn. rpeel H as bafn Ebafn.
  cbn in H. injection H as <-.
  exists d, p, n, r, an, bn, bfn, bafn. repeat (split; [assumption|]). reflexivity.
Qed.

Lemma nth_error_blocks d p n i blk :
  nth_error (map (fun i => GeoGNNBlock_init d p (negb (Z.of_nat i =? n - 1)%Z)) (range n)) i
  = Some blk ->
  blk = GeoGNNBlock_init d p (negb (Z.of_nat i =? n - 1)%Z).
Proof.
  intros H. rewrite nth_error_map in H.
  destruct (nth_error (range n) i) as [k|] eqn:E; [|discriminate].
  apply nth_error_range in E. subst k. now injection H as <-.
Qed.

End Constructors.

(** ** What the encoder's constructor builds *)

(** X1. For every configuration the constructor accepts, each of the seven
    [LayerList]s has [max(layer_num, 0)] entries, and the block at position
    [i] of each block list is built for [embed_dim] with
    [last_act = (i != layer_num - 1)]: every block but the last has its
    activation, the last one has none. *)
Theorem encoder_init_layers {fw : Framework} (model_config : dict Value)
    (self : GeoGNNModel) :
  GeoGNNModel_init model_config = Ok self ->
  let n := Z.to_nat (layer_num self) in
  List.length (bond_embedding_list self) = n /\
  List.length (bond_float_rbf_list self) = n /\
  List.length (bond_angle_float_rbf_list self) = n /\
  List.length (dihes_angle_float_rbf_list self) = n /\
  List.length (atom_bond_block_list self) = n /\
  List.length (bond_angle_block_list self) = n /\
  List.length (dihes_angle_list self) = n /\
  (forall i blk,
     nth_error (atom_bond_block_list self) i = Some blk \/
     nth_error (bond_angle_block_list self) i = Some blk \/
     nth_error (dihes_angle_list self) i = Some blk ->
     blk_embed_dim blk = embed_dim self /\
     blk_last_act blk = negb (Z.of_nat i =? layer_num self - 1)%Z /\
     (blk_act blk = None <-> Z.of_nat i = (layer_num self - 1)%Z)).
Proof.
  intros H. apply GeoGNNModel_init_inv in H
    as (d & p & n & r & an & bn & bfn & bafn & _ & _ & _ & _ & _ & _ & _ & _ & ->).
  cbn. rewrite !length_map, range_length. do 7 (split; [reflexivity|]).
  intros i blk Hblk.
  assert (E : blk = GeoGNNBlock_init d p (negb (Z.of_nat i =? n - 1)%Z))
    by (destruct Hblk as [H|[H|H]]; exact (nth_error_blocks _ _ _ _ H)).
  subst blk. cbn. repeat split.
  - destruct (Z.eqb_spec (Z.of_nat i) (n - 1)); cbn; intros H;
      [assumption | discriminate].
  - destruct (Z.eqb_spec (Z.of_nat i) (n - 1)); cbn; intros H;
      [reflexivity | contradiction].
Qed.

Lemma encoder_init_layers_witness :
  let fw := Demo.framework in
  let self := Demo.encoder 2 in
  GeoGNNModel_init (Demo.encoder_config 2) = Ok self /\
  let n := Z.to_nat (layer_num self) in
  List.length (bond_embedding_list self) = n /\
  List.length (bond_float_rbf_list self) = n /\
  List.length (bond_angle_float_rbf_list self) = n /\
  List.length (dihes_angle_float_rbf_list self) = n /\
  List.length (atom_bond_block_list self) = n /\
  List.length (bond_angle_block_list self) = n /\
  List.length (dihes_angle_list self) = n /\
  (forall i blk,
     nth_error (atom_bond_block_list self) i = Some blk \/
     nth_error (bond_angle_block_list self) i = Some blk \/
     nth_error (dihes_angle_list self) i = Some blk ->
     blk_embed_dim blk = embed_dim self /\
     blk_last_act blk = negb (Z.of_nat i =? layer_num self - 1)%Z /\
     (blk_act blk = None <-> Z.of_nat i = (layer_num self - 1)%Z)).
Proof.
  intros fw self. split; [reflexivity|].
  apply (encoder_init_layers (fw := fw) (Demo.encoder_config 2)). reflexivity.
Defined.

(** X2. A configuration the constructor accepts holds the four name lists
    ([atom_names], [bond_names], [bond_float_names],
    [bond_angle_float_names]), which become the encoder's; a configuration
    that lacks one of them is not accepted. [embed_dim], [dropout_rate],
    [layer_num] and [readout] are the configured values (an integer
    [dropout_rate] read as a float) or, for an absent key, 32, 0.2, 8 and
    ["mean"].
    Pooling is [MeanPool] exactly when [readout] is ["mean"]. *)
Theorem encoder_init_config {fw : Framework} (model_config : dict Value)
    (self : GeoGNNModel) :
  GeoGNNModel_init model_config = Ok self ->
  cfg_list model_config "atom_names" = Ok (atom_names self) /\
  cfg_list model_config "bond_names" = Ok (bond_names self) /\
  cfg_list model_config "bond_float_names" = Ok (bond_float_names self) /\
  cfg_list model_config "bond_angle_float_names" = Ok (bond_angle_float_names self) /\
  dihes_bond_float_names self = ["dihes_angle"] /\
  (forall key, In key ["atom_names"; "bond_names"; "bond_float_names";
                       "bond_angle_float_names"] ->
     dict_find model_config key <> None) /\
  (dict_find model_config "embed_dim" = None -> embed_dim self = 32%Z) /\
  (dict_find model_config "dropout_rate" = None -> enc_dropout_rate self = 2 / 10) /\
  (dict_find model_config "layer_num" = None -> layer_num self = 8%Z) /\
  (dict_find model_config "readout" = None -> readout self = "mean") /\
  (forall v, dict_find model_config "embed_dim" = Some v -> v = VInt (embed_dim self)) /\
  (forall v, dict_find model_config "dropout_rate" = Some v ->
     as_float "dropout_rate" v = Ok (enc_dropout_rate self)) /\
  (forall v, dict_find model_config "layer_num" = Some v -> v = VInt (layer_num self)) /\
  (forall v, dict_find model_config "readout" = Some v -> v = VStr (readout self)) /\
  graph_pool self
  = (if String.eqb (readout self) "mean" then MeanPool else GraphPool (readout self)).
Proof.
  intros H. apply GeoGNNModel_init_inv in H
    as (d & p & n & r & an & bn & bfn & bafn & Ed & Ep & En & Er
        & Ean & Ebn & Ebfn & Ebafn & ->).
  cbn. do 4 (split; [assumption|]). split; [reflexivity|].
  unfold cfg_get in Ed, Ep, En, Er. unfold cfg_list, dict_get in *.
  split.
  { intros key [<-|[<-|[<-|[<-|[]]]]] Hnone.
    - rewrite Hnone in Ean. discriminate.
    - rewrite Hnone in Ebn. discriminate.
    - rewrite Hnone in Ebfn. discriminate.
    - rewrite Hnone in Ebafn. discriminate. }
  repeat split.
  - intros Hn. rewrite Hn in Ed. congruence.
  - intros Hn. rewrite Hn in Ep. congruence.
  - intros Hn. rewrite Hn in En. congruence.
  - intros Hn. rewrite Hn in Er. congruence.
  - intros v Hv. rewrite Hv in Ed. destruct v; cbn in Ed; congruence.
  - intros v Hv. rewrite Hv in Ep. exact Ep.
  - intros v Hv. rewrite Hv in En. destruct v; cbn in En; congruence.
  - intros v Hv. rewrite Hv in Er. destruct v; cbn in Er; congruence.
Qed.

Lemma encoder_init_config_witness :
  let fw := Demo.framework in
  let model_config := Demo.encoder_config 2 in
  let self := Demo.encoder 2 in
  GeoGNNModel_init model_config = Ok self /\
  cfg_list model_config "atom_names" = Ok (atom_names self) /\
  cfg_list model_config "bond_names" = Ok (bond_names self) /\
  cfg_list model_config "bond_float_names" = Ok (bond_float_names self) /\
  cfg_list model_config "bond_angle_float_names" = Ok (bond_angle_float_names self) /\
  dihes_bond_float_names self = ["dihes_angle"] /\
  (forall key, In key ["atom_names"; "bond_names"; "bond_float_names";
                       "bond_angle_float_names"] ->
     dict_find model_config key <> None) /\
  (dict_find model_config "embed_dim" = None -> embed_dim self = 32%Z) /\
  (dict_find model_config "dropout_rate" = None -> enc_dropout_rate self = 2 / 10) /\
  (dict_find model_config "layer_num" = None -> layer_num self = 8%Z) /\
  (dict_find model_config "readout" = None -> readout self = "mean") /\
  (forall v, dict_find model_config "embed_dim" = Some v -> v = VInt (embed_dim self)) /\
  (forall v, dict_find model_config "dropout_rate" = Some v ->
     as_float "dropout_rate" v = Ok (enc_dropout_rate self)) /\
  (forall v, dict_find model_config "layer_num" = Some v -> v = VInt (layer_num self)) /\
  (forall v, dict_find model_config "readout" = Some v -> v = VStr (readout self)) /\
  graph_pool self
  = (if String.eqb (readout self) "mean" then MeanPool else GraphPool (readout self)).
Proof.
  intros fw model_config self. split; [reflexivity|].
  apply (encoder_init_config (fw := fw) model_config). reflexivity.
Defined.

(** ** The encoder raises only what its layers raise *)

Lemma GeoGNNBlock_init_built {fw : Framework} (P : exn -> Prop) d p last_act :
  framework_raises P fw -> block_built P (GeoGNNBlock_init d p last_act).
Proof.
  intros Hfw. destruct Hfw. constructor; cbn; auto.
  intros ->. eauto.
Qed.

Lemma GeoGNNModel_init_built {fw : Framework} (P : exn -> Prop) model_config self :
  framework_raises P fw ->
  GeoGNNModel_init model_config = Ok self -> encoder_built P self.
Proof.
  intros Hfw H. apply GeoGNNModel_init_inv in H
    as (d & p & n & r & an & bn & bfn & bafn & _ & _ & _ & _ & _ & _ & _ & _ & ->).
  pose proof Hfw as Hfw'. destruct Hfw'.
  constructor; cbn; rewrite ?length_map, ?range_length; auto;
    try (apply Forall_map_const; intros; auto using GeoGNNBlock_init_built).
  destruct (String.eqb r "mean"); auto.
Qed.

(** X3. On an encoder whose lists and blocks are as the constructor leaves
    them (one entry per layer, [act] set wherever [last_act] is), at any
    parameters, [forward] returns or raises an exception one of its layers
    raised: its own list indexing and its read of [self.act] never fail. The
    constructor leaves every encoder it builds in that shape. *)
Theorem encoder_forward_raises_only {fw : Framework} (P : exn -> Prop)
    (self : GeoGNNModel) (atom_bond_graph bond_angle_graph dihes_angle_graph : Graph) :
  (forall x y, raises_only P (tadd x y)) ->
  encoder_built P self ->
  raises_only P
    (GeoGNNModel_forward self atom_bond_graph bond_angle_graph dihes_angle_graph) /\
  (forall model_config built,
     framework_raises P fw -> GeoGNNModel_init model_config = Ok built ->
     encoder_built P built).
Proof.
  intros Hadd Hbuilt. split.
  - now apply encoder_forward_raises.
  - intros model_config built Hfw Hinit. eapply GeoGNNModel_init_built; eauto.
Qed.

Lemma demo_framework_raises :
  framework_raises (fun e => e = FrameworkError "layer_norm") Demo.framework.
Proof.
  constructor;
    unfold layer_raises, loss_raises, graph_layer_raises, feat_layer_raises;
    cbn; intros; cbn; try exact I.
  match goal with |- context [(?a =? ?b)%Z] => destruct (a =? b)%Z end; cbn; auto.
Qed.

Lemma demo_encoder_built n :
  encoder_built (fun e => e = FrameworkError "layer_norm") (Demo.encoder n).
Proof.
  apply (GeoGNNModel_init_built (fw := Demo.framework) (Demo.encoder_config n)).
  - exact demo_framework_raises.
  - reflexivity.
Qed.

Lemma encoder_forward_raises_only_witness :
  let fw := Demo.framework in
  let P := fun e => e = FrameworkError "layer_norm" in
  let self := Demo.encoder 2 in
  (forall x y, raises_only P (tadd x y)) /\
  encoder_built P self /\
  raises_only P (GeoGNNModel_forward self (Demo.graph 1) (Demo.graph 2) (Demo.graph 3)) /\
  (forall model_config built,
     framework_raises P fw -> GeoGNNModel_init model_config = Ok built ->
     encoder_built P built).
Proof.
  intros fw P self.
  split; [exact (raises_tadd demo_framework_raises)|].
  split; [exact (demo_encoder_built 2)|].
  apply (@encoder_forward_raises_only fw P self
           (Demo.graph 1) (Demo.graph 2) (Demo.graph 3)
           (raises_tadd demo_framework_raises) (demo_encoder_built 2)).
Defined.

(** ** What the head's constructor builds *)

Lemma GeoPredModel_init_inv {fw : Framework} (model_config : dict Value)
    (enc : GeoGNNModel) (self : GeoPredModel) :
  GeoPredModel_init model_config enc = Ok self ->
  let tasks := pretrain_tasks self in
  let d := embed_dim enc in
  let mlp i o := MLP 2 (hidden_size self) (act self) i o (dropout_rate self) in
  compound_encoder self = enc /\
  coefs self = repeat 0 8 /\
  cfg_int model_config "hidden_size" = Ok (hidden_size self) /\
  cfg_float model_config "dropout_rate" = Ok (dropout_rate self) /\
  cfg_str model_config "act" = Ok (act self) /\
  cfg_list model_config "pretrain_tasks" = Ok tasks /\
  (exists size, cfg_int model_config "Fg_size" = Ok size /\
                Fg_linear self = mlp d size) /\
  Fg_loss self = BCEWithLogitsLoss /\
  guarded tasks "Cm" "Cm_vocab" model_config (Cm_vocab self)
    (Cm_linear self, Cm_loss self)
    (fun v => (Some (mlp d (v + 2)%Z), Some CrossEntropyLoss)) (None, None) /\
  guarded tasks "Bar" "Bar_vocab" model_config (Bar_vocab self)
    (Bar_mlp_1 self, Bar_mlp_2 self, Bar_loss self)
    (fun v => (Some (mlp (d * 2)%Z d), Some (mlp (d * 2)%Z (v + 2)%Z),
               Some CrossEntropyLoss))
    (None, None, None) /\
  guarded tasks "Dar" "Dar_vocab" model_config (Dar_vocab self)
    (Dar_mlp1 self, Dar_loss self, Dar_mlp2 self, Dar_loss_extra self)
    (fun v => (Some (mlp (d * 3)%Z d), Some CrossEntropyLoss,
               Some (mlp (d * 2)%Z (v + 2)%Z), Some CrossEntropyLoss))
    (None, None, None, None) /\
  guarded tasks "Blr" "Blr_vocab" model_config (Blr_vocab self)
    (Blr_mlp self, Blr_loss self)
    (fun _ => (Some (mlp (d * 2)%Z 1%Z), Some SmoothL1Loss)) (None, None) /\
  guarded tasks "Adc" "Adc_vocab" model_config (Adc_vocab self)
    (Adc_mlp self, Adc_loss self)
    (fun _ => (Some (mlp (d * 2)%Z 1%Z), Some SmoothL1Loss)) (None, None) /\
  guarded tasks "Cl" "Cl_vocab" model_config (Cl_vocab self)
    (Cl_linear self, Cl_loss self)
    (fun _ => (Some (mlp d 1%Z), Some SmoothL1Loss)) (None, None).
Proof.
  intros H. unfold GeoPredModel_init in H.
  rpeel H as hs Ehs. rpeel H as dr Edr. rpeel H as ac Eac. rpeel H as pt Ept.
  cbv zeta in H.
  rpeel H as [[cm1 cm2] cm3] Ecm. rpeel H as fg Efg.
  rpeel H as [[[b1 b2] b3] b4] Ebar.
  rpeel H as [[[[d1 d2] d3] d4] d5] Edar.
  rpeel H as [[l1 l2] l3] Eblr. rpeel H as [[a1 a2] a3] Eadc.
  rpeel H as [[c1 c2] c3] Ecl.
  cbn in H. injection H as <-. cbv zeta. unfold guarded.
  cbn [compound_encoder coefs hidden_size dropout_rate act pretrain_tasks
       Fg_linear Fg_loss Cm_vocab Cm_linear Cm_loss Bar_vocab Bar_mlp_1 Bar_mlp_2
       Bar_loss Dar_vocab Dar_mlp1 Dar_loss Dar_mlp2 Dar_loss_extra Blr_vocab
       Blr_mlp Blr_loss Adc_vocab Adc_mlp Adc_loss Cl_vocab Cl_linear Cl_loss].
  do 6 (split; [first [assumption | reflexivity]|]).
  split; [eauto|]. split; [reflexivity|].
  repeat split;
    match goal with
    | E : (if py_in ?tag pt then _ else _) = Ok _ |- (if py_in ?tag pt then _ else _) =>
        destruct (py_in tag pt);
        [ let v := fresh "v" in let Ev := fresh "Ev" in
          rpeel E as v Ev; cbn in E; injection E; intros; subst;
          exists v; repeat split; assumption
        | cbn in E; injection E; intros; subst; split; reflexivity ]
    end.
Qed.

(** X4. A configuration the head's constructor accepts holds
    [hidden_size], [dropout_rate], [act], [pretrain_tasks] and [Fg_size];
    the model keeps the encoder it was given and starts from eight zero
    coefficients. [Fg_linear] is always built. Each of Cm, Bar, Dar, Blr,
    Adc, Cl has its vocabulary read and its attributes set when its tag is
    in [pretrain_tasks], and none of them otherwise; the classification
    heads of Cm, Bar and Dar have [vocab + 2] outputs, the regression heads
    one. *)
Theorem head_init_builds {fw : Framework} (model_config : dict Value)
    (enc : GeoGNNModel) (self : GeoPredModel) :
  GeoPredModel_init model_config enc = Ok self ->
  let tasks := pretrain_tasks self in
  let d := embed_dim enc in
  let mlp i o := MLP 2 (hidden_size self) (act self) i o (dropout_rate self) in
  compound_encoder self = enc /\
  coefs self = repeat 0 8 /\
  cfg_int model_config "hidden_size" = Ok (hidden_size self) /\
  cfg_float model_config "dropout_rate" = Ok (dropout_rate self) /\
  cfg_str model_config "act" = Ok (act self) /\
  cfg_list model_config "pretrain_tasks" = Ok tasks /\
  (exists size, cfg_int model_config "Fg_size" = Ok size /\
                Fg_linear self = mlp d size) /\
  Fg_loss self = BCEWithLogitsLoss /\
  guarded tasks "Cm" "Cm_vocab" model_config (Cm_vocab self)
    (Cm_linear self, Cm_loss self)
    (fun v => (Some (mlp d (v + 2)%Z), Some CrossEntropyLoss)) (None, None) /\
  guarded tasks "Bar" "Bar_vocab" model_config (Bar_vocab self)
    (Bar_mlp_1 self, Bar_mlp_2 self, Bar_loss self)
    (fun v => (Some (mlp (d * 2)%Z d), Some (mlp (d * 2)%Z (v + 2)%Z),
               Some CrossEntropyLoss))
    (None, None, None) /\
  guarded tasks "Dar" "Dar_vocab" model_config (Dar_vocab self)
    (Dar_mlp1 self, Dar_loss self, Dar_mlp2 self, Dar_loss_extra self)
    (fun v => (Some (mlp (d * 3)%Z d), Some CrossEntropyLoss,
               Some (mlp (d * 2)%Z (v + 2)%Z), Some CrossEntropyLoss))
    (None, None, None, None) /\
  guarded tasks "Blr" "Blr_vocab" model_config (Blr_vocab self)
    (Blr_mlp self, Blr_loss self)
    (fun _ => (Some (mlp (d * 2)%Z 1%Z), Some SmoothL1Loss)) (None, None) /\
  guarded tasks "Adc" "Adc_vocab" model_config (Adc_vocab self)
    (Adc_mlp self, Adc_loss self)
    (fun _ => (Some (mlp (d * 2)%Z 1%Z), Some SmoothL1Loss)) (None, None) /\
  guarded tasks "Cl" "Cl_vocab" model_config (Cl_vocab self)
    (Cl_linear self, Cl_loss self)
    (fun _ => (Some (mlp d 1%Z), Some SmoothL1Loss)) (None, None).
Proof. exact (@GeoPredModel_init_inv fw model_config enc self). Qed.

Lemma head_init_builds_witness :
  let fw := Demo.framework in
  let model_config := Demo.config_Cl in
  let enc := Demo.encoder 0 in
  exists self,
    GeoPredModel_init model_config enc = Ok self /\
    pretrain_tasks self = ["Cl"] /\
    compound_encoder self = enc /\
    coefs self = repeat 0 8 /\
    Cm_linear self = None /\
    Cl_vocab self <> None.
Proof.
  intros fw model_config enc.
  destruct (GeoPredModel_init model_config enc) as [self|e] eqn:E;
    [|vm_compute in E; discriminate E].
  exists self. split; [reflexivity|].
  pose proof (@head_init_builds fw model_config enc self E)
    as (Henc & Hcoefs & _ & _ & _ & Htasks & _ & _ & Hcm & _ & _ & _ & _ & Hcl).
  assert (Ht : pretrain_tasks self = ["Cl"]).
  { vm_compute in Htasks. injection Htasks as Hx. symmetry. exact Hx. }
  unfold guarded in Hcm, Hcl. rewrite Ht in Hcm, Hcl. cbn in Hcm, Hcl.
  destruct Hcm as [_ Hcm]. destruct Hcl as (v & _ & -> & _).
  repeat split; try assumption; [now injection Hcm | discriminate].
Defined.

(** ** The head raises only a missing key or what the framework raises *)

Lemma GeoPredModel_init_built {fw : Framework} (P : exn -> Prop) model_config enc self :
  framework_raises P fw -> encoder_built P enc ->
  GeoPredModel_init model_config enc = Ok self -> head_built P self.
Proof.
  intros Hfw Henc H.
  apply GeoPredModel_init_inv in H
    as (Hen & Hco & _ & _ & _ & _ & (size & _ & Hfg) & Hfl
        & Hcm & Hbar & Hdar & Hblr & Hadc & _).
  unfold guarded in *.
  pose proof (raises_MLP Hfw) as Hm.
  pose proof (raises_CrossEntropyLoss Hfw) as Hc.
  pose proof (raises_SmoothL1Loss Hfw) as Hs.
  constructor.
  - now rewrite Hen.
  - rewrite Hco. reflexivity.
  - rewrite Hfg. apply (raises_MLP Hfw).
  - rewrite Hfl. apply (raises_BCEWithLogitsLoss Hfw).
  - intros Ha. rewrite Ha in Hcm. destruct Hcm as (v & _ & _ & E).
    injection E as -> ->. unfold has_layer, has_loss.
    repeat split; eauto.
  - intros Ha. rewrite Ha in Hbar. destruct Hbar as (v & _ & -> & E).
    injection E as -> -> ->. unfold has_layer, has_loss, has_vocab.
    repeat split; eauto.
  - intros Ha. rewrite Ha in Hdar. destruct Hdar as (v & _ & -> & E).
    injection E as -> -> -> ->. unfold has_layer, has_loss, has_vocab.
    repeat split; eauto.
  - intros Ha. rewrite Ha in Hblr. destruct Hblr as (v & _ & _ & E).
    injection E as -> ->. unfold has_layer, has_loss.
    repeat split; eauto.
  - intros Ha. rewrite Ha in Hadc. destruct Hadc as (v & _ & _ & E).
    injection E as -> ->. unfold has_layer, has_loss.
    repeat split; eauto.
Qed.

(** ** The head raises only a missing key or what the framework raises *)

Lemma raises_M_bind {A B} (P : exn -> Prop) (m : M A) (f : A -> M B) :
  raises_only P m ->
  (forall a w, m = Ok (a, w) -> raises_only P (f a)) ->
  raises_only P (x <- m ;; f x).
Proof.
  destruct m as [[a w]|e]; simpl; auto.
  intros _ H. specialize (H a w eq_refl). destruct (f a) as [[b w2]|]; auto.
Qed.

Lemma raises_lift_bind {A B} (P : exn -> Prop) (r : result A) (f : A -> M B) :
  raises_only P r ->
  (forall a, r = Ok a -> raises_only P (f a)) ->
  raises_only P (x <~ r ;; f x).
Proof.
  rewrite M_bind_lift. destruct r as [a|e]; simpl; auto.
Qed.

Lemma dict_get_raises {V} (P : exn -> Prop) (d : dict V) k :
  (dict_has d k = false -> P (KeyError k)) -> raises_only P (dict_get d k).
Proof. unfold dict_get, dict_has. destruct (dict_find d k); simpl; auto. Qed.

Section HeadRaises.
Context {fw : Framework}.
Variable P : exn -> Prop.
Hypothesis fw_raises : framework_raises P fw.
Variable self : GeoPredModel.
Hypothesis built : head_built P self.
Variable graph_dict : dict Graph.
Variable feed_dict : dict Tensor.
Hypothesis graph_err : graph_keys_raise P graph_dict.
Hypothesis feed_err : feed_keys_raise P (pretrain_tasks self) feed_dict.

Lemma angle_dist_id_raises t (vocab : result Z) :
  raises_only P vocab -> raises_only P (angle_dist_id t vocab).
Proof.
  intros Hv. unfold angle_dist_id.
  apply raises_bind; [apply (raises_scalar_div fw_raises)|]. intros q _.
  apply raises_bind; [exact Hv|]. intros v _.
  apply raises_bind; [apply (raises_scalar_mul fw_raises)|]. intros sc _.
  apply (raises_cast fw_raises).
Qed.

Ltac in_keys := cbn; repeat (first [left; reflexivity | right]).

Ltac raise_side t :=
  first
    [ exact I
    | apply angle_dist_id_raises; exact I
    | apply dict_get_raises; apply (feed_err t); [assumption | in_keys]
    | apply (raises_gather fw_raises)
    | apply (raises_concat fw_raises)
    | apply (raises_normalize fw_raises)
    | apply (raises_WeightedNTXentLoss_func fw_raises)
    | apply (hb_Fg_linear built)
    | apply (hb_Fg_loss built)
    | match goal with
      | H : layer_raises _ ?l |- raises_only _ (?l _) => apply H
      | H : loss_raises _ ?l |- raises_only _ (?l _ _) => apply H
      end ].

Ltac raise_step t :=
  cbv zeta; apply raises_lift_bind;
  [ raise_side t
  | let a := fresh "a" in let E := fresh "E" in
    intros a E; try (cbn [attr] in E; injection E as <-) ].

Ltac raise_all t := repeat raise_step t; cbn; exact I.

Lemma call_Cm_raises sfx r :
  active (pretrain_tasks self) T_Cm = true -> pass_suffix sfx ->
  raises_only P (call_Cm self feed_dict sfx r).
Proof.
  intros Hact Hs. destruct (hb_Cm built Hact) as ((l & El & Hl) & (lo & Elo & Hlo)).
  unfold call_Cm, _get_Cm_loss. rewrite El, Elo.
  destruct Hs as [-> | ->]; raise_all T_Cm.
Qed.

Lemma call_Fg_raises r :
  active (pretrain_tasks self) T_Fg = true ->
  raises_only P (_get_Fg_loss self feed_dict r).
Proof. intros Hact. unfold _get_Fg_loss. raise_all T_Fg. Qed.

Lemma call_Bar_raises sfx r :
  active (pretrain_tasks self) T_Bar = true -> pass_suffix sfx ->
  raises_only P (call_Bar self feed_dict sfx r).
Proof.
  intros Hact Hs.
  destruct (hb_Bar built Hact)
    as ((l1 & E1 & H1) & (l2 & E2 & H2) & (v & Ev) & (lo & Elo & Hlo)).
  unfold call_Bar, _get_Bar_loss. rewrite E1, E2, Ev, Elo.
  destruct Hs as [-> | ->]; raise_all T_Bar.
Qed.

Lemma call_Dar_raises sfx r :
  active (pretrain_tasks self) T_Dar = true -> pass_suffix sfx ->
  raises_only P (call_Dar self feed_dict sfx r).
Proof.
  intros Hact Hs.
  destruct (hb_Dar built Hact)
    as ((l1 & E1 & H1) & (l2 & E2 & H2) & (v & Ev) & (lo & Elo & Hlo)
        & (lx & Elx & Hlx)).
  unfold call_Dar, _get_Dar_loss. rewrite E1, E2, Ev, Elo, Elx.
  destruct Hs as [-> | ->]; raise_all T_Dar.
Qed.

Lemma call_Blr_raises sfx r :
  active (pretrain_tasks self) T_Blr = true -> pass_suffix sfx ->
  raises_only P (call_Blr self feed_dict sfx r).
Proof.
  intros Hact Hs. destruct (hb_Blr built Hact) as ((l & El & Hl) & (lo & Elo & Hlo)).
  unfold call_Blr, _get_Blr_loss. rewrite El, Elo.
  destruct Hs as [-> | ->]; raise_all T_Blr.
Qed.

Lemma call_Adc_raises sfx r :
  active (pretrain_tasks self) T_Adc = true -> pass_suffix sfx ->
  raises_only P (call_Adc self feed_dict sfx r).
Proof.
  intros Hact Hs. destruct (hb_Adc built Hact) as ((l & El & Hl) & (lo & Elo & Hlo)).
  unfold call_Adc, _get_Adc_loss. rewrite El, Elo.
  destruct Hs as [-> | ->]; raise_all T_Adc.
Qed.

Lemma call_Cl_raises unmasked masked :
  active (pretrain_tasks self) T_Cl = true ->
  raises_only P (call_Cl self feed_dict unmasked masked).
Proof. intros Hact. unfold call_Cl, _get_Cl_loss. raise_all T_Cl. Qed.

Lemma four_pass_raises (call : string -> Tensor -> M R) r1 r2 r3 r4 :
  (forall sfx r, pass_suffix sfx -> raises_only P (call sfx r)) ->
  raises_only P (four_pass call r1 r2 r3 r4).
Proof.
  intros H. unfold four_pass.
  repeat (apply raises_M_bind;
          [apply H; unfold pass_suffix; auto | intros ? ? _]).
  exact I.
Qed.

Lemma block_value_raises rp t :
  active (pretrain_tasks self) t = true ->
  raises_only P (block_value self feed_dict rp t).
Proof.
  intros Hact.
  destruct t; cbn [block_value]; unfold on_nodes, on_graphs.
  - apply four_pass_raises. intros. now apply call_Cm_raises.
  - apply four_pass_raises. intros. now apply call_Fg_raises.
  - apply four_pass_raises. intros. now apply call_Bar_raises.
  - apply four_pass_raises. intros. now apply call_Dar_raises.
  - apply four_pass_raises. intros. now apply call_Blr_raises.
  - apply four_pass_raises. intros. now apply call_Adc_raises.
  - repeat (apply raises_M_bind; [now apply call_Cl_raises | intros ? ? _]). exact I.
Qed.

Lemma run_blocks_raises (val : Task -> M R) ts : forall d,
  (forall t, active (pretrain_tasks self) t = true -> raises_only P (val t)) ->
  raises_only P (run_blocks (pretrain_tasks self) val ts d).
Proof.
  induction ts as [|t ts IH]; intros d H; cbn [run_blocks]; [exact I|].
  apply raises_M_bind.
  - destruct (active (pretrain_tasks self) t) eqn:E; [|exact I].
    apply raises_M_bind; [now apply H | intros; exact I].
  - intros d' w _. now apply IH.
Qed.

Lemma encode_raises a b c :
  In a forward_graph_keys -> In b forward_graph_keys -> In c forward_graph_keys ->
  raises_only P (encode self graph_dict a b c).
Proof.
  intros Ha Hb Hc. unfold encode.
  do 3 (apply raises_lift_bind;
        [apply dict_get_raises; now apply graph_err | intros ? _]).
  apply raises_lift_bind.
  - apply encoder_forward_raises; [apply (raises_tadd fw_raises) | apply (hb_encoder built)].
  - intros out _. cbn. exact I.
Qed.

Lemma forward_encode_raises : raises_only P (forward_encode self graph_dict).
Proof.
  unfold forward_encode.
  repeat (apply raises_M_bind;
          [apply encode_raises; in_keys | intros [[? ?] ?] ? _]).
  exact I.
Qed.

Lemma forward_sub_losses_raises :
  raises_only P (forward_sub_losses self graph_dict feed_dict).
Proof.
  rewrite forward_sub_losses_eq.
  apply raises_M_bind; [apply forward_encode_raises|]. intros rp w _.
  apply run_blocks_raises. intros t Ht. now apply block_value_raises.
Qed.

Lemma forward_raises return_subloss :
  raises_only P (GeoPredModel_forward self graph_dict feed_dict return_subloss).
Proof.
  pose proof forward_sub_losses_raises as Hs.
  destruct (forward_sub_losses self graph_dict feed_dict) as [[subs w]|e] eqn:E.
  - rewrite (forward_split _ _ _ return_subloss E), (hb_coefs built).
    apply forward_sub_losses_inv in E as (rp & calls & _ & _ & _ & -> & _).
    pose proof (entries_length (pretrain_tasks self) (block_value self feed_dict rp)
                  all_tasks) as Hlen. cbn [List.length all_tasks] in Hlen.
    destruct (Nat.leb_spec
                (List.length (entries_of (pretrain_tasks self)
                                (block_value self feed_dict rp) all_tasks)) 8);
      [exact I | lia].
  - unfold GeoPredModel_forward. rewrite E. exact Hs.
Qed.

End HeadRaises.

(** X5. On a head whose attributes are as its constructor leaves them
    (eight coefficients, the layers and losses of every active task set,
    the encoder in its constructor's shape), [forward] returns or raises
    one of: a [KeyError] for a key it reads (one of the twelve graph keys,
    or a feed key of an active task) that the dict does not hold, an
    exception a framework call raised. Reading a task's attributes and
    indexing [coefs] never fail. The constructor leaves every head it
    builds in that shape. *)
Theorem head_forward_raises_only {fw : Framework} (P : exn -> Prop)
    (self : GeoPredModel) (graph_dict : dict Graph) (feed_dict : dict Tensor)
    (return_subloss : bool) :
  framework_raises P fw ->
  head_built P self ->
  graph_keys_raise P graph_dict ->
  feed_keys_raise P (pretrain_tasks self) feed_dict ->
  raises_only P (GeoPredModel_forward self graph_dict feed_dict return_subloss) /\
  (forall model_config enc built,
     encoder_built P enc -> GeoPredModel_init model_config enc = Ok built ->
     head_built P built).
Proof.
  intros Hfw Hbuilt Hg Hf. split.
  - now apply forward_raises.
  - intros model_config enc built Henc Hinit. eapply GeoPredModel_init_built; eauto.
Qed.

Lemma demo_model_built tasks :
  head_built (fun e => e = FrameworkError "layer_norm")
    (Demo.model tasks (repeat 0 8)).
Proof.
  constructor; cbn [Demo.model compound_encoder coefs Fg_linear Fg_loss Cm_linear
                    Cm_loss Bar_mlp_1 Bar_mlp_2 Bar_vocab Bar_loss Dar_mlp1 Dar_mlp2
                    Dar_vocab Dar_loss Dar_loss_extra Blr_mlp Blr_loss Adc_mlp
                    Adc_loss];
    unfold has_layer, has_loss, has_vocab, layer_raises, loss_raises.
  - exact (demo_encoder_built 0).
  - reflexivity.
  - intros; exact I.
  - intros; exact I.
  - intros _. split; eexists; (split; [reflexivity | intros; exact I]).
  - intros _. repeat split; eexists; try reflexivity;
      (split; [reflexivity | intros; exact I]).
  - intros _. repeat split; eexists; try reflexivity;
      (split; [reflexivity | intros; exact I]).
  - intros _. split; eexists; (split; [reflexivity | intros; exact I]).
  - intros _. split; eexists; (split; [reflexivity | intros; exact I]).
Qed.

Lemma head_forward_raises_only_witness :
  let fw := Demo.framework in
  let P := fun e => e = FrameworkError "layer_norm" in
  let self :=
    Demo.model ["Cm"; "Fg"; "Bar"; "Dar"; "Blr"; "Adc"; "Cl"] (repeat 0 8) in
  let graph_dict := Demo.graph_dict 1 2 3 4 in
  let feed_dict := Demo.feed_dict in
  framework_raises P fw /\
  head_built P self /\
  graph_keys_raise P graph_dict /\
  feed_keys_raise P (pretrain_tasks self) feed_dict /\
  raises_only P (GeoPredModel_forward self graph_dict feed_dict true) /\
  exists out w, GeoPredModel_forward self graph_dict feed_dict true = Ok (out, w).
Proof.
  intros fw P self graph_dict feed_dict.
  assert (Hg : graph_keys_raise P graph_dict).
  { intros k Hin Hk. cbn in Hin.
    repeat (destruct Hin as [<- | Hin]; [discriminate Hk|]). contradiction. }
  assert (Hf : feed_keys_raise P (pretrain_tasks self) feed_dict).
  { intros t k _ Hin Hk. destruct t; cbn in Hin;
      repeat (destruct Hin as [<- | Hin]; [discriminate Hk|]); contradiction. }
  split; [exact demo_framework_raises|].
  split; [exact (demo_model_built _)|].
  split; [exact Hg|]. split; [exact Hf|].
  split.
  - apply (@head_forward_raises_only fw P self graph_dict feed_dict true
             demo_framework_raises (demo_model_built _) Hg Hf).
  - do 2 eexists. reflexivity.
Defined.

(** ** The keys [forward] needs *)

Lemma fails_lift_here {A B} (r : result A) (f : A -> M B) :
  fails r -> fails (x <~ r ;; f x).
Proof. rewrite M_bind_lift. destruct r; simpl; [intros [] | auto]. Qed.

Lemma fails_lift_later {A B} (r : result A) (f : A -> M B) :
  (forall a, fails (f a)) -> fails (x <~ r ;; f x).
Proof. rewrite M_bind_lift. destruct r; simpl; auto. Qed.

Lemma fails_M_here {A B} (m : M A) (f : A -> M B) :
  fails m -> fails (x <- m ;; f x).
Proof. destruct m as [[a w]|e]; simpl; [intros []|auto]. Qed.

Lemma fails_M_later {A B} (m : M A) (f : A -> M B) :
  (forall a, fails (f a)) -> fails (x <- m ;; f x).
Proof.
  intros H. destruct m as [[a w]|e]; simpl; auto.
  specialize (H a). destruct (f a) as [[b w']|]; auto.
Qed.

Lemma dict_get_fails {V} (d : dict V) k : dict_has d k = false -> fails (dict_get d k).
Proof. unfold dict_has, dict_get. destruct (dict_find d k); simpl; auto; discriminate. Qed.

Lemma dict_get_has {V} (d : dict V) k v : dict_get d k = Ok v -> dict_has d k = true.
Proof. unfold dict_has, dict_get. destruct (dict_find d k); simpl; auto; discriminate. Qed.

Lemma four_pass_fails_plain (call : string -> Tensor -> M R) r1 r2 r3 r4 :
  (forall r, fails (call "" r)) -> fails (four_pass call r1 r2 r3 r4).
Proof. intros H. unfold four_pass. apply fails_M_here, H. Qed.

Lemma four_pass_fails_suffixed (call : string -> Tensor -> M R) r1 r2 r3 r4 :
  (forall r, fails (call "_conf_cl_1" r)) -> fails (four_pass call r1 r2 r3 r4).
Proof.
  intros H. unfold four_pass.
  apply fails_M_later; intros v1. apply fails_M_later; intros v2.
  apply fails_M_here, H.
Qed.

Section Keys.
Context {fw : Framework}.
Variable self : GeoPredModel.
Variable graph_dict : dict Graph.
Variable feed_dict : dict Tensor.

Ltac find_read Hm :=
  repeat first
    [ solve [apply fails_lift_here; apply dict_get_fails; exact Hm]
    | apply fails_lift_later; intros ? ].

Lemma block_value_fails rp t k :
  In k (task_feed_keys t) -> dict_has feed_dict k = false ->
  fails (block_value self feed_dict rp t).
Proof.
  intros Hin Hm.
  destruct t; cbn in Hin; cbn [block_value]; unfold on_nodes, on_graphs;
    repeat (destruct Hin as [<- | Hin]); try contradiction;
    first
      [ apply four_pass_fails_plain; intros r; cbv beta;
        unfold call_Cm, _get_Fg_loss, call_Bar, call_Dar, call_Blr, call_Adc;
        solve [find_read Hm]
      | apply four_pass_fails_suffixed; intros r; cbv beta;
        unfold call_Cm, call_Bar, call_Dar, call_Blr, call_Adc;
        solve [find_read Hm]
      | apply fails_M_here; unfold call_Cl; solve [find_read Hm] ].
Qed.

Lemma forward_reads_feed_keys rs out w t k :
  GeoPredModel_forward self graph_dict feed_dict rs = Ok (out, w) ->
  active (pretrain_tasks self) t = true -> In k (task_feed_keys t) ->
  dict_has feed_dict k = true.
Proof.
  intros H Hact Hin.
  apply forward_inv in H as (subs & w1 & H & _).
  apply forward_sub_losses_inv in H as (rp & calls & _ & _ & Hv & _).
  destruct (Hv t Hact) as (v & wt & Ev).
  destruct (dict_has feed_dict k) eqn:Hk; [reflexivity|].
  pose proof (block_value_fails rp t k Hin Hk) as Hf.
  rewrite Ev in Hf. destruct Hf.
Qed.

Lemma forward_reads_graph_keys rs out w k :
  GeoPredModel_forward self graph_dict feed_dict rs = Ok (out, w) ->
  In k forward_graph_keys -> dict_has graph_dict k = true.
Proof.
  intros H Hin.
  apply forward_inv in H as (subs & w1 & H & _).
  apply forward_sub_losses_inv in H as (rp & calls & _ & Henc & _).
  destruct Henc as (c1 & c2 & c3 & c4 & _ & H1 & H2 & H3 & H4).
  destruct H1 as (? & ? & ? & ? & ? & ? & _).
  destruct H2 as (? & ? & ? & ? & ? & ? & _).
  destruct H3 as (? & ? & ? & ? & ? & ? & _).
  destruct H4 as (? & ? & ? & ? & ? & ? & _).
  cbn in Hin.
  repeat (destruct Hin as [<- | Hin]; [eapply dict_get_has; eassumption|]).
  contradiction.
Qed.

End Keys.

(** X6. A call of [forward] that returns has found every key it reads:
    [graph_dict] holds the twelve graph keys and [feed_dict] the feed keys of
    every active task, those of the augmented conformer included ([Fg] and
    [Cl] read unsuffixed keys only). On any framework, a dict that lacks one
    of these keys makes [forward] raise. *)
Theorem forward_needs_keys {fw : Framework} (self : GeoPredModel)
    (graph_dict : dict Graph) (feed_dict : dict Tensor) (return_subloss : bool)
    (out : ForwardOut) (w : list Event) :
  GeoPredModel_forward self graph_dict feed_dict return_subloss = Ok (out, w) ->
  (forall k, In k forward_graph_keys -> dict_has graph_dict k = true) /\
  (forall t k, active (pretrain_tasks self) t = true -> In k (task_feed_keys t) ->
               dict_has feed_dict k = true).
Proof.
  intros H. split.
  - intros k. eapply forward_reads_graph_keys; eauto.
  - intros t k. eapply forward_reads_feed_keys; eauto.
Qed.

Lemma forward_needs_keys_witness :
  let fw := Demo.framework in
  let self := Demo.model ["Cm"; "Cl"] (repeat 0 8) in
  let graph_dict := Demo.graph_dict 1 2 3 4 in
  let feed_dict := Demo.feed_dict in
  exists out w,
    GeoPredModel_forward self graph_dict feed_dict true = Ok (out, w) /\
    (forall k, In k forward_graph_keys -> dict_has graph_dict k = true) /\
    (forall t k, active (pretrain_tasks self) t = true -> In k (task_feed_keys t) ->
                 dict_has feed_dict k = true).
Proof.
  intros fw self graph_dict feed_dict.
  eassert (H : GeoPredModel_forward self graph_dict feed_dict true = Ok (_, _))
    by reflexivity.
  do 2 eexists. split; [exact H|].
  exact (@forward_needs_keys fw self graph_dict feed_dict true _ _ H).
Defined.

(** ** What [forward] depends on *)

Lemma with_tasks_weighting (self : GeoPredModel) tasks subs names :
  forall loss cnt,
    forward_weighting (with_tasks self tasks) subs names loss cnt
    = forward_weighting self subs names loss cnt.
Proof.
  induction names as [|n names IH]; intros loss cnt; [reflexivity|].
  cbn [forward_weighting]. cbn [coefs with_tasks].
  apply M_bind_ext; intros c. cbv zeta.
  apply M_bind_ext; intros s. apply M_bind_ext; intros c'.
  apply M_bind_ext; intros []. apply IH.
Qed.

Lemma run_blocks_ext tasks tasks' (val val' : Task -> M R) ts : forall d,
  (forall t, active tasks t = active tasks' t) ->
  (forall t, active tasks t = true -> val t = val' t) ->
  run_blocks tasks val ts d = run_blocks tasks' val' ts d.
Proof.
  induction ts as [|t ts IH]; intros d Ha Hv; cbn [run_blocks]; [reflexivity|].
  rewrite <- Ha. destruct (active tasks t) eqn:E.
  - rewrite (Hv t E). apply M_bind_ext; intros d'. now apply IH.
  - apply M_bind_ext; intros d'. now apply IH.
Qed.

Lemma run_blocks_inactive tasks (val : Task -> M R) ts : forall d,
  (forall t, active tasks t = false) -> run_blocks tasks val ts d = ret d.
Proof.
  induction ts as [|t ts IH]; intros d Ha; cbn [run_blocks]; [reflexivity|].
  rewrite Ha. rewrite M_bind_ret_l. now apply IH.
Qed.

Lemma dict_get_same {V} (d d' : dict V) k :
  same_at d d' k -> dict_get d k = dict_get d' k.
Proof. unfold same_at, dict_get. now intros ->. Qed.

Section Frame.
Context {fw : Framework}.
Variable self : GeoPredModel.
Variables graph_dict graph_dict' : dict Graph.
Variables feed_dict feed_dict' : dict Tensor.
Hypothesis same_graphs :
  forall k, In k forward_graph_keys -> same_at graph_dict graph_dict' k.
Hypothesis same_feeds :
  forall t k, active (pretrain_tasks self) t = true -> In k (task_feed_keys t) ->
              same_at feed_dict feed_dict' k.

Ltac in_keys := cbn; repeat (first [left; reflexivity | right]).

Ltac same_reads t :=
  repeat match goal with
         | |- context [dict_get feed_dict ?k] =>
             rewrite (@dict_get_same _ feed_dict feed_dict' k)
               by (apply (@same_feeds t); [assumption | in_keys])
         end;
  reflexivity.

Lemma call_Cm_same sfx r :
  active (pretrain_tasks self) T_Cm = true -> pass_suffix sfx ->
  call_Cm self feed_dict sfx r = call_Cm self feed_dict' sfx r.
Proof. intros Ha [-> | ->]; unfold call_Cm; same_reads T_Cm. Qed.

Lemma call_Fg_same r :
  active (pretrain_tasks self) T_Fg = true ->
  _get_Fg_loss self feed_dict r = _get_Fg_loss self feed_dict' r.
Proof. intros Ha. unfold _get_Fg_loss. same_reads T_Fg. Qed.

Lemma call_Bar_same sfx r :
  active (pretrain_tasks self) T_Bar = true -> pass_suffix sfx ->
  call_Bar self feed_dict sfx r = call_Bar self feed_dict' sfx r.
Proof. intros Ha [-> | ->]; unfold call_Bar; same_reads T_Bar. Qed.

Lemma call_Dar_same sfx r :
  active (pretrain_tasks self) T_Dar = true -> pass_suffix sfx ->
  call_Dar self feed_dict sfx r = call_Dar self feed_dict' sfx r.
Proof. intros Ha [-> | ->]; unfold call_Dar; same_reads T_Dar. Qed.

Lemma call_Blr_same sfx r :
  active (pretrain_tasks self) T_Blr = true -> pass_suffix sfx ->
  call_Blr self feed_dict sfx r = call_Blr self feed_dict' sfx r.
Proof. intros Ha [-> | ->]; unfold call_Blr; same_reads T_Blr. Qed.

Lemma call_Adc_same sfx r :
  active (pretrain_tasks self) T_Adc = true -> pass_suffix sfx ->
  call_Adc self feed_dict sfx r = call_Adc self feed_dict' sfx r.
Proof. intros Ha [-> | ->]; unfold call_Adc; same_reads T_Adc. Qed.

Lemma call_Cl_same unmasked masked :
  active (pretrain_tasks self) T_Cl = true ->
  call_Cl self feed_dict unmasked masked = call_Cl self feed_dict' unmasked masked.
Proof. intros Ha. unfold call_Cl. same_reads T_Cl. Qed.

Lemma four_pass_same (call call' : string -> Tensor -> M R) r1 r2 r3 r4 :
  (forall sfx r, pass_suffix sfx -> call sfx r = call' sfx r) ->
  four_pass call r1 r2 r3 r4 = four_pass call' r1 r2 r3 r4.
Proof.
  intros H. unfold four_pass.
  rewrite !H by (unfold pass_suffix; auto). reflexivity.
Qed.

Lemma block_value_same rp t :
  active (pretrain_tasks self) t = true ->
  block_value self feed_dict rp t = block_value self feed_dict' rp t.
Proof.
  intros Ha. destruct t; cbn [block_value]; unfold on_nodes, on_graphs;
    try (apply four_pass_same; intros sfx r Hs).
  - now apply call_Cm_same.
  - now apply call_Fg_same.
  - now apply call_Bar_same.
  - now apply call_Dar_same.
  - now apply call_Blr_same.
  - now apply call_Adc_same.
  - now rewrite !call_Cl_same.
Qed.

Lemma encode_same a b c :
  In a forward_graph_keys -> In b forward_graph_keys -> In c forward_graph_keys ->
  encode self graph_dict a b c = encode self graph_dict' a b c.
Proof.
  intros Ha Hb Hc. unfold encode.
  now rewrite (dict_get_same (@same_graphs a Ha)), (dict_get_same (@same_graphs b Hb)),
    (dict_get_same (@same_graphs c Hc)).
Qed.

Lemma forward_encode_same :
  forward_encode self graph_dict = forward_encode self graph_dict'.
Proof.
  unfold forward_encode.
  repeat match goal with
         | |- context [encode self graph_dict ?a ?b ?c] =>
             rewrite (@encode_same a b c) by in_keys
         end.
  reflexivity.
Qed.

Lemma forward_sub_losses_same :
  forward_sub_losses self graph_dict feed_dict
  = forward_sub_losses self graph_dict' feed_dict'.
Proof.
  rewrite !forward_sub_losses_eq, forward_encode_same.
  apply M_bind_ext; intros rp. apply run_blocks_ext; [reflexivity|].
  intros t Ha. now apply block_value_same.
Qed.

End Frame.

(** X7. [forward] reads nothing but the twelve graph keys and the feed
    keys of the active tasks: two calls whose dicts agree on these keys
    return the same result, leave the same trace or raise the same
    exception, whatever else the dicts hold. *)
Theorem forward_reads_only_its_keys {fw : Framework} (self : GeoPredModel)
    (graph_dict graph_dict' : dict Graph) (feed_dict feed_dict' : dict Tensor)
    (return_subloss : bool) :
  (forall k, In k forward_graph_keys -> same_at graph_dict graph_dict' k) ->
  (forall t k, active (pretrain_tasks self) t = true -> In k (task_feed_keys t) ->
               same_at feed_dict feed_dict' k) ->
  GeoPredModel_forward self graph_dict feed_dict return_subloss
  = GeoPredModel_forward self graph_dict' feed_dict' return_subloss.
Proof.
  intros Hg Hf. unfold GeoPredModel_forward.
  now rewrite (@forward_sub_losses_same fw self graph_dict graph_dict'
                 feed_dict feed_dict' Hg Hf).
Qed.

Lemma forward_reads_only_its_keys_witness :
  let fw := Demo.framework in
  let self := Demo.model ["Cl"] (repeat 0 8) in
  let graph_dict := Demo.graph_dict 1 2 3 4 in
  let feed_dict := [("fp_score", Demo.vec 1); ("rms", Demo.vec 2)] in
  let feed_dict' := ("Cm_node_i", Demo.vec 5) :: feed_dict ++ [("rms", Demo.vec 7)] in
  GeoPredModel_forward self graph_dict feed_dict true
  = GeoPredModel_forward self (graph_dict ++ [("other", Demo.graph 9)]) feed_dict' true.
Proof.
  intros fw self graph_dict feed_dict feed_dict'.
  apply (@forward_reads_only_its_keys fw self).
  - intros k Hin. cbn in Hin.
    repeat (destruct Hin as [<- | Hin]; [reflexivity|]). contradiction.
  - intros t k Ha Hin. destruct t; cbn in Ha; try discriminate Ha; cbn in Hin.
    repeat (destruct Hin as [<- | Hin]; [reflexivity|]). contradiction.
Defined.

(** X8. Of [pretrain_tasks] only the membership of the seven tags is
    read: two task lists with the same tags among them, in any order, with
    repetitions or with other strings, give the same [forward]; the order of
    the sub-losses and of their coefficients is that of the code. *)
Theorem forward_tasks_membership {fw : Framework} (self : GeoPredModel)
    (tasks tasks' : list string) (graph_dict : dict Graph) (feed_dict : dict Tensor)
    (return_subloss : bool) :
  (forall t, active tasks t = active tasks' t) ->
  GeoPredModel_forward (with_tasks self tasks) graph_dict feed_dict return_subloss
  = GeoPredModel_forward (with_tasks self tasks') graph_dict feed_dict return_subloss.
Proof.
  intros Ha.
  assert (Hsub : forward_sub_losses (with_tasks self tasks) graph_dict feed_dict
                 = forward_sub_losses (with_tasks self tasks') graph_dict feed_dict).
  { rewrite !forward_sub_losses_eq, !with_tasks_encode.
    apply M_bind_ext; intros rp. cbn [pretrain_tasks with_tasks].
    apply run_blocks_ext; [exact Ha|].
    intros t _. now rewrite !with_tasks_block. }
  unfold GeoPredModel_forward. rewrite Hsub.
  apply M_bind_ext; intros subs. rewrite !with_tasks_weighting. reflexivity.
Qed.

Lemma forward_tasks_membership_witness :
  let fw := Demo.framework in
  let self := Demo.model [] (repeat 0 8) in
  GeoPredModel_forward (with_tasks self ["Cl"; "pad"; "Cm"; "Cl"])
    (Demo.graph_dict 1 2 3 4) Demo.feed_dict true
  = GeoPredModel_forward (with_tasks self ["Cm"; "Cl"])
      (Demo.graph_dict 1 2 3 4) Demo.feed_dict true.
Proof.
  intros fw self.
  apply (@forward_tasks_membership fw self ["Cl"; "pad"; "Cm"; "Cl"] ["Cm"; "Cl"]).
  intros t. destruct t; reflexivity.
Defined.

(** X9. With none of the seven tags in [pretrain_tasks], [forward] still
    makes its four encoder passes and raises what they raise; when they
    return, the loss is [0], the dict of sub-losses is empty and [feed_dict]
    is not read. *)
Theorem forward_no_active_task {fw : Framework} (self : GeoPredModel)
    (graph_dict : dict Graph) (feed_dict : dict Tensor) (return_subloss : bool) :
  (forall t, active (pretrain_tasks self) t = false) ->
  GeoPredModel_forward self graph_dict feed_dict return_subloss
  = (rp <- forward_encode self graph_dict ;;
     ret (if return_subloss then OutFull 0 [] (coefs self) else OutLoss 0)).
Proof.
  intros Ha. unfold GeoPredModel_forward. rewrite forward_sub_losses_eq.
  destruct (forward_encode self graph_dict) as [[rp w]|e]; [|reflexivity].
  cbn [bind M_monad]. rewrite (@run_blocks_inactive (pretrain_tasks self) _ all_tasks [] Ha).
  destruct return_subloss; cbn; now rewrite ?app_nil_r.
Qed.

Lemma forward_no_active_task_witness :
  let fw := Demo.framework in
  let self := Demo.model ["cm"; "FG"] (repeat 0 8) in
  (forall t, active (pretrain_tasks self) t = false) /\
  GeoPredModel_forward self (Demo.graph_dict 1 2 3 4) [] true
  = (rp <- forward_encode self (Demo.graph_dict 1 2 3 4) ;;
     ret (OutFull 0 [] (coefs self))).
Proof.
  intros fw self.
  assert (Ha : forall t, active (pretrain_tasks self) t = false)
    by (intros t; destruct t; reflexivity).
  split; [exact Ha|].
  apply (@forward_no_active_task fw self (Demo.graph_dict 1 2 3 4) [] true Ha).
Defined.

(** ** Angle labels *)

Lemma Forall2_Forall_r {A B} (R : A -> B -> Prop) (P : A -> Prop) (Q : B -> Prop)
    l l' :
  Forall2 R l l' -> Forall P l -> (forall a b, R a b -> P a -> Q b) -> Forall Q l'.
Proof.
  intros HR HP H. induction HR; [constructor|].
  inversion HP; subst. constructor; eauto.
Qed.

(** X10. With the framework's [float32] arithmetic and a cast that drops
    the fraction, for angles between [0] and the [float32] nearest to pi and
    a vocabulary size between [0] and [2^20], every label is an integer
    between [0] and [vocab]: a valid class of the [vocab + 2] outputs of the
    angle heads, of which class [vocab + 1] is never a label. *)
Theorem angle_labels_in_range {fw : Framework} (bond_angle labels : Tensor)
    (vocab : Z) :
  float32_ops fw ->
  (0 <= vocab <= 1048576)%Z ->
  angle_dist_id bond_angle (Ok vocab) = Ok labels ->
  Forall (fun a => 0 <= a <= f32_pi) (t_data bond_angle) ->
  Forall (fun l => exists n, l = IZR n /\ (0 <= n <= vocab)%Z) (t_data labels).
Proof.
  intros Hops [Hv0 Hv1] H Hall.
  assert (Hv0' : 0 <= IZR vocab) by now apply IZR_le.
  assert (Hv1' : IZR vocab <= 1048576) by now apply IZR_le.
  assert (Hv : Rabs (IZR vocab) <= 2 ^ 62) by (rewrite Rabs_pos_eq; lra).
  eapply Forall2_Forall_r;
    [exact (@angle_labels fw Hops _ _ _ Hv H) | exact Hall |].
  cbv beta. intros a l Hl [Ha0 Ha1].
  assert (Hq : 0 <= a / np_pi <= 10000001 / 10000000)
    by (unfold np_pi, f32_pi in *; lra).
  assert (HX : 0 <= a / np_pi * IZR vocab <= 10000001 / 10000000 * IZR vocab).
  { split; [apply Rmult_le_pos; lra | apply Rmult_le_compat_r; lra]. }
  assert (Hr : label_in_range a vocab).
  { unfold label_in_range, f32_big. rewrite !Rabs_pos_eq by lra. lra. }
  destruct (Hl Hr) as (y & Hy & ->). apply Rabs_within in Hy.
  pose proof (@label_slack_bound a vocab Hv) as Hs.
  rewrite Rabs_pos_eq in Hs by lra.
  exists (Rtrunc y). split; [reflexivity|].
  apply Rtrunc_between; [assumption | lra].
Qed.

Lemma angle_labels_in_range_witness :
  let fw := Demo.framework in
  let bond_angle := mkTensor float32 [3%Z] [0; 1; f32_pi] in
  exists labels,
    float32_ops fw /\ (0 <= 4 <= 1048576)%Z /\
    angle_dist_id bond_angle (Ok 4%Z) = Ok labels /\
    Forall (fun a => 0 <= a <= f32_pi) (t_data bond_angle) /\
    Forall (fun l => exists n, l = IZR n /\ (0 <= n <= 4)%Z) (t_data labels).
Proof.
  intros fw bond_angle.
  assert (Hv : (0 <= 4 <= 1048576)%Z) by lia.
  assert (Hall : Forall (fun a => 0 <= a <= f32_pi) (t_data bond_angle)).
  { cbn. unfold f32_pi. repeat constructor; lra. }
  eassert (H : angle_dist_id bond_angle (Ok 4%Z) = Ok _) by reflexivity.
  eexists. split; [exact demo_float32_ops|]. split; [exact Hv|].
  split; [exact H|]. split; [exact Hall|].
  exact (@angle_labels_in_range fw bond_angle _ 4 demo_float32_ops Hv H Hall).
Defined.

(** ** The weighted loss *)

Lemma weighted_sum_equal_coefs c n subs : forall i,
  (i + List.length subs <= n)%nat ->
  weighted_sum i (repeat c n) subs
  = exp (-2 * c) / 2 * sub_total subs + INR (List.length subs) * ln (exp c + 1).
Proof.
  induction subs as [|[k s] subs IH]; intros i Hi.
  - cbn. lra.
  - cbn [weighted_sum sub_total fold_right List.length snd] in *.
    rewrite IH by lia. fold (sub_total subs).
    rewrite (nth_indep _ 0 c) by (rewrite repeat_length; lia).
    rewrite nth_repeat. rewrite S_INR. unfold weighted_term. lra.
Qed.

(** X11. For a head that comes out of the constructor, its coefficients
    still zero, the loss [forward] returns is half the sum of the sub-losses
    plus [ln 2] for each active task, and the coefficients it returns are the
    eight zeros. *)
Theorem fresh_model_loss {fw : Framework} (model_config : dict Value)
    (enc : GeoGNNModel) (self : GeoPredModel)
    (graph_dict : dict Graph) (feed_dict : dict Tensor)
    (loss : R) (subs : dict R) (cs : list R) (w : list Event) :
  GeoPredModel_init model_config enc = Ok self ->
  GeoPredModel_forward self graph_dict feed_dict true = Ok (OutFull loss subs cs, w) ->
  loss = sub_total subs / 2 + INR (List.length subs) * ln 2 /\
  cs = repeat 0 8.
Proof.
  intros Hinit H.
  apply GeoPredModel_init_inv in Hinit as (_ & Hc & _).
  apply forward_inv in H as (subs' & w1 & _ & Hlen & Hloss & Hout & _).
  cbn [out_loss] in Hloss, Hout. injection Hout as Hs Hcs. subst subs'.
  split; [|now rewrite Hcs, Hc].
  rewrite Hloss, weighting_acc_sum, Hc.
  rewrite Hc, repeat_length in Hlen.
  rewrite weighted_sum_equal_coefs by lia.
  rewrite Rmult_0_r, exp_0. replace (1 + 1) with 2 by ring. lra.
Qed.

Lemma fresh_model_loss_witness :
  let fw := Demo.framework in
  exists self loss subs cs w,
    GeoPredModel_init Demo.config_Cl (Demo.encoder 0) = Ok self /\
    GeoPredModel_forward self (Demo.graph_dict 1 2 3 4) Demo.feed_dict true
    = Ok (OutFull loss subs cs, w) /\
    List.length subs = 1%nat /\
    loss = sub_total subs / 2 + INR (List.length subs) * ln 2 /\
    cs = repeat 0 8.
Proof.
  intros fw.
  eassert (Hi : GeoPredModel_init Demo.config_Cl (Demo.encoder 0) = Ok _)
    by reflexivity.
  match type of Hi with
  | _ = Ok ?self =>
      eassert (Hf : GeoPredModel_forward self (Demo.graph_dict 1 2 3 4)
                      Demo.feed_dict true
                    = Ok (OutFull _ _ _, _)) by reflexivity
  end.
  do 5 eexists.
  split; [exact Hi|]. split; [exact Hf|]. split; [reflexivity|].
  exact (@fresh_model_loss fw _ _ _ _ _ _ _ _ _ Hi Hf).
Defined.

(** ** The dihedral graph in the encoder *)

Section Dihedral.
Context {fw : Framework}.
Variable self : GeoGNNModel.
Variables atom_bond_graph bond_angle_graph : Graph.
Variables dihes_angle_graph dihes_angle_graph' : Graph.

Ltac both H1 H2 :=
  let x := fresh "x" in let x' := fresh "x" in
  let E := fresh "E" in let E' := fresh "E" in
  rpeel H1 as x E; rpeel H2 as x' E';
  rewrite E in E'; injection E' as <-.

Ltac both_pair H1 H2 :=
  let x := fresh "x" in let x' := fresh "x" in
  let E := fresh "E" in let E' := fresh "E" in
  rpeel H1 as x E; rpeel H2 as x' E';
  rewrite E in E'; injection E' as <-; destruct x as [? ?].

Ltac apart H1 H2 :=
  let x := fresh "y" in let x' := fresh "y" in
  let E := fresh "E" in let E' := fresh "E" in
  rpeel H1 as x E; rpeel H2 as x' E'.

Lemma layer_ignores_dihedral st layer_id st1 st2 :
  GeoGNNModel_layer self atom_bond_graph bond_angle_graph dihes_angle_graph st layer_id
  = Ok st1 ->
  GeoGNNModel_layer self atom_bond_graph bond_angle_graph dihes_angle_graph' st layer_id
  = Ok st2 ->
  node_hidden_list st1 = node_hidden_list st2 /\
  edge_hidden_list st1 = edge_hidden_list st2.
Proof.
  intros H1 H2. unfold GeoGNNModel_layer in H1, H2.
  do 8 both H1 H2. apart H1 H2. do 3 both H1 H2.
  both_pair H1 H2. do 3 both H1 H2. both_pair H1 H2. do 2 both H1 H2.
  apart H1 H2.
  repeat match goal with p : (Tensor * Tensor)%type |- _ => destruct p end.
  cbn in H1, H2. injection H1 as <-. injection H2 as <-.
  split; reflexivity.
Qed.

End Dihedral.

(** X13. The dihedral-angle graph reaches the outputs of the encoder only
    through the state a layer hands to the next one: with at most one layer,
    two calls of [forward] that differ in [dihes_angle_graph] only and both
    return, return the same node, edge and graph representations. *)
Theorem one_layer_ignores_dihedral {fw : Framework} (self : GeoGNNModel)
    (atom_bond_graph bond_angle_graph dihes_angle_graph dihes_angle_graph' : Graph)
    (out out' : Tensor * Tensor * Tensor) :
  (layer_num self <= 1)%Z ->
  GeoGNNModel_forward self atom_bond_graph bond_angle_graph dihes_angle_graph = Ok out ->
  GeoGNNModel_forward self atom_bond_graph bond_angle_graph dihes_angle_graph' = Ok out' ->
  out = out'.
Proof.
  intros Hn H1 H2. unfold GeoGNNModel_forward, range in H1, H2.
  destruct (Z.to_nat (layer_num self)) as [|[|k]] eqn:En; [| |lia];
    cbn [seq foldM] in H1, H2.
  - congruence.
  - rpeel H1 as a1 Ea. rpeel H2 as a2 Ea'. rewrite Ea in Ea'. injection Ea' as <-.
    rpeel H1 as b1 Eb. rpeel H2 as b2 Eb'. rewrite Eb in Eb'. injection Eb' as <-.
    rpeel H1 as c1 Ec. rpeel H2 as c2 Ec'. rewrite Ec in Ec'. injection Ec' as <-.
    rpeel H1 as d1 Ed. rpeel H2 as d2 Ed'. rewrite Ed in Ed'. injection Ed' as <-.
    rpeel H1 as e1 Ee. rpeel H2 as e2 Ee'. rewrite Ee in Ee'. injection Ee' as <-.
    rpeel H1 as st1 Es. rpeel H2 as st2 Es'.
    rpeel Es as s1 L1. rpeel Es' as s2 L2.
    injection Es as <-. injection Es' as <-.
    destruct (layer_ignores_dihedral _ _ _ _ _ _ _ L1 L2) as [Hnode Hedge].
    rewrite Hnode, Hedge in H1. congruence.
Qed.

Lemma one_layer_ignores_dihedral_witness :
  let fw := Demo.framework in
  let self := Demo.encoder 1 in
  exists out out',
    (layer_num self <= 1)%Z /\
    GeoGNNModel_forward self (Demo.graph 1) (Demo.graph 2) (Demo.graph 3) = Ok out /\
    GeoGNNModel_forward self (Demo.graph 1) (Demo.graph 2) (Demo.graph 9) = Ok out' /\
    out = out'.
Proof.
  intros fw self.
  assert (Hn : (layer_num self <= 1)%Z) by (cbn; lia).
  eassert (H1 : GeoGNNModel_forward self (Demo.graph 1) (Demo.graph 2) (Demo.graph 3)
                = Ok _) by reflexivity.
  eassert (H2 : GeoGNNModel_forward self (Demo.graph 1) (Demo.graph 2) (Demo.graph 9)
                = Ok _) by reflexivity.
  do 2 eexists.
  split; [exact Hn|]. split; [exact H1|]. split; [exact H2|].
  exact (@one_layer_ignores_dihedral fw self _ _ _ _ _ _ Hn H1 H2).
Defined.
